(** * Lottery: the draw orchestration of duthaho/lottery, embedded in Rocq

    The development follows the JavaScript sources class by class:
    [PrizeManager] (prizes.js), [WinnerManager] (winners.js), [SlotMachine]
    (slotmachine.js), [AdminPanel] (admin.js, the prize validation of the CSV
    import), [DrawManager] (draw.js) and the wiring of [LotteryApp] (app.js).

    Conventions of the embedding.
    - JavaScript numbers that hold integers (prize ids, quantities, instance
      numbers, timestamps) are [Z]; array indices and counters are [nat].
    - Arrays are lists; [push] appends at the end, [pop] removes the last
      element, [findIndex]/[find]/[some]/[filter] scan from the front.
    - [null]/[undefined] object references are [None].
    - DOM work (rendering, sounds, confetti) has no effect on the fields that
      are modelled and is left out; the one DOM reference that gates a state
      update, [actionButtons], is a boolean field.
    - [Date.now()] and [Math.random()] are inputs of the operations using them.
    - The browser's pending callbacks (animation frames and timers armed by
      the slot machine) are part of the state, and firing one is a step. *)

From Stdlib Require Import List ZArith String Bool Arith Lia Permutation Sorted.
Import ListNotations.

Local Open Scope string_scope.
Local Open Scope list_scope.
Local Open Scope nat_scope.

Local Abbreviation length := List.length.

(** Splits a conjunction of closed equations and evaluates each side. *)
Ltac evaluate :=
  repeat match goal with |- _ /\ _ => split end;
  vm_compute; reflexivity.

(** ** Data model *)

(** A participant as loaded from participants.json or the CSV import. *)
Record Participant := mkParticipant { p_id : string; p_name : string }.

(** A prize tier as loaded from prizes.json or the CSV import. *)
Record Prize := mkPrize { id : Z; name : string; name_vi : string; quantity : Z }.

(** A slot of the prize queue: [{...prize, instance: i + 1}].  The prize
    snapshot stored by [addWinner] has the same five fields. *)
Record QueueEntry := mkEntry { tier : Prize; instance : Z }.

(** A ledger entry: [{...participant, prize: {...}, timestamp}]. *)
Record Winner := mkWinner {
  w_id : string; w_name : string; prize : QueueEntry; timestamp : Z }.

Definition eq_str (a b : string) : bool := String.eqb a b.

(** A JavaScript string is kept as the bytes of its UTF-8 encoding.  Its
    [length] counts UTF-16 code units: one for a character encoded in one,
    two or three bytes, two for a character encoded in four bytes (a
    surrogate pair); the continuation bytes of a character count nothing. *)
Definition codeUnits (byte : Ascii.ascii) : nat :=
  let n := Ascii.nat_of_ascii byte in
  if n <? 128 then 1 else if n <? 192 then 0 else if n <? 240 then 1 else 2.

Fixpoint utf16Length (s : string) : nat :=
  match s with
  | EmptyString => 0
  | String byte s' => codeUnits byte + utf16Length s'
  end.

(** ** Array primitives *)

(** [Array.prototype.findIndex]; [None] stands for -1. *)
Fixpoint findIndex {A : Type} (f : A -> bool) (l : list A) : option nat :=
  match l with
  | [] => None
  | x :: l' => if f x then Some 0 else option_map S (findIndex f l')
  end.

(** [l.splice(i, 1)]: the array without its element at index [i]. *)
Fixpoint splice1 {A : Type} (i : nat) (l : list A) : list A :=
  match l, i with
  | [], _ => []
  | _ :: l', O => l'
  | x :: l', S i' => x :: splice1 i' l'
  end.

(** [l.pop()]: the remaining array and the element removed, [None] when
    the array is empty. *)
Fixpoint pop {A : Type} (l : list A) : option (list A * A) :=
  match l with
  | [] => None
  | x :: l' =>
      match pop l' with
      | None => Some ([], x)
      | Some (front, y) => Some (x :: front, y)
      end
  end.

(** ** prizes.js *)

Module PrizeManager.

Record t := mk {
  originalPrizes : list Prize;
  prizeQueue : list QueueEntry;
  currentIndex : nat }.

(** [[...prizes].sort((a, b) => b.id - a.id)]: a stable sort, ids
    descending.  [insertDesc a l] puts [a], which came before every element
    of [l] in the array, in front of the first element whose id is not
    greater than its own. *)
Fixpoint insertDesc (a : Prize) (l : list Prize) : list Prize :=
  match l with
  | [] => [a]
  | b :: l' => if (id b <=? id a)%Z then a :: b :: l' else b :: insertDesc a l'
  end.

Definition sortByIdDesc (prizes : list Prize) : list Prize :=
  fold_right insertDesc [] prizes.

(** The inner loop [for (let i = 0; i < prize.quantity; i++) queue.push(...)]
    with [n] iterations left and loop variable [i]. *)
Fixpoint pushInstances (p : Prize) (n : nat) (i : Z) (queue : list QueueEntry)
  : list QueueEntry :=
  match n with
  | O => queue
  | S n' => pushInstances p n' (i + 1)%Z (queue ++ [mkEntry p (i + 1)%Z])
  end.

(** The loop runs [quantity] times when that is positive, else not at all. *)
Definition buildPrizeQueue (prizes : list Prize) : list QueueEntry :=
  fold_left (fun queue p => pushInstances p (Z.to_nat (quantity p)) 0%Z queue)
            (sortByIdDesc prizes) [].

Definition new (prizes : list Prize) : t :=
  mk prizes (buildPrizeQueue prizes) 0.

Definition setPrizes (prizes : list Prize) (_ : t) : t :=
  mk prizes (buildPrizeQueue prizes) 0.

Definition getCurrentPrize (pm : t) : option QueueEntry :=
  if length (prizeQueue pm) <=? currentIndex pm then None
  else nth_error (prizeQueue pm) (currentIndex pm).

Definition advanceToNextPrize (pm : t) : t :=
  if currentIndex pm <? length (prizeQueue pm)
  then mk (originalPrizes pm) (prizeQueue pm) (S (currentIndex pm))
  else pm.

Definition undoLastPrize (pm : t) : t :=
  if 0 <? currentIndex pm
  then mk (originalPrizes pm) (prizeQueue pm) (currentIndex pm - 1)
  else pm.

Definition isComplete (pm : t) : bool :=
  length (prizeQueue pm) <=? currentIndex pm.

Definition getTotalPrizes (pm : t) : nat := length (prizeQueue pm).

Definition getAwardedCount (pm : t) : nat := currentIndex pm.

Definition reset (pm : t) : t := mk (originalPrizes pm) (prizeQueue pm) 0.

Definition setCurrentIndex (i : nat) (pm : t) : t :=
  mk (originalPrizes pm) (prizeQueue pm) i.

(** *** The declarative reading of the queue *)

(** The slots of one tier: instances 1, 2, ..., quantity. *)
Definition instances (p : Prize) : list QueueEntry :=
  map (fun k => mkEntry p (Z.of_nat k)) (seq 1 (Z.to_nat (quantity p))).

Definition sumQuantity (prizes : list Prize) : Z :=
  fold_right (fun p acc => (quantity p + acc)%Z) 0%Z prizes.

(** The sum of the quantities, a quantity below 0 counting as 0. *)
Definition totalQuantity (prizes : list Prize) : nat :=
  fold_right (fun p acc => Z.to_nat (quantity p) + acc) 0 prizes.

Definition tiersDescending (a b : Prize) : Prop := (id b <= id a)%Z.

Definition idsDescending (a b : QueueEntry) : Prop :=
  (id (tier b) <= id (tier a))%Z.

End PrizeManager.

(** ** winners.js *)

Module WinnerManager.

Record t := mk { winners : list Winner }.

Definition new : t := mk [].

(** [addWinner(participant, prize)] reads [prize.id] first: with a [null]
    prize that is a TypeError ([None]) and nothing has been pushed. *)
Definition addWinner (participant : Participant) (prize : option QueueEntry)
    (now : Z) (wm : t) : option t :=
  match prize with
  | None => None
  | Some e =>
      Some (mk (winners wm ++ [mkWinner (p_id participant) (p_name participant) e now]))
  end.

Definition removeLastWinner (wm : t) : option Winner * t :=
  match pop (winners wm) with
  | None => (None, wm)
  | Some (front, removed) => (Some removed, mk front)
  end.

Definition removeWinnerById (participantId : string) (wm : t) : option Winner * t :=
  match findIndex (fun w => eq_str (w_id w) participantId) (winners wm) with
  | None => (None, wm)
  | Some index => (nth_error (winners wm) index, mk (splice1 index (winners wm)))
  end.

Definition getWinners (wm : t) : list Winner := winners wm.

Definition getWinnersByPrize (prizeId : Z) (wm : t) : list Winner :=
  filter (fun w => (id (tier (prize w)) =? prizeId)%Z) (winners wm).

Definition reset (_ : t) : t := mk [].

End WinnerManager.

(** ** slotmachine.js *)

Module SlotMachine.

(** The fields of the object, then the callbacks it has armed in the
    browser: the handles of the [checkStop] callbacks waiting for the next
    animation frame, the next handle [requestAnimationFrame] will return
    (handles are positive, so [animationId = 0] means never set), and the
    number of reel-stop timer chains started by [finishSpin] whose last
    callback, the one that dispatches [spinComplete], has not run yet. *)
Record t := mk {
  participants : list Participant;
  isSpinning : bool;
  stopRequested : bool;
  pendingWinner : option Participant;
  currentWinner : option Participant;
  animationId : nat;
  frameCallbacks : list nat;
  nextHandle : nat;
  revealTimers : nat }.

Definition new (ps : list Participant) : t :=
  mk ps false false None None 0 [] 1 0.

Definition setParticipants (ps : list Participant) (sm : t) : t :=
  mk ps (isSpinning sm) (stopRequested sm) (pendingWinner sm) (currentWinner sm)
     (animationId sm) (frameCallbacks sm) (nextHandle sm) (revealTimers sm).

Definition getParticipants (sm : t) : list Participant := participants sm.

(** [this.animationId = requestAnimationFrame(checkStop)] *)
Definition requestCheckStop (sm : t) : t :=
  mk (participants sm) (isSpinning sm) (stopRequested sm) (pendingWinner sm)
     (currentWinner sm) (nextHandle sm)
     (frameCallbacks sm ++ [nextHandle sm]) (S (nextHandle sm)) (revealTimers sm).

(** [cancelAnimationFrame(handle)] *)
Definition cancelAnimationFrame (handle : nat) (sm : t) : t :=
  mk (participants sm) (isSpinning sm) (stopRequested sm) (pendingWinner sm)
     (currentWinner sm) (animationId sm)
     (filter (fun h => negb (h =? handle)) (frameCallbacks sm))
     (nextHandle sm) (revealTimers sm).

Definition startSpin (sm : t) : bool * t :=
  if isSpinning sm || (length (participants sm) =? 0) then (false, sm)
  else
    (true,
     requestCheckStop
       (mk (participants sm) true false None (currentWinner sm)
           (animationId sm) (frameCallbacks sm) (nextHandle sm) (revealTimers sm))).

(** [stop()], with [winnerIndex = Math.floor(Math.random() * length)]
    supplied; an index outside the array reads [undefined]. *)
Definition stop (winnerIndex : nat) (sm : t) : t :=
  if negb (isSpinning sm) || stopRequested sm then sm
  else
    mk (participants sm) (isSpinning sm) true
       (nth_error (participants sm) winnerIndex) (currentWinner sm)
       (animationId sm) (frameCallbacks sm) (nextHandle sm) (revealTimers sm).

(** [finishSpin()] arms one timer per reel; the last of them arms the
    timer that reveals the winner.  None of them is ever cleared.  (The
    reels are the six that [createReels] made in the container element.) *)
Definition finishSpin (sm : t) : t :=
  match pendingWinner sm with
  | None => sm
  | Some _ =>
      mk (participants sm) (isSpinning sm) (stopRequested sm) (pendingWinner sm)
         (currentWinner sm) (animationId sm) (frameCallbacks sm) (nextHandle sm)
         (S (revealTimers sm))
  end.

Definition checkStop (sm : t) : t :=
  if stopRequested sm then finishSpin sm else requestCheckStop sm.

(** One animation frame: every callback that was waiting runs once. *)
Definition animationFrame (sm : t) : t :=
  fold_left (fun sm' _ => checkStop sm') (frameCallbacks sm)
    (mk (participants sm) (isSpinning sm) (stopRequested sm) (pendingWinner sm)
        (currentWinner sm) (animationId sm) [] (nextHandle sm) (revealTimers sm)).

(** The body of the last timer up to the dispatch of [spinComplete]:
    [isSpinning = false; currentWinner = pendingWinner].  The event then
    carries [this.pendingWinner] as it is at that moment. *)
Definition reveal (sm : t) : t :=
  mk (participants sm) false (stopRequested sm) (pendingWinner sm)
     (pendingWinner sm) (animationId sm) (frameCallbacks sm) (nextHandle sm)
     (revealTimers sm - 1).

Definition removeParticipant (pid : string) (sm : t) : bool * t :=
  match findIndex (fun p => eq_str (p_id p) pid) (participants sm) with
  | None => (false, sm)
  | Some index => (true, setParticipants (splice1 index (participants sm)) sm)
  end.

Definition addParticipant (participant : Participant) (sm : t) : bool * t :=
  if existsb (fun p => eq_str (p_id p) (p_id participant)) (participants sm)
  then (false, sm)
  else (true, setParticipants (participants sm ++ [participant]) sm).

Definition hasParticipants (sm : t) : bool := 0 <? length (participants sm).

Definition getParticipantCount (sm : t) : nat := length (participants sm).

Definition clearPendingWinner (sm : t) : t :=
  mk (participants sm) (isSpinning sm) (stopRequested sm) None (currentWinner sm)
     (animationId sm) (frameCallbacks sm) (nextHandle sm) (revealTimers sm).

Definition reset (sm : t) : t :=
  let sm1 := if animationId sm =? 0 then sm
             else cancelAnimationFrame (animationId sm) sm in
  mk (participants sm1) false false None None (animationId sm1)
     (frameCallbacks sm1) (nextHandle sm1) (revealTimers sm1).

End SlotMachine.

(** ** admin.js: validation of imported prizes *)

Module AdminPanel.

(** The predicate of [data.every(...)] in [handleImport], on rows whose
    [id] and [quantity] went through [parseInt(..., 10) || 0]. *)
Definition validPrize (p : Prize) : bool :=
  (0 <? id p)%Z
  && (0 <? utf16Length (name p)) && (utf16Length (name p) <=? 100)
  && (0 <? quantity p)%Z && (quantity p <=? 1000)%Z.

(** [None] is a [throw new Error(...)], caught by [handleImport] itself,
    which alerts and leaves the application as it was: [onDataImport] is
    not called. *)
(** A tier the data model excludes. *)
Definition invalidTier (p : Prize) : Prop :=
  (quantity p < 1)%Z \/ (quantity p > 1000)%Z \/ (id p <= 0)%Z.

Definition MAX_ITEMS : nat := 100 * 100.

(** The prize branch of [handleImport] after CSV parsing.  An empty file,
    more than [MAX_ITEMS] rows, or a row failing [validPrize] all throw. *)
Definition importPrizes (data : list Prize) : option (list Prize) :=
  if length data =? 0 then None
  else if MAX_ITEMS <? length data then None
  else if forallb validPrize data then Some data
  else None.

End AdminPanel.

(** ** draw.js *)

Inductive STATE := READY | SPINNING | STOPPED | COMPLETE.

Definition STATE_eqb (a b : STATE) : bool :=
  match a, b with
  | READY, READY | SPINNING, SPINNING | STOPPED, STOPPED | COMPLETE, COMPLETE => true
  | _, _ => false
  end.

Module DrawManager.

(** The orchestrator and the three objects it was constructed with.
    [actionButtons] tells whether [document.getElementById('actionButtons')]
    found an element. *)
Record t := mk {
  slotMachine : SlotMachine.t;
  prizeManager : PrizeManager.t;
  winnerManager : WinnerManager.t;
  state : STATE;
  pendingWinner : option Participant;
  actionButtons : bool }.

Definition new (sm : SlotMachine.t) (pm : PrizeManager.t) (wm : WinnerManager.t)
    (actionButtons : bool) : t :=
  mk sm pm wm READY None actionButtons.

Definition withSlotMachine (sm : SlotMachine.t) (d : t) : t :=
  mk sm (prizeManager d) (winnerManager d) (state d) (pendingWinner d) (actionButtons d).

Definition withPrizeManager (pm : PrizeManager.t) (d : t) : t :=
  mk (slotMachine d) pm (winnerManager d) (state d) (pendingWinner d) (actionButtons d).

Definition withWinnerManager (wm : WinnerManager.t) (d : t) : t :=
  mk (slotMachine d) (prizeManager d) wm (state d) (pendingWinner d) (actionButtons d).

Definition withState (st : STATE) (d : t) : t :=
  mk (slotMachine d) (prizeManager d) (winnerManager d) st (pendingWinner d) (actionButtons d).

Definition withPendingWinner (w : option Participant) (d : t) : t :=
  mk (slotMachine d) (prizeManager d) (winnerManager d) (state d) w (actionButtons d).

(** How a method call ends: it returns, or a TypeError escapes it.  In
    both cases the object is left in the state given. *)
Inductive completion := Returns (d : t) | Throws (d : t).

Definition after (c : completion) : t :=
  match c with Returns d => d | Throws d => d end.

(** [awardedCount >= totalPrizes], as computed in [updateButtons],
    [startSpin] and [canDraw]. *)
Definition isComplete (d : t) : bool :=
  PrizeManager.getTotalPrizes (prizeManager d)
    <=? length (WinnerManager.getWinners (winnerManager d)).

(** Besides drawing the buttons, [updateButtons] stores [COMPLETE]. *)
Definition updateButtons (d : t) : t :=
  if negb (actionButtons d) then d
  else if isComplete d || negb (SlotMachine.hasParticipants (slotMachine d))
       then withState COMPLETE d
       else d.

(** [updatePrizeDisplay] and [updatePrizeBadge] only write to the page. *)
Definition updateUI (d : t) : t := updateButtons d.

Definition startSpin (d : t) : t :=
  if negb (STATE_eqb (state d) READY) then d
  else if isComplete d then d
  else if negb (SlotMachine.hasParticipants (slotMachine d)) then d
  else
    let (started, sm) := SlotMachine.startSpin (slotMachine d) in
    if started then updateButtons (withState SPINNING (withSlotMachine sm d))
    else withSlotMachine sm d.

Definition stopSpin (winnerIndex : nat) (d : t) : t :=
  if negb (STATE_eqb (state d) SPINNING) then d
  else withSlotMachine (SlotMachine.stop winnerIndex (slotMachine d)) d.

Definition onSpinComplete (winner : option Participant) (d : t) : t :=
  match winner with
  | None => d
  | Some _ => updateButtons (withState STOPPED (withPendingWinner winner d))
  end.

Definition respin (d : t) : t :=
  if negb (STATE_eqb (state d) STOPPED) then d
  else
    let d1 := withPendingWinner None d in
    let d2 := withSlotMachine (SlotMachine.clearPendingWinner (slotMachine d1)) d1 in
    let d3 := withSlotMachine (SlotMachine.reset (slotMachine d2)) d2 in
    updateButtons (withState READY d3).

Definition canDraw (d : t) : bool :=
  STATE_eqb (state d) READY
  && negb (isComplete d)
  && SlotMachine.hasParticipants (slotMachine d).

(** The guard of [startSpin]: the three early returns all fall through. *)
Definition startSpinGuard (d : t) : bool :=
  STATE_eqb (state d) READY
  && negb (isComplete d)
  && SlotMachine.hasParticipants (slotMachine d).

Section Listener.

(** The callback registered with [setOnStateChange], [None] when there
    is none.  It has the whole object graph in its hands. *)
Variable onStateChange : option (t -> t).

(** [if (this.onStateChange) this.onStateChange();] *)
Definition notify (d : t) : t :=
  match onStateChange with
  | None => d
  | Some listener => listener d
  end.

(** The state [confirmWinner] has built when it sets the phase back to
    [READY]: winner recorded, removed from the pool, cursor advanced, pending
    winner cleared on both objects. *)
Definition confirmEffect (winner : Participant) (wm : WinnerManager.t) (d : t) : t :=
  let d1 := withWinnerManager wm d in
  let d2 := withSlotMachine
              (snd (SlotMachine.removeParticipant (p_id winner) (slotMachine d1))) d1 in
  let d3 := withPrizeManager (PrizeManager.advanceToNextPrize (prizeManager d2)) d2 in
  let d4 := withPendingWinner None d3 in
  withSlotMachine (SlotMachine.clearPendingWinner (slotMachine d4)) d4.

Definition confirmWinner (now : Z) (d : t) : completion :=
  match STATE_eqb (state d) STOPPED, pendingWinner d with
  | true, Some winner =>
      let currentPrize := PrizeManager.getCurrentPrize (prizeManager d) in
      match WinnerManager.addWinner winner currentPrize now (winnerManager d) with
      | None => Throws d
      | Some wm =>
          Returns (notify (updateUI (withState READY (confirmEffect winner wm d))))
      end
  | _, _ => Returns d
  end.

(** The state just before the listener is called by [undoLastDraw]. *)
Definition undoEffect (lastWinner : Winner) (wm : WinnerManager.t) (d : t) : t :=
  let d1 := withWinnerManager wm d in
  let d2 := withPrizeManager (PrizeManager.undoLastPrize (prizeManager d1)) d1 in
  withSlotMachine
    (snd (SlotMachine.addParticipant
            (mkParticipant (w_id lastWinner) (w_name lastWinner))
            (slotMachine d2)))
    d2.

Definition undoLastDraw (d : t) : option Winner * t :=
  match WinnerManager.removeLastWinner (winnerManager d) with
  | (None, _) => (None, d)
  | (Some lastWinner, wm) =>
      let d3 := notify (undoEffect lastWinner wm d) in
      (Some lastWinner, updateUI (withState READY d3))
  end.

(** The state just before the listener is called by [readdWinner]. *)
Definition readdEffect (winner : Winner) (wm : WinnerManager.t) (d : t) : t :=
  let d1 := withWinnerManager wm d in
  withSlotMachine
    (snd (SlotMachine.addParticipant
            (mkParticipant (w_id winner) (w_name winner))
            (slotMachine d1)))
    d1.

Definition readdWinner (participantId : string) (d : t) : option Winner * t :=
  match WinnerManager.removeWinnerById participantId (winnerManager d) with
  | (None, _) => (None, d)
  | (Some winner, wm) => (Some winner, notify (readdEffect winner wm d))
  end.

Definition reset (originalParticipants : list Participant) (d : t) : t :=
  let d1 := withPrizeManager (PrizeManager.reset (prizeManager d)) d in
  let d2 := withWinnerManager (WinnerManager.reset (winnerManager d1)) d1 in
  let d3 := withSlotMachine
              (SlotMachine.setParticipants originalParticipants (slotMachine d2)) d2 in
  let d4 := withSlotMachine (SlotMachine.reset (slotMachine d3)) d3 in
  let d5 := withState READY (withPendingWinner None d4) in
  notify (updateUI d5).

End Listener.

(** An animation frame of the browser. *)
Definition animationFrame (d : t) : t :=
  withSlotMachine (SlotMachine.animationFrame (slotMachine d)) d.

(** The last timer of a [finishSpin] fires: the slot machine updates
    itself and dispatches [spinComplete], whose listener, registered in the
    constructor, calls [onSpinComplete(e.detail.winner)].  (When
    [pendingWinner] is [null] and the winner-name element exists, the timer
    throws on [this.pendingWinner.name] before dispatching; the orchestrator
    is then left exactly as [onSpinComplete(null)] leaves it.) *)
Definition revealTimer (d : t) : t :=
  if SlotMachine.revealTimers (slotMachine d) =? 0 then d
  else
    let sm := SlotMachine.reveal (slotMachine d) in
    onSpinComplete (SlotMachine.pendingWinner sm) (withSlotMachine sm d).

End DrawManager.

(** ** app.js: manual prize selection and the state-change listener *)

Module LotteryApp.

Section App.

(** [this.originalPrizes] of the application object. *)
Variable originalPrizes : list Prize.

(** The callback of [queue.findIndex] in [selectPrize] counts, in the
    captured variable [count], the entries of the tier it has seen and
    answers true at the [target]-th of them. *)
Fixpoint findSlot (prizeId : Z) (target count : nat) (queue : list QueueEntry)
  : option nat :=
  match queue with
  | [] => None
  | p :: queue' =>
      if (id (tier p) =? prizeId)%Z
      then if S count =? target then Some 0
           else option_map S (findSlot prizeId target (S count) queue')
      else option_map S (findSlot prizeId target count queue')
  end.

Definition awardedCount (prizeId : Z) (d : DrawManager.t) : nat :=
  length (WinnerManager.getWinnersByPrize prizeId (DrawManager.winnerManager d)).

Definition selectPrize (prizeId : Z) (d : DrawManager.t) : DrawManager.t :=
  let queue := PrizeManager.prizeQueue (DrawManager.prizeManager d) in
  match find (fun p => (id p =? prizeId)%Z) originalPrizes with
  | None => d
  | Some prize =>
      let awarded := awardedCount prizeId d in
      if (quantity prize <=? Z.of_nat awarded)%Z then d
      else
        match findSlot prizeId (awarded + 1) 0 queue with
        | None => d
        | Some index =>
            DrawManager.updateUI
              (DrawManager.withPrizeManager
                 (PrizeManager.setCurrentIndex index (DrawManager.prizeManager d)) d)
        end
  end.

(** The test [prize && awarded < prize.quantity] on the current prize. *)
Definition currentPrizeHasRemaining (d : DrawManager.t) : bool :=
  match PrizeManager.getCurrentPrize (DrawManager.prizeManager d) with
  | None => false
  | Some currentPrize =>
      let awarded := awardedCount (id (tier currentPrize)) d in
      match find (fun p => (id p =? id (tier currentPrize))%Z) originalPrizes with
      | None => false
      | Some prize => (Z.of_nat awarded <? quantity prize)%Z
      end
  end.

Definition autoSelectNextAvailablePrize (d : DrawManager.t) : DrawManager.t :=
  if currentPrizeHasRemaining d then d
  else
    match find (fun prize => (Z.of_nat (awardedCount (id prize) d) <? quantity prize)%Z)
               (PrizeManager.sortByIdDesc originalPrizes) with
    | None => d
    | Some prize => selectPrize (id prize) d
    end.

(** The listener installed by [initComponents]: [saveState()] writes to
    storage, [setupPrizeSelector()] rebuilds the dropdown, and
    [autoSelectNextAvailablePrize()] may move the cursor. *)
Definition onStateChange (d : DrawManager.t) : DrawManager.t :=
  autoSelectNextAvailablePrize d.

(** [init()] with nothing in storage: the components, then
    [drawManager.updateUI()] and [autoSelectNextAvailablePrize()]. *)
Definition init (participants : list Participant) (actionButtons : bool)
  : DrawManager.t :=
  autoSelectNextAvailablePrize
    (DrawManager.updateUI
       (DrawManager.new (SlotMachine.new participants)
          (PrizeManager.new originalPrizes) WinnerManager.new actionButtons)).

End App.

End LotteryApp.

(** ** A session: the calls and browser events that drive the orchestrator *)

Module Session.

Inductive Op :=
| UpdateUI
| StartSpin
| StopSpin (winnerIndex : nat)
| AnimationFrame
| RevealTimer
| ConfirmWinner (now : Z)
| Respin
| UndoLastDraw
| ReaddWinner (participantId : string)
| Reset (originalParticipants : list Participant)
| SelectPrize (prizeId : Z).

Section Session.

(** The configured tiers and the registered listener. *)
Variable originalPrizes : list Prize.
Variable onStateChange : option (DrawManager.t -> DrawManager.t).

Definition exec (op : Op) (d : DrawManager.t) : DrawManager.completion :=
  match op with
  | UpdateUI => DrawManager.Returns (DrawManager.updateUI d)
  | StartSpin => DrawManager.Returns (DrawManager.startSpin d)
  | StopSpin winnerIndex => DrawManager.Returns (DrawManager.stopSpin winnerIndex d)
  | AnimationFrame => DrawManager.Returns (DrawManager.animationFrame d)
  | RevealTimer => DrawManager.Returns (DrawManager.revealTimer d)
  | ConfirmWinner now => DrawManager.confirmWinner onStateChange now d
  | Respin => DrawManager.Returns (DrawManager.respin d)
  | UndoLastDraw => DrawManager.Returns (snd (DrawManager.undoLastDraw onStateChange d))
  | ReaddWinner pid =>
      DrawManager.Returns (snd (DrawManager.readdWinner onStateChange pid d))
  | Reset ps => DrawManager.Returns (DrawManager.reset onStateChange ps d)
  | SelectPrize prizeId =>
      DrawManager.Returns (LotteryApp.selectPrize originalPrizes prizeId d)
  end.

(** An exception escaping an event handler ends that handler only. *)
Definition run (ops : list Op) (d : DrawManager.t) : DrawManager.t :=
  fold_left (fun d' op => DrawManager.after (exec op d')) ops d.

(** What the environment can supply: [Math.random()] is below 1, and the
    lists handed to [reset] obey the data model (ids unique). *)
Definition admissible (op : Op) (d : DrawManager.t) : Prop :=
  match op with
  | StopSpin winnerIndex =>
      winnerIndex
        < Nat.max 1 (length (SlotMachine.participants (DrawManager.slotMachine d)))
  | Reset ps => NoDup (map p_id ps)
  | _ => True
  end.

Inductive reachable (participants : list Participant) (actionButtons : bool)
  : DrawManager.t -> Prop :=
| reachable_new :
    reachable participants actionButtons
      (DrawManager.new (SlotMachine.new participants)
         (PrizeManager.new originalPrizes) WinnerManager.new actionButtons)
| reachable_step d op :
    reachable participants actionButtons d ->
    admissible op d ->
    reachable participants actionButtons (DrawManager.after (exec op d)).

End Session.

(** A listener is passive when it leaves the three collaborators alone
    (as one that only saves a snapshot does). *)
Definition passive (h : option (DrawManager.t -> DrawManager.t)) : Prop :=
  forall f, h = Some f -> forall d,
    DrawManager.slotMachine (f d) = DrawManager.slotMachine d
    /\ DrawManager.prizeManager (f d) = DrawManager.prizeManager d
    /\ DrawManager.winnerManager (f d) = DrawManager.winnerManager d.

(** A listener keeps the pool when it leaves the slot machine and the
    pending winner alone. *)
Definition keepsPool (h : option (DrawManager.t -> DrawManager.t)) : Prop :=
  forall f, h = Some f -> forall d,
    DrawManager.slotMachine (f d) = DrawManager.slotMachine d
    /\ DrawManager.pendingWinner (f d) = DrawManager.pendingWinner d.

(** *** Views of the state the properties speak about *)

Definition pool (d : DrawManager.t) : list Participant :=
  SlotMachine.participants (DrawManager.slotMachine d).

Definition ledger (d : DrawManager.t) : list Winner :=
  WinnerManager.winners (DrawManager.winnerManager d).

Definition cursor (d : DrawManager.t) : nat :=
  PrizeManager.currentIndex (DrawManager.prizeManager d).

Definition queue (d : DrawManager.t) : list QueueEntry :=
  PrizeManager.prizeQueue (DrawManager.prizeManager d).

(** Ids are unique in the pool, and a winner waiting for confirmation, in
    the slot machine or in the orchestrator, is a member of the pool. *)
Definition poolInvariant (d : DrawManager.t) : Prop :=
  NoDup (map p_id (pool d))
  /\ (forall w, SlotMachine.pendingWinner (DrawManager.slotMachine d) = Some w ->
                In w (pool d))
  /\ (forall w, DrawManager.pendingWinner d = Some w -> In w (pool d)).

(** Same ledger, same queue and cursor, same members of the pool. *)
Definition sameDraw (d1 d2 : DrawManager.t) : Prop :=
  ledger d1 = ledger d2
  /\ DrawManager.prizeManager d1 = DrawManager.prizeManager d2
  /\ Permutation (pool d1) (pool d2).

(** [draws h n d d']: from [d], [n] draws were committed and led to [d'].
    Each draw is a spin, some steps that leave ledger, queue, cursor and
    pool as they are and end in [STOPPED] with a pending winner from the
    pool, followed by a [confirmWinner] that returns. *)
Inductive draws (h : option (DrawManager.t -> DrawManager.t))
  : nat -> DrawManager.t -> DrawManager.t -> Prop :=
| draws_O d : draws h 0 d d
| draws_S n d d1 d2 d3 w now :
    draws h n d d1 ->
    ledger d2 = ledger d1 ->
    DrawManager.prizeManager d2 = DrawManager.prizeManager d1 ->
    pool d2 = pool d1 ->
    DrawManager.state d2 = STOPPED ->
    DrawManager.pendingWinner d2 = Some w ->
    In w (pool d2) ->
    DrawManager.confirmWinner h now d2 = DrawManager.Returns d3 ->
    draws h (S n) d d3.

(** [n] calls of [undoLastDraw] in a row. *)
Fixpoint undos (h : option (DrawManager.t -> DrawManager.t)) (n : nat)
    (d : DrawManager.t) : DrawManager.t :=
  match n with
  | O => d
  | S n' => undos h n' (snd (DrawManager.undoLastDraw h d))
  end.

(** Every operation of the run is one the environment can supply. *)
Fixpoint admissibleRun (originalPrizes : list Prize)
    (h : option (DrawManager.t -> DrawManager.t)) (ops : list Op)
    (d : DrawManager.t) : Prop :=
  match ops with
  | [] => True
  | op :: ops' =>
      admissible op d
      /\ admissibleRun originalPrizes h ops' (DrawManager.after (exec originalPrizes h op d))
  end.

(** No winner is waiting, neither in the slot machine nor in the
    orchestrator. *)
Definition nobodyPending (d : DrawManager.t) : Prop :=
  SlotMachine.pendingWinner (DrawManager.slotMachine d) = None
  /\ DrawManager.pendingWinner d = None.

Definition isStopSpin (op : Op) : bool :=
  match op with StopSpin _ => true | _ => false end.

(** The slot [e] of the queue has been awarded: the ledger holds a winner
    whose prize snapshot has its tier id and instance number. *)
Definition awarded (d : DrawManager.t) (e : QueueEntry) : bool :=
  existsb (fun w => (id (tier (prize w)) =? id (tier e))%Z
                    && (instance (prize w) =? instance e)%Z)
          (ledger d).

End Session.

(** ** Concrete configurations used by the examples *)

Module Examples.

Import Session.

Definition A := mkParticipant "A" "X".
Definition B := mkParticipant "B" "Y".
Definition C := mkParticipant "C" "Z".
Definition D := mkParticipant "D" "W".

Definition grand := mkPrize 1 "Grand Prize" "Giai Dac Biet" 1.
Definition first := mkPrize 2 "First Prize" "Giai Nhat" 2.

(** One full draw: spin, stop on the participant at [winnerIndex], the
    frame in which the slot machine notices the stop, the reveal, and the
    confirmation at time [now]. *)
Definition draw (winnerIndex : nat) (now : Z) : list Op :=
  [StartSpin; StopSpin winnerIndex; AnimationFrame; RevealTimer; ConfirmWinner now].

(** A tier with a Vietnamese name, [Giai Nhat] with its diacritics: nine
    characters, thirteen bytes in UTF-8. *)
Definition giaiNhat : string :=
  string_of_list_ascii
    (map Ascii.ascii_of_nat [71; 105; 225; 186; 163; 105; 32; 78; 104; 225; 186; 165; 116]).

Definition second := mkPrize 3 giaiNhat giaiNhat 3.

(** The orchestrator on its own, page elements present, no listener. *)
Definition fresh : DrawManager.t :=
  DrawManager.new (SlotMachine.new [A; B; C; D])
    (PrizeManager.new [grand; first]) WinnerManager.new true.

End Examples.

(** ** prizes.js and winners.js: state persistence *)

Module PrizeManagerState.

(** The object handed to [loadState]: [originalPrizes] is [None] when the
    field is missing or not an array, [currentIndex] is [None] when the field
    is not a number.  Numbers are integers here, on which [Math.floor] is the
    identity. *)
Record saved := mkSaved {
  saved_originalPrizes : option (list Prize);
  saved_currentIndex : option Z }.

Definition getState (pm : PrizeManager.t) : saved :=
  mkSaved (Some (PrizeManager.originalPrizes pm))
          (Some (Z.of_nat (PrizeManager.currentIndex pm))).

(** [Math.max(0, Math.min(Math.floor(currentIndex), length))] *)
Definition clampIndex (currentIndex : Z) (length : nat) : nat :=
  Z.to_nat (Z.max 0 (Z.min currentIndex (Z.of_nat length))).

Definition loadState (state : saved) (pm : PrizeManager.t) : PrizeManager.t :=
  let pm1 :=
    match saved_originalPrizes state with
    | Some prizes =>
        PrizeManager.mk prizes (PrizeManager.buildPrizeQueue prizes)
          (PrizeManager.currentIndex pm)
    | None => pm
    end in
  match saved_currentIndex state with
  | Some currentIndex =>
      PrizeManager.mk (PrizeManager.originalPrizes pm1) (PrizeManager.prizeQueue pm1)
        (clampIndex currentIndex (length (PrizeManager.prizeQueue pm1)))
  | None => pm1
  end.

(** What every manager made by the constructor and its methods satisfies:
    the queue is the expansion of the tiers, the cursor is not past its end. *)
Definition consistent (pm : PrizeManager.t) : Prop :=
  PrizeManager.prizeQueue pm = PrizeManager.buildPrizeQueue (PrizeManager.originalPrizes pm)
  /\ PrizeManager.currentIndex pm <= length (PrizeManager.prizeQueue pm).

End PrizeManagerState.

Module WinnerManagerState.

(** [{ winners: this.winners }]; on loading, a missing [winners] is [None]. *)
Record saved := mkSaved { saved_winners : option (list Winner) }.

Definition getState (wm : WinnerManager.t) : saved :=
  mkSaved (Some (WinnerManager.winners wm)).

Definition loadState (state : saved) (wm : WinnerManager.t) : WinnerManager.t :=
  match saved_winners state with
  | Some winners => WinnerManager.mk winners
  | None => wm
  end.

End WinnerManagerState.

(** ** admin.js: CSV lines *)

Module Csv.

(** Text is a list of characters. *)
Definition text := list Ascii.ascii.

Definition quote : Ascii.ascii := Ascii.ascii_of_nat 34.
Definition comma : Ascii.ascii := Ascii.ascii_of_nat 44.
Definition lineFeed : Ascii.ascii := Ascii.ascii_of_nat 10.
Definition carriageReturn : Ascii.ascii := Ascii.ascii_of_nat 13.

(** The loop of [parseCSVLine] from position [i] on: [line] is what is left
    to read, with [values], [current] and [inQuotes] as they stand.  On a
    doubled quote inside quotes the loop skips the second one ([i++]). *)
Fixpoint parseCSVLoop (line : text) (values : list text) (current : text)
    (inQuotes : bool) : list text :=
  match line with
  | [] => values ++ [current]
  | char :: rest =>
      if inQuotes then
        if Ascii.eqb char quote then
          match rest with
          | nextChar :: rest' =>
              if Ascii.eqb nextChar quote
              then parseCSVLoop rest' values (current ++ [quote]) true
              else parseCSVLoop rest values current false
          | [] => parseCSVLoop rest values current false
          end
        else parseCSVLoop rest values (current ++ [char]) true
      else if Ascii.eqb char quote then parseCSVLoop rest values current true
      else if Ascii.eqb char comma then parseCSVLoop rest (values ++ [current]) [] false
      else parseCSVLoop rest values (current ++ [char]) false
  end.

Definition parseCSVLine (line : text) : list text :=
  parseCSVLoop line [] [] false.

(** The [str.replace] of [escapeCSVField]: every double quote becomes two. *)
Fixpoint doubleQuotes (str : text) : text :=
  match str with
  | [] => []
  | c :: str' =>
      if Ascii.eqb c quote then quote :: quote :: doubleQuotes str'
      else c :: doubleQuotes str'
  end.

(** [str.includes(c)] *)
Definition includes (c : Ascii.ascii) (str : text) : bool :=
  existsb (Ascii.eqb c) str.

(** [escapeCSVField(field)]; [None] is a [null] or [undefined] field. *)
Definition escapeCSVField (field : option text) : text :=
  match field with
  | None => []
  | Some str =>
      if includes comma str || includes quote str
         || includes lineFeed str || includes carriageReturn str
      then quote :: doubleQuotes str ++ [quote]
      else str
  end.

(** [parts.join(sep)] *)
Fixpoint join (sep : text) (parts : list text) : text :=
  match parts with
  | [] => []
  | [part] => part
  | part :: parts' => part ++ sep ++ join sep parts'
  end.

(** One line of [generateCSV]: [columns.map(col => escapeCSVField(...)).join(',')]. *)
Definition csvLine (fields : list (option text)) : text :=
  join [comma] (map escapeCSVField fields).

End Csv.

(** ** slotmachine.js: the digits shown on the reels *)

Module Reels.

Definition reelCount : nat := 6.

(** [/\D/] matches what is not one of the characters 0 to 9. *)
Definition isDigit (c : Ascii.ascii) : bool :=
  (48 <=? Ascii.nat_of_ascii c) && (Ascii.nat_of_ascii c <=? 57).

(** [parseInt(d, 10)] on a single digit character. *)
Definition digitValue (c : Ascii.ascii) : nat := Ascii.nat_of_ascii c - 48.

(** [str.slice(-n)]: the last [n] characters, all of them when there are
    fewer. *)
Definition sliceLast {A : Type} (n : nat) (str : list A) : list A :=
  skipn (length str - n) str.

(** [str.padStart(n, '0')] *)
Definition padStart (n : nat) (str : list Ascii.ascii) : list Ascii.ascii :=
  repeat (Ascii.ascii_of_nat 48) (n - length str) ++ str.

Definition parseIdToDigits (id : string) : list nat :=
  let digits := sliceLast reelCount (filter isDigit (list_ascii_of_string id)) in
  map digitValue (padStart reelCount digits).

(** The number a list of decimal digits denotes. *)
Definition decimal (digits : list nat) : nat :=
  fold_left (fun acc d => 10 * acc + d) digits 0.

End Reels.

(** ** carousel.js *)

Module Carousel.

Record t := mk {
  participants : list Participant;
  isSpinning : bool;
  currentIndex : nat }.

Definition visibleCount : nat := 5.

Definition new (ps : list Participant) : t := mk ps false 0.

Definition setParticipants (ps : list Participant) (c : t) : t :=
  mk ps (isSpinning c) (if length ps <=? currentIndex c then 0 else currentIndex c).

(** The index computed by [updateCards] for the card at position [i]:
    [((currentIndex + offset) % len + len) % len], where [%] takes the sign
    of the dividend. *)
Definition cardIndex (i : nat) (c : t) : Z :=
  let len := Z.of_nat (length (participants c)) in
  let offset := (Z.of_nat i - Z.of_nat (visibleCount / 2))%Z in
  Z.rem (Z.rem (Z.of_nat (currentIndex c) + offset) len + len) len.

(** The participant [updateCards] writes on card [i]; nothing is written
    when there are no participants. *)
Definition cardParticipant (i : nat) (c : t) : option Participant :=
  if length (participants c) =? 0 then None
  else nth_error (participants c) (Z.to_nat (cardIndex i c)).

Definition removeParticipant (pid : string) (c : t) : bool * t :=
  match findIndex (fun p => eq_str (p_id p) pid) (participants c) with
  | None => (false, c)
  | Some index =>
      let ps := splice1 index (participants c) in
      (true,
       mk ps (isSpinning c)
          (if length ps =? 0 then 0
           else if length ps <=? currentIndex c then length ps - 1
           else currentIndex c))
  end.

Definition addParticipant (participant : Participant) (c : t) : bool * t :=
  if existsb (fun p => eq_str (p_id p) (p_id participant)) (participants c)
  then (false, c)
  else (true, mk (participants c ++ [participant]) (isSpinning c) (currentIndex c)).

Definition hasParticipants (c : t) : bool := 0 <? length (participants c).

End Carousel.

(** ** app.js: saving and restoring the state *)

Module AppState.

(** The application object: its two original lists and its components. *)
Record t := mk {
  originalParticipants : list Participant;
  originalPrizes : list Prize;
  drawManager : DrawManager.t }.

(** What [storage.load()] parsed; a field is [None] when it is missing.
    (The language field, applied by [i18n.setLang], is left out.) *)
Record snapshot := mkSnapshot {
  snap_participants : option (list Participant);
  snap_prizes : option PrizeManagerState.saved;
  snap_winners : option WinnerManagerState.saved;
  snap_originalParticipants : option (list Participant);
  snap_originalPrizes : option (list Prize) }.

(** The object [saveState()] hands to [storage.save]. *)
Definition saveState (app : t) : snapshot :=
  let d := drawManager app in
  mkSnapshot
    (Some (SlotMachine.getParticipants (DrawManager.slotMachine d)))
    (Some (PrizeManagerState.getState (DrawManager.prizeManager d)))
    (Some (WinnerManagerState.getState (DrawManager.winnerManager d)))
    (Some (originalParticipants app))
    (Some (originalPrizes app)).

(** [loadSavedState()], given what [storage.load()] returned. *)
Definition loadSavedState (stored : option snapshot) (app : t) : t :=
  match stored with
  | None => app
  | Some state =>
      let ps := match snap_originalParticipants state with
                | Some ps => ps
                | None => originalParticipants app
                end in
      let prizes := match snap_originalPrizes state with
                    | Some prizes => prizes
                    | None => originalPrizes app
                    end in
      let d := drawManager app in
      let d1 := match snap_prizes state with
                | Some saved =>
                    DrawManager.withPrizeManager
                      (PrizeManagerState.loadState saved (DrawManager.prizeManager d)) d
                | None => d
                end in
      let d2 := match snap_winners state with
                | Some saved =>
                    DrawManager.withWinnerManager
                      (WinnerManagerState.loadState saved (DrawManager.winnerManager d1)) d1
                | None => d1
                end in
      let d3 := match snap_participants state with
                | Some participants =>
                    DrawManager.withSlotMachine
                      (SlotMachine.setParticipants participants (DrawManager.slotMachine d2))
                      d2
                | None => d2
                end in
      mk ps prizes (LotteryApp.autoSelectNextAvailablePrize prizes d3)
  end.

(** The application right after [initComponents()]. *)
Definition initComponents (participants : list Participant) (prizes : list Prize)
    (actionButtons : bool) : t :=
  mk participants prizes
     (DrawManager.new (SlotMachine.new participants) (PrizeManager.new prizes)
        WinnerManager.new actionButtons).

End AppState.

(** ** Conditions on sessions and listeners used by the further properties *)

Module SessionSpec.

Import Session.

(** A listener that changes nothing (one that only saves a snapshot). *)
Definition observer (h : option (DrawManager.t -> DrawManager.t)) : Prop :=
  forall f, h = Some f -> forall d, f d = d.

(** A listener that leaves slot machine, ledger and pending winner alone. *)
Definition keepsBooks (h : option (DrawManager.t -> DrawManager.t)) : Prop :=
  forall f, h = Some f -> forall d,
    DrawManager.slotMachine (f d) = DrawManager.slotMachine d
    /\ DrawManager.winnerManager (f d) = DrawManager.winnerManager d
    /\ DrawManager.pendingWinner (f d) = DrawManager.pendingWinner d.

(** A listener that may move the cursor, inside the queue, and nothing
    else of the prize manager. *)
Definition keepsQueue (h : option (DrawManager.t -> DrawManager.t)) : Prop :=
  forall f, h = Some f -> forall d,
    PrizeManager.originalPrizes (DrawManager.prizeManager (f d))
    = PrizeManager.originalPrizes (DrawManager.prizeManager d)
    /\ queue (f d) = queue d
    /\ (cursor d <= length (queue d) -> cursor (f d) <= length (queue d)).

(** A listener that leaves the phase as it is or makes it [COMPLETE]. *)
Definition keepsPhase (h : option (DrawManager.t -> DrawManager.t)) : Prop :=
  forall f, h = Some f -> forall d,
    DrawManager.state (f d) = DrawManager.state d
    \/ DrawManager.state (f d) = COMPLETE.

(** Operations other than targeted removal and manual selection. *)
Definition plain (op : Op) : bool :=
  match op with
  | ReaddWinner _ | SelectPrize _ => false
  | _ => true
  end.

(** Every [reset] is given the list [participants]. *)
Definition resetsTo (participants : list Participant) (op : Op) : Prop :=
  match op with
  | Reset ps => ps = participants
  | _ => True
  end.

(** The participant a ledger entry stands for: its [id] and [name]. *)
Definition winnerParticipant (w : Winner) : Participant :=
  mkParticipant (w_id w) (w_name w).

(** The fresh orchestrator of a configuration. *)
Definition fresh (participants : list Participant) (prizes : list Prize)
    (actionButtons : bool) : DrawManager.t :=
  DrawManager.new (SlotMachine.new participants) (PrizeManager.new prizes)
    WinnerManager.new actionButtons.

(** The tier [p] has fewer winners than prizes. *)
Definition hasRemaining (d : DrawManager.t) (p : Prize) : bool :=
  (Z.of_nat (LotteryApp.awardedCount (id p) d) <? quantity p)%Z.

(** Everybody of [participants] is either in the pool or in the ledger,
    once. *)
Definition balanced (participants : list Participant) (d : DrawManager.t) : Prop :=
  Permutation (pool d ++ map winnerParticipant (ledger d)) participants.

(** A draw is under way: the phase is [SPINNING] or [STOPPED], or the slot
    machine holds a winner it has picked. *)
Definition drawing (d : DrawManager.t) : Prop :=
  DrawManager.state d = SPINNING
  \/ DrawManager.state d = STOPPED
  \/ SlotMachine.pendingWinner (DrawManager.slotMachine d) <> None.

(** The ledger holds the first slots of [slots], in order, the cursor is
    behind the last of them, and a draw is under way only while a slot is
    left. *)
Definition inOrder (slots : list QueueEntry) (d : DrawManager.t) : Prop :=
  queue d = slots
  /\ cursor d = length (ledger d)
  /\ map prize (ledger d) = firstn (cursor d) slots
  /\ (drawing d -> length (ledger d) < length slots).

(** Prizes were handed out in queue order: the queue is the expansion of
    [prizes], the ledger holds its first slots in order, and the cursor is
    behind the last of them. *)
Definition queueOrder (prizes : list Prize) (d : DrawManager.t) : Prop :=
  queue d = PrizeManager.buildPrizeQueue prizes
  /\ cursor d = length (ledger d)
  /\ map prize (ledger d) = firstn (cursor d) (queue d).

(** Whenever some tier of [prizes] has fewer winners than prizes, the
    cursor is on a slot of such a tier. *)
Definition onOpenTier (prizes : list Prize) (d : DrawManager.t) : Prop :=
  existsb (hasRemaining d) prizes = true ->
  LotteryApp.currentPrizeHasRemaining prizes d = true.

(** The ledger is not longer than the queue, and a draw is under way only
    while it is shorter. *)
Definition bounded (d : DrawManager.t) : Prop :=
  length (ledger d) <= length (queue d)
  /\ (drawing d -> length (ledger d) < length (queue d)).

(** Same ledger, same members of the pool. *)
Definition sameBooks (d1 d2 : DrawManager.t) : Prop :=
  ledger d1 = ledger d2 /\ Permutation (pool d1) (pool d2).

(** The slot machine has no spin under way and nothing armed in the browser. *)
Definition idle (sm : SlotMachine.t) : Prop :=
  SlotMachine.isSpinning sm = false
  /\ SlotMachine.frameCallbacks sm = []
  /\ SlotMachine.revealTimers sm = 0.

End SessionSpec.

(** * Properties *)

(** ** Arrays *)

Section ArrayFacts.

Context {A : Type}.

Lemma pop_app (l : list A) (x : A) : pop (l ++ [x]) = Some (l, x).
Proof.
  induction l as [|y l IH]; simpl.
  - reflexivity.
  - rewrite IH. reflexivity.
Qed.

Lemma pop_None (l : list A) : pop l = None <-> l = [].
Proof.
  destruct l as [|x l]; simpl.
  - tauto.
  - destruct (pop l) as [[front y]|]; split; discriminate.
Qed.

Lemma pop_Some (l front : list A) (x : A) :
  pop l = Some (front, x) -> l = front ++ [x].
Proof.
  revert front; induction l as [|y l IH]; simpl; intros front H.
  - discriminate.
  - destruct (pop l) as [[front' z]|] eqn:E.
    + inversion H; subst. simpl. f_equal. apply IH. reflexivity.
    + inversion H; subst. apply pop_None in E. subst. reflexivity.
Qed.

Lemma pop_last_exists (l : list A) :
  l <> [] -> exists front x, l = front ++ [x].
Proof.
  intros H. destruct (pop l) as [[front x]|] eqn:E.
  - exists front, x. now apply pop_Some.
  - apply pop_None in E. contradiction.
Qed.

Lemma findIndex_None (f : A -> bool) (l : list A) :
  findIndex f l = None <-> forall x, In x l -> f x = false.
Proof.
  induction l as [|y l IH]; simpl.
  - split; [intros _ x []|reflexivity].
  - destruct (f y) eqn:E.
    + split; [discriminate|]. intros H. rewrite (H y) in E; [discriminate|auto].
    + destruct (findIndex f l); simpl.
      * split; [discriminate|]. intros H.
        assert (Some n = None) as X; [|discriminate X].
        apply IH. intros x Hx. apply H. auto.
      * split; [|reflexivity]. intros _ x [->|Hx]; [assumption|].
        apply IH; auto.
Qed.

(** [findIndex] followed by [splice] takes out the first match. *)
Lemma findIndex_splice (f : A -> bool) (l : list A) (i : nat) :
  findIndex f l = Some i ->
  exists front x back,
    l = front ++ x :: back /\ f x = true
    /\ (forall y, In y front -> f y = false)
    /\ nth_error l i = Some x /\ splice1 i l = front ++ back.
Proof.
  revert i; induction l as [|y l IH]; simpl; intros i H.
  - discriminate.
  - destruct (f y) eqn:E.
    + inversion H; subst. exists [], y, l. simpl. intuition.
    + destruct (findIndex f l) as [j|]; simpl in H; [|discriminate].
      inversion H; subst.
      destruct (IH j eq_refl) as (front & x & back & -> & Hx & Hfront & Hn & Hs).
      exists (y :: front), x, back. simpl. rewrite Hs.
      repeat split; auto.
      intros z [->|Hz]; auto.
Qed.

End ArrayFacts.

(** ** The prize queue *)

Module PrizeQueueFacts.

Import PrizeManager.

Lemma insertDesc_perm a l : Permutation (insertDesc a l) (a :: l).
Proof.
  induction l as [|b l IH]; simpl.
  - reflexivity.
  - destruct (id b <=? id a)%Z.
    + reflexivity.
    + rewrite IH. apply perm_swap.
Qed.

Lemma sortByIdDesc_perm prizes : Permutation (sortByIdDesc prizes) prizes.
Proof.
  induction prizes as [|a l IH]; simpl.
  - reflexivity.
  - rewrite insertDesc_perm. now apply perm_skip.
Qed.

Lemma insertDesc_sorted a l :
  StronglySorted tiersDescending l -> StronglySorted tiersDescending (insertDesc a l).
Proof.
  induction 1 as [|b l Hl IH Hb]; simpl.
  - repeat constructor.
  - destruct (id b <=? id a)%Z eqn:E.
    + constructor; [constructor; assumption|].
      apply Z.leb_le in E. constructor; [exact E|].
      eapply Forall_impl; [|exact Hb]. unfold tiersDescending. intros; lia.
    + apply Z.leb_gt in E. constructor; [exact IH|].
      eapply Permutation_Forall; [symmetry; apply insertDesc_perm|].
      constructor; [unfold tiersDescending; lia|exact Hb].
Qed.

Lemma sortByIdDesc_sorted prizes : StronglySorted tiersDescending (sortByIdDesc prizes).
Proof.
  induction prizes as [|a l IH]; simpl.
  - constructor.
  - now apply insertDesc_sorted.
Qed.

(** The sort is stable: tiers with the same id keep their order. *)
Lemma insertDesc_stable k a l :
  StronglySorted tiersDescending l ->
  filter (fun p => (id p =? k)%Z) (insertDesc a l)
  = filter (fun p => (id p =? k)%Z) (a :: l).
Proof.
  induction 1 as [|b l Hl IH Hb]; simpl.
  - reflexivity.
  - destruct (id b <=? id a)%Z eqn:E; simpl.
    + reflexivity.
    + apply Z.leb_gt in E. simpl in IH. rewrite IH.
      destruct (id a =? k)%Z eqn:Ea, (id b =? k)%Z eqn:Eb; try reflexivity.
      apply Z.eqb_eq in Ea, Eb. lia.
Qed.

Lemma sortByIdDesc_stable k prizes :
  filter (fun p => (id p =? k)%Z) (sortByIdDesc prizes)
  = filter (fun p => (id p =? k)%Z) prizes.
Proof.
  induction prizes as [|a l IH].
  - reflexivity.
  - change (sortByIdDesc (a :: l)) with (insertDesc a (sortByIdDesc l)).
    rewrite insertDesc_stable by apply sortByIdDesc_sorted.
    simpl. rewrite IH. reflexivity.
Qed.

Lemma pushInstances_app p n i queue :
  pushInstances p n i queue
  = queue ++ map (fun k => mkEntry p (i + Z.of_nat k)%Z) (seq 1 n).
Proof.
  revert i queue; induction n as [|n IH]; intros i queue.
  - simpl. now rewrite app_nil_r.
  - cbn [pushInstances]. rewrite IH, <- app_assoc. f_equal.
    cbn [seq map app].
    replace (i + Z.of_nat 1)%Z with (i + 1)%Z by lia. f_equal.
    rewrite <- (seq_shift n 1), map_map. apply map_ext. intros k. f_equal. lia.
Qed.

Lemma pushInstances_instances p queue :
  pushInstances p (Z.to_nat (quantity p)) 0%Z queue = queue ++ instances p.
Proof. apply pushInstances_app. Qed.

Lemma buildPrizeQueue_flat_map prizes :
  buildPrizeQueue prizes = flat_map instances (sortByIdDesc prizes).
Proof.
  unfold buildPrizeQueue.
  assert (forall l acc,
    fold_left (fun queue p => pushInstances p (Z.to_nat (quantity p)) 0%Z queue) l acc
    = acc ++ flat_map instances l) as H.
  { induction l as [|p l IH]; intros acc; simpl.
    - now rewrite app_nil_r.
    - rewrite IH, pushInstances_instances, app_assoc. reflexivity. }
  apply H.
Qed.

Lemma length_instances p : length (instances p) = Z.to_nat (quantity p).
Proof. unfold instances. now rewrite length_map, length_seq. Qed.

Lemma length_flat_map_instances l :
  Forall (fun p => (0 <= quantity p)%Z) l ->
  Z.of_nat (length (flat_map instances l)) = sumQuantity l.
Proof.
  induction 1 as [|p l Hp Hl IH]; simpl.
  - reflexivity.
  - rewrite length_app, length_instances, Nat2Z.inj_add, IH. lia.
Qed.

Lemma sumQuantity_perm l l' : Permutation l l' -> sumQuantity l = sumQuantity l'.
Proof. induction 1; simpl; lia. Qed.

Lemma totalQuantity_perm l l' : Permutation l l' -> totalQuantity l = totalQuantity l'.
Proof. induction 1; simpl; lia. Qed.

Lemma length_buildPrizeQueue prizes :
  length (buildPrizeQueue prizes) = totalQuantity prizes.
Proof.
  rewrite buildPrizeQueue_flat_map.
  rewrite <- (totalQuantity_perm _ _ (sortByIdDesc_perm prizes)).
  induction (sortByIdDesc prizes) as [|p l IH]; simpl.
  - reflexivity.
  - now rewrite length_app, length_instances, IH.
Qed.

Lemma totalQuantity_sumQuantity prizes :
  Forall (fun p => (0 <= quantity p)%Z) prizes ->
  Z.of_nat (totalQuantity prizes) = sumQuantity prizes.
Proof.
  induction 1 as [|p l Hp Hl IH]; simpl.
  - reflexivity.
  - rewrite Nat2Z.inj_add, IH. lia.
Qed.

Lemma instances_tier p e : In e (instances p) -> tier e = p.
Proof.
  unfold instances. rewrite in_map_iff. intros (k & <- & _). reflexivity.
Qed.

Lemma flat_map_instances_sorted l :
  StronglySorted tiersDescending l ->
  StronglySorted idsDescending (flat_map instances l).
Proof.
  induction 1 as [|p l Hl IH Hp]; simpl.
  - constructor.
  - assert (Forall (fun e => (id (tier e) <= id p)%Z) (flat_map instances l)) as Hrest.
    { rewrite Forall_forall in *. intros e He.
      apply in_flat_map in He. destruct He as (q & Hq & He).
      apply instances_tier in He. rewrite He. apply Hp, Hq. }
    assert (forall es, Forall (fun e => tier e = p) es ->
              StronglySorted idsDescending (es ++ flat_map instances l)) as Happ.
    { induction 1 as [|e es He Hes IHes]; simpl; [exact IH|].
      constructor; [exact IHes|].
      apply Forall_app. split.
      - eapply Forall_impl; [|exact Hes]. unfold idsDescending.
        intros e' ->. rewrite He. lia.
      - eapply Forall_impl; [|exact Hrest]. unfold idsDescending.
        rewrite He. auto. }
    apply Happ. rewrite Forall_forall. intros e. apply instances_tier.
Qed.

(** C5.  For a list of tiers (quantities not negative), the queue built has
    as many entries as the quantities add up to, the tier ids never
    increase along the queue, and the queue is the tiers in some order, each
    expanded into its instances 1, 2, ..., quantity. *)
Theorem buildPrizeQueue_spec (prizes : list Prize)
    (Hquantity : Forall (fun p => (0 <= quantity p)%Z) prizes) :
  Z.of_nat (length (buildPrizeQueue prizes)) = sumQuantity prizes
  /\ StronglySorted idsDescending (buildPrizeQueue prizes)
  /\ exists sorted,
       Permutation sorted prizes
       /\ StronglySorted tiersDescending sorted
       /\ buildPrizeQueue prizes = flat_map instances sorted.
Proof.
  rewrite buildPrizeQueue_flat_map. split; [|split].
  - rewrite length_flat_map_instances.
    + apply sumQuantity_perm, sortByIdDesc_perm.
    + eapply Permutation_Forall; [symmetry; apply sortByIdDesc_perm|assumption].
  - apply flat_map_instances_sorted, sortByIdDesc_sorted.
  - exists (sortByIdDesc prizes).
    split; [apply sortByIdDesc_perm|split; [apply sortByIdDesc_sorted|reflexivity]].
Qed.

End PrizeQueueFacts.

Module PrizeValidationFacts.

Import PrizeManager.

Lemma validPrize_sound p : AdminPanel.validPrize p = true -> ~ AdminPanel.invalidTier p.
Proof.
  unfold AdminPanel.validPrize, AdminPanel.invalidTier. intros H.
  repeat (apply andb_prop in H; destruct H as [H ?]).
  repeat match goal with
         | X : (_ <? _)%Z = true |- _ => apply Z.ltb_lt in X
         | X : (_ <=? _)%Z = true |- _ => apply Z.leb_le in X
         end.
  lia.
Qed.

Lemma importPrizes_valid data accepted :
  AdminPanel.importPrizes data = Some accepted ->
  accepted = data /\ Forall (fun p => ~ AdminPanel.invalidTier p) data.
Proof.
  unfold AdminPanel.importPrizes. intros H.
  destruct (length data =? 0); [discriminate|].
  destruct (AdminPanel.MAX_ITEMS <? length data); [discriminate|].
  destruct (forallb AdminPanel.validPrize data) eqn:E; [|discriminate].
  inversion H; subst. split; [reflexivity|].
  rewrite forallb_forall in E. rewrite Forall_forall.
  intros p Hp. apply validPrize_sound, E, Hp.
Qed.

(** C6, as the code has it.  A list holding a tier with quantity below 1 or
    above 1000, or with id at most 0, is refused by the CSV import of
    admin.js, which is where the validation lives; [buildPrizeQueue] itself
    checks nothing and expands whatever list it is given. *)
Theorem invalid_tiers_refused_by_import_not_by_build (prizes : list Prize)
    (Hinvalid : Exists AdminPanel.invalidTier prizes) :
  AdminPanel.importPrizes prizes = None
  /\ buildPrizeQueue prizes = flat_map instances (sortByIdDesc prizes)
  /\ PrizeManager.new prizes = PrizeManager.mk prizes (buildPrizeQueue prizes) 0.
Proof.
  split; [|split].
  - destruct (AdminPanel.importPrizes prizes) as [accepted|] eqn:E; [|reflexivity].
    apply importPrizes_valid in E. destruct E as [_ Hvalid].
    apply Exists_exists in Hinvalid. destruct Hinvalid as (p & Hp & Hbad).
    rewrite Forall_forall in Hvalid. destruct (Hvalid p Hp Hbad).
  - apply PrizeQueueFacts.buildPrizeQueue_flat_map.
  - reflexivity.
Qed.

End PrizeValidationFacts.

(** ** The pool *)

Module PoolFacts.

Import SlotMachine.

Lemma existsb_id (pid : string) (l : list Participant) :
  existsb (fun p => eq_str (p_id p) pid) l = true <-> In pid (map p_id l).
Proof.
  rewrite existsb_exists, in_map_iff. split.
  - intros (p & Hp & E). apply String.eqb_eq in E. eauto.
  - intros (p & E & Hp). exists p. split; [assumption|]. now apply String.eqb_eq.
Qed.

Lemma addParticipant_present participant sm :
  In (p_id participant) (map p_id (participants sm)) ->
  addParticipant participant sm = (false, sm).
Proof.
  intros H. unfold addParticipant. apply existsb_id in H. now rewrite H.
Qed.

Lemma addParticipant_absent participant sm :
  ~ In (p_id participant) (map p_id (participants sm)) ->
  addParticipant participant sm
  = (true, setParticipants (participants sm ++ [participant]) sm).
Proof.
  intros H. unfold addParticipant.
  destruct (existsb _ _) eqn:E; [|reflexivity].
  apply existsb_id in E. contradiction.
Qed.

Lemma addParticipant_NoDup participant sm :
  NoDup (map p_id (participants sm)) ->
  NoDup (map p_id (participants (snd (addParticipant participant sm)))).
Proof.
  intros H. unfold addParticipant.
  destruct (existsb _ _) eqn:E; simpl; [assumption|].
  rewrite map_app. simpl.
  eapply Permutation_NoDup; [apply Permutation_cons_append|].
  constructor; [|assumption].
  intros Hin. apply existsb_id in Hin. congruence.
Qed.

Lemma addParticipant_incl participant sm p :
  In p (participants sm) -> In p (participants (snd (addParticipant participant sm))).
Proof.
  unfold addParticipant. destruct (existsb _ _); simpl; [auto|].
  intros H. apply in_or_app. auto.
Qed.

Lemma addParticipant_others participant sm :
  let sm' := snd (addParticipant participant sm) in
  isSpinning sm' = isSpinning sm /\ stopRequested sm' = stopRequested sm
  /\ pendingWinner sm' = pendingWinner sm /\ currentWinner sm' = currentWinner sm
  /\ animationId sm' = animationId sm /\ frameCallbacks sm' = frameCallbacks sm
  /\ nextHandle sm' = nextHandle sm /\ revealTimers sm' = revealTimers sm.
Proof. unfold addParticipant. destruct (existsb _ _); simpl; intuition. Qed.

Lemma removeParticipant_NoDup pid sm :
  NoDup (map p_id (participants sm)) ->
  NoDup (map p_id (participants (snd (removeParticipant pid sm)))).
Proof.
  intros H. unfold removeParticipant.
  destruct (findIndex _ _) as [i|] eqn:E; simpl; [|assumption].
  apply findIndex_splice in E.
  destruct E as (front & x & back & Hl & _ & _ & _ & ->).
  rewrite Hl, map_app in H. simpl in H. apply NoDup_remove_1 in H.
  now rewrite map_app.
Qed.

Lemma removeParticipant_pending pid sm :
  pendingWinner (snd (removeParticipant pid sm)) = pendingWinner sm.
Proof. unfold removeParticipant. destruct (findIndex _ _); reflexivity. Qed.

(** With unique ids, removing a member by id takes out that member. *)
Lemma removeParticipant_member w sm :
  NoDup (map p_id (participants sm)) ->
  In w (participants sm) ->
  Permutation (w :: participants (snd (removeParticipant (p_id w) sm))) (participants sm)
  /\ ~ In (p_id w) (map p_id (participants (snd (removeParticipant (p_id w) sm)))).
Proof.
  intros Hnd Hin. unfold removeParticipant.
  destruct (findIndex _ _) as [i|] eqn:E.
  - apply findIndex_splice in E.
    destruct E as (front & x & back & Hl & Hx & _ & _ & Hs).
    simpl. rewrite Hs. apply String.eqb_eq in Hx.
    rewrite Hl, map_app in Hnd. simpl in Hnd.
    pose proof (NoDup_remove_2 _ _ _ Hnd) as Hnot. rewrite <- map_app in Hnot.
    assert (x = w) as ->.
    { rewrite Hl in Hin. apply in_app_or in Hin.
      destruct Hin as [Hin|[Hin|Hin]]; [|assumption|].
      - exfalso. apply Hnot. rewrite Hx. apply in_map_iff. exists w.
        split; [reflexivity|]. apply in_or_app. auto.
      - exfalso. apply Hnot. rewrite Hx. apply in_map_iff. exists w.
        split; [reflexivity|]. apply in_or_app. auto. }
    split.
    + rewrite Hl. apply Permutation_middle.
    + exact Hnot.
  - exfalso. rewrite findIndex_None in E. specialize (E w Hin).
    simpl in E. unfold eq_str in E. now rewrite String.eqb_refl in E.
Qed.

Lemma checkStop_pool sm :
  participants (checkStop sm) = participants sm
  /\ pendingWinner (checkStop sm) = pendingWinner sm.
Proof.
  unfold checkStop, finishSpin, requestCheckStop.
  destruct (stopRequested sm); [destruct (pendingWinner sm) eqn:E|]; simpl; auto.
Qed.

Lemma animationFrame_pool sm :
  participants (animationFrame sm) = participants sm
  /\ pendingWinner (animationFrame sm) = pendingWinner sm.
Proof.
  unfold animationFrame.
  set (start := mk _ _ _ _ _ _ _ _ _).
  change (participants sm) with (participants start).
  change (pendingWinner sm) with (pendingWinner start).
  generalize start. clear start.
  induction (frameCallbacks sm) as [|h l IH]; intros start; simpl; [auto|].
  destruct (IH (checkStop start)) as [-> ->]. apply checkStop_pool.
Qed.

End PoolFacts.

(** ** The orchestrator: what each method leaves alone *)

Module DrawFacts.

Import DrawManager.

Ltac frame :=
  unfold updateUI, updateButtons, withState, withPendingWinner, withSlotMachine,
    withPrizeManager, withWinnerManager;
  repeat match goal with
         | |- context [if ?b then _ else _] => destruct b
         end;
  simpl; auto.

Lemma updateButtons_frame d :
  slotMachine (updateButtons d) = slotMachine d
  /\ prizeManager (updateButtons d) = prizeManager d
  /\ winnerManager (updateButtons d) = winnerManager d
  /\ pendingWinner (updateButtons d) = pendingWinner d
  /\ actionButtons (updateButtons d) = actionButtons d.
Proof. frame. Qed.

Lemma updateButtons_state d :
  state (updateButtons d) = state d \/ state (updateButtons d) = COMPLETE.
Proof. frame. Qed.

Lemma STATE_eqb_eq a b : STATE_eqb a b = true <-> a = b.
Proof. destruct a, b; simpl; split; congruence. Qed.

End DrawFacts.

(** ** The pool invariant over a session *)

Module PoolInvariant.

Import DrawManager Session.

Section Invariant.

Variable originalPrizes : list Prize.
Variable onStateChange : option (DrawManager.t -> DrawManager.t).
Hypothesis listener_keeps_pool : keepsPool onStateChange.

Lemma notify_pool d :
  slotMachine (notify onStateChange d) = slotMachine d
  /\ pendingWinner (notify onStateChange d) = pendingWinner d.
Proof.
  unfold notify. destruct onStateChange as [f|] eqn:E; [|auto].
  apply (listener_keeps_pool f eq_refl).
Qed.

(** The invariant looks at the slot machine and the pending winner only. *)
Lemma poolInvariant_ext d d' :
  slotMachine d' = slotMachine d -> pendingWinner d' = pendingWinner d ->
  poolInvariant d -> poolInvariant d'.
Proof.
  unfold poolInvariant, pool. intros -> ->. auto.
Qed.

Lemma updateButtons_inv d : poolInvariant d -> poolInvariant (updateButtons d).
Proof.
  apply poolInvariant_ext; apply DrawFacts.updateButtons_frame.
Qed.

Lemma notify_inv d : poolInvariant d -> poolInvariant (notify onStateChange d).
Proof. apply poolInvariant_ext; apply notify_pool. Qed.

Lemma startSpin_inv d : poolInvariant d -> poolInvariant (startSpin d).
Proof.
  unfold poolInvariant, pool. intros (Hnd & Hsm & Hdm). unfold startSpin.
  destruct (negb (STATE_eqb (state d) READY)); [exact (conj Hnd (conj Hsm Hdm))|].
  destruct (isComplete d); [exact (conj Hnd (conj Hsm Hdm))|].
  destruct (negb (SlotMachine.hasParticipants (slotMachine d)));
    [exact (conj Hnd (conj Hsm Hdm))|].
  unfold SlotMachine.startSpin.
  destruct (SlotMachine.isSpinning (slotMachine d) || _).
  - destruct d; repeat split; assumption.
  - apply updateButtons_inv. unfold poolInvariant, pool. destruct d; repeat split; simpl; auto.
    discriminate.
Qed.

Lemma stopSpin_inv r d : poolInvariant d -> poolInvariant (stopSpin r d).
Proof.
  unfold poolInvariant, pool. intros (Hnd & Hsm & Hdm). unfold stopSpin.
  destruct (negb (STATE_eqb (state d) SPINNING)); [exact (conj Hnd (conj Hsm Hdm))|].
  unfold SlotMachine.stop.
  destruct (negb (SlotMachine.isSpinning (slotMachine d)) || _).
  - destruct d; repeat split; assumption.
  - destruct d; repeat split; simpl; auto.
    intros w Hw. eapply nth_error_In, Hw.
Qed.

Lemma animationFrame_inv d : poolInvariant d -> poolInvariant (animationFrame d).
Proof.
  unfold poolInvariant, pool. intros (Hnd & Hsm & Hdm).
  destruct (PoolFacts.animationFrame_pool (slotMachine d)) as [Hp Hw].
  unfold animationFrame. simpl. rewrite Hp, Hw. auto.
Qed.

Lemma revealTimer_inv d : poolInvariant d -> poolInvariant (revealTimer d).
Proof.
  unfold poolInvariant, pool. intros (Hnd & Hsm & Hdm). unfold revealTimer.
  destruct (SlotMachine.revealTimers (slotMachine d) =? 0);
    [exact (conj Hnd (conj Hsm Hdm))|].
  simpl. unfold onSpinComplete.
  destruct (SlotMachine.pendingWinner (slotMachine d)) as [w|] eqn:E.
  - apply updateButtons_inv. unfold poolInvariant, pool. destruct d; repeat split; simpl in *; auto.
    all: intros w' Hw'; apply Hsm; congruence.
  - destruct d; repeat split; simpl in *; auto.
    intros w' Hw'. congruence.
Qed.

Lemma confirmWinner_inv now d :
  poolInvariant d -> poolInvariant (after (confirmWinner onStateChange now d)).
Proof.
  intros H. unfold confirmWinner.
  destruct (STATE_eqb (state d) STOPPED); [|exact H].
  destruct (pendingWinner d) as [w|]; [|exact H].
  destruct (WinnerManager.addWinner _ _ _ _); [|exact H].
  simpl. apply notify_inv, updateButtons_inv.
  destruct H as (Hnd & _ & _). unfold poolInvariant, pool.
  repeat split; simpl; try discriminate.
  apply PoolFacts.removeParticipant_NoDup, Hnd.
Qed.

Lemma respin_inv d : poolInvariant d -> poolInvariant (respin d).
Proof.
  unfold poolInvariant, pool. intros (Hnd & Hsm & Hdm). unfold respin.
  destruct (negb (STATE_eqb (state d) STOPPED)); [exact (conj Hnd (conj Hsm Hdm))|].
  apply updateButtons_inv. unfold poolInvariant, pool, SlotMachine.reset.
  destruct (SlotMachine.animationId _ =? 0);
    repeat split; simpl; try discriminate; exact Hnd.
Qed.

Lemma addBack_inv (w : Winner) d d' :
  slotMachine d'
  = snd (SlotMachine.addParticipant (mkParticipant (w_id w) (w_name w)) (slotMachine d)) ->
  pendingWinner d' = pendingWinner d ->
  poolInvariant d -> poolInvariant d'.
Proof.
  intros Hsm' Hpw' (Hnd & Hsm & Hdm).
  destruct (PoolFacts.addParticipant_others
              (mkParticipant (w_id w) (w_name w)) (slotMachine d))
    as (_ & _ & Hpending & _).
  unfold poolInvariant, pool. rewrite Hsm', Hpw', Hpending.
  repeat split.
  - now apply PoolFacts.addParticipant_NoDup.
  - intros p Hp. apply PoolFacts.addParticipant_incl. auto.
  - intros p Hp. apply PoolFacts.addParticipant_incl. auto.
Qed.

Lemma undoLastDraw_inv d :
  poolInvariant d -> poolInvariant (snd (undoLastDraw onStateChange d)).
Proof.
  intros H. unfold undoLastDraw.
  destruct (WinnerManager.removeLastWinner (winnerManager d)) as [[w|] wm];
    [|exact H].
  simpl. apply updateButtons_inv.
  eapply poolInvariant_ext; [| |apply notify_inv]; [reflexivity|reflexivity|].
  eapply addBack_inv; [| |exact H]; reflexivity.
Qed.

Lemma readdWinner_inv pid d :
  poolInvariant d -> poolInvariant (snd (readdWinner onStateChange pid d)).
Proof.
  intros H. unfold readdWinner.
  destruct (WinnerManager.removeWinnerById pid (winnerManager d)) as [[w|] wm];
    [|exact H].
  simpl. apply notify_inv.
  eapply addBack_inv; [| |exact H]; reflexivity.
Qed.

Lemma reset_inv ps d :
  NoDup (map p_id ps) -> poolInvariant (reset onStateChange ps d).
Proof.
  intros H. unfold reset. apply notify_inv, updateButtons_inv.
  unfold poolInvariant, pool, SlotMachine.reset. simpl.
  destruct (SlotMachine.animationId _ =? 0);
    repeat split; simpl; try discriminate; exact H.
Qed.

Lemma selectPrize_inv prizeId d :
  poolInvariant d -> poolInvariant (LotteryApp.selectPrize originalPrizes prizeId d).
Proof.
  intros H. unfold LotteryApp.selectPrize.
  destruct (find _ originalPrizes); [|exact H].
  destruct (_ <=? _)%Z; [exact H|].
  destruct (LotteryApp.findSlot _ _ _ _); [|exact H].
  apply updateButtons_inv. revert H. apply poolInvariant_ext; reflexivity.
Qed.

Lemma exec_inv op d :
  admissible op d -> poolInvariant d ->
  poolInvariant (after (exec originalPrizes onStateChange op d)).
Proof.
  intros Hadm H. destruct op; simpl.
  - now apply updateButtons_inv.
  - now apply startSpin_inv.
  - now apply stopSpin_inv.
  - now apply animationFrame_inv.
  - now apply revealTimer_inv.
  - now apply confirmWinner_inv.
  - now apply respin_inv.
  - now apply undoLastDraw_inv.
  - now apply readdWinner_inv.
  - now apply reset_inv.
  - now apply selectPrize_inv.
Qed.

Lemma reachable_inv participants actionButtons d :
  NoDup (map p_id participants) ->
  reachable originalPrizes onStateChange participants actionButtons d ->
  poolInvariant d.
Proof.
  intros Hnd. induction 1 as [|d op Hd IH Hadm].
  - unfold poolInvariant, pool. repeat split; simpl; try discriminate. exact Hnd.
  - now apply exec_inv.
Qed.

End Invariant.

End PoolInvariant.

(** ** Claims about the prize queue and its validation *)

Module PrizeQueueClaims.

Import PrizeManager Examples.

(** The scenario of the specification: tiers 1 (one prize) and 2 (two
    prizes) give the queue tier2#1, tier2#2, tier1#1, cursor at 0. *)
Example buildPrizeQueue_scenario :
  PrizeManager.new [grand; first]
  = PrizeManager.mk [grand; first]
      [mkEntry first 1; mkEntry first 2; mkEntry grand 1] 0.
Proof. reflexivity. Qed.

Lemma buildPrizeQueue_spec_witness :
  Forall (fun p => (0 <= quantity p)%Z) [grand; first]
  /\ Z.of_nat (length (buildPrizeQueue [grand; first])) = sumQuantity [grand; first]
  /\ StronglySorted idsDescending (buildPrizeQueue [grand; first])
  /\ exists sorted,
       Permutation sorted [grand; first]
       /\ StronglySorted tiersDescending sorted
       /\ buildPrizeQueue [grand; first] = flat_map instances sorted.
Proof.
  assert (Forall (fun p => (0 <= quantity p)%Z) [grand; first]) as H.
  { repeat constructor; simpl; lia. }
  split; [exact H|].
  exact (PrizeQueueFacts.buildPrizeQueue_spec [grand; first] H).
Defined.

(** C6, as stated, fails: a list with a tier of id 0 and quantity 0 and a
    tier of negative id is expanded without any error. *)
Lemma buildPrizeQueue_accepts_invalid_tiers :
  let zero := mkPrize 0 "none" "" 0 in
  let negative := mkPrize (-1) "negative" "" 2 in
  Exists AdminPanel.invalidTier [zero; negative]
  /\ buildPrizeQueue [zero; negative] = [mkEntry negative 1; mkEntry negative 2]
  /\ length (buildPrizeQueue [mkPrize 7 "many" "" 1001]) = 1001.
Proof.
  split; [|split].
  - constructor. unfold AdminPanel.invalidTier. simpl. lia.
  - reflexivity.
  - vm_compute. reflexivity.
Qed.

Lemma invalid_tiers_refused_by_import_not_by_build_witness :
  let negative := mkPrize (-1) "negative" "" 2 in
  AdminPanel.importPrizes [grand; negative] = None
  /\ buildPrizeQueue [grand; negative] = flat_map instances (sortByIdDesc [grand; negative])
  /\ PrizeManager.new [grand; negative]
     = PrizeManager.mk [grand; negative] (buildPrizeQueue [grand; negative]) 0.
Proof.
  apply (PrizeValidationFacts.invalid_tiers_refused_by_import_not_by_build
           [grand; mkPrize (-1) "negative" "" 2]).
  apply Exists_cons_tl. constructor. unfold AdminPanel.invalidTier. simpl. lia.
Defined.

End PrizeQueueClaims.

(** ** Claims about the pool *)

Module PoolClaims.

Import DrawManager Session Examples.

(** C9.  Adding a participant whose id is in the pool returns false and
    leaves the slot machine as it is; and so, starting from a list of
    participants with unique ids, no state the session can reach has two
    pool entries with the same id. *)
Theorem addParticipant_guard_keeps_ids_unique
    (originalPrizes : list Prize)
    (onStateChange : option (DrawManager.t -> DrawManager.t))
    (participants : list Participant) (actionButtons : bool) (d : DrawManager.t)
    (Hlistener : keepsPool onStateChange)
    (Hconfig : NoDup (map p_id participants))
    (Hreach : reachable originalPrizes onStateChange participants actionButtons d) :
  (forall sm participant,
      In (p_id participant) (map p_id (SlotMachine.participants sm)) ->
      SlotMachine.addParticipant participant sm = (false, sm))
  /\ NoDup (map p_id (pool d)).
Proof.
  split.
  - intros sm participant. apply PoolFacts.addParticipant_present.
  - eapply PoolInvariant.reachable_inv; eassumption.
Qed.

Lemma addParticipant_guard_keeps_ids_unique_witness :
  let d := after (exec [grand; first] None UndoLastDraw
                    (run [grand; first] None (draw 1 100) fresh)) in
  pool d = [A; C; D; B]
  /\ SlotMachine.addParticipant B (slotMachine d) = (false, slotMachine d)
  /\ NoDup (map p_id (pool d)).
Proof.
  assert (keepsPool None) as Hlistener by (intros f Hf; discriminate Hf).
  assert (NoDup (map p_id [A; B; C; D])) as Hconfig.
  { repeat constructor; simpl; intuition discriminate. }
  assert (reachable [grand; first] None [A; B; C; D] true
            (after (exec [grand; first] None UndoLastDraw
                      (run [grand; first] None (draw 1 100) fresh)))) as Hreach.
  { apply reachable_step; [|exact I].
    unfold draw, run, fold_left.
    repeat (apply reachable_step; [|simpl; try exact I; lia]).
    apply reachable_new. }
  destruct (addParticipant_guard_keeps_ids_unique
              [grand; first] None [A; B; C; D] true _ Hlistener Hconfig Hreach)
    as [Hguard Hunique].
  split; [reflexivity|]. split; [|exact Hunique].
  apply Hguard. simpl. tauto.
Defined.

End PoolClaims.

(** ** The orchestrator's frame lemmas used by the claims *)

Module OrchestratorFacts.

Import DrawManager Session.

Lemma updateUI_views d :
  ledger (updateUI d) = ledger d
  /\ prizeManager (updateUI d) = prizeManager d
  /\ pool (updateUI d) = pool d
  /\ pendingWinner (updateUI d) = pendingWinner d.
Proof.
  unfold ledger, pool, updateUI.
  destruct (DrawFacts.updateButtons_frame d) as (-> & -> & -> & -> & _). auto.
Qed.

Lemma moveCursor_isComplete i d :
  isComplete (withPrizeManager (PrizeManager.setCurrentIndex i (prizeManager d)) d)
  = isComplete d.
Proof. reflexivity. Qed.

Lemma moveCursor_updateButtons i d :
  updateButtons (withPrizeManager (PrizeManager.setCurrentIndex i (prizeManager d)) d)
  = withPrizeManager
      (PrizeManager.setCurrentIndex i (prizeManager (updateButtons d)))
      (updateButtons d).
Proof.
  unfold updateButtons. rewrite moveCursor_isComplete. simpl.
  destruct (negb (actionButtons d)); [reflexivity|].
  destruct (isComplete d || _); reflexivity.
Qed.

Lemma startSpin_refused d : startSpinGuard d = false -> startSpin d = d.
Proof.
  unfold startSpinGuard, startSpin.
  destruct (STATE_eqb (state d) READY); simpl; [|reflexivity].
  destruct (isComplete d); simpl; [reflexivity|].
  destruct (SlotMachine.hasParticipants (slotMachine d)); simpl;
    [discriminate|reflexivity].
Qed.

Lemma startSpin_allowed d :
  startSpinGuard d = true ->
  startSpin d
  = if SlotMachine.isSpinning (slotMachine d) then d
    else updateButtons
           (withState SPINNING
              (withSlotMachine (snd (SlotMachine.startSpin (slotMachine d))) d)).
Proof.
  unfold startSpinGuard, startSpin. intros H.
  apply andb_prop in H. destruct H as [H Hp].
  apply andb_prop in H. destruct H as [Hs Hc].
  rewrite Hs, Hp. simpl. apply negb_true_iff in Hc. rewrite Hc.
  unfold SlotMachine.startSpin, SlotMachine.hasParticipants in *.
  destruct (SlotMachine.isSpinning (slotMachine d)); simpl.
  - destruct d; reflexivity.
  - apply Nat.ltb_lt in Hp.
    destruct (length (SlotMachine.participants (slotMachine d)) =? 0) eqn:E.
    + apply Nat.eqb_eq in E. lia.
    + reflexivity.
Qed.

Lemma moveCursor_startSpin i d :
  startSpin (withPrizeManager (PrizeManager.setCurrentIndex i (prizeManager d)) d)
  = withPrizeManager
      (PrizeManager.setCurrentIndex i (prizeManager (startSpin d))) (startSpin d).
Proof.
  unfold startSpin. rewrite moveCursor_isComplete. simpl.
  destruct (negb (STATE_eqb (state d) READY)); [reflexivity|].
  destruct (isComplete d); [reflexivity|].
  destruct (negb (SlotMachine.hasParticipants (slotMachine d))); [reflexivity|].
  destruct (SlotMachine.startSpin (slotMachine d)) as [[|] sm]; [|reflexivity].
  unfold updateButtons, isComplete. simpl.
  destruct (negb (actionButtons d)); [reflexivity|].
  destruct (_ || _); reflexivity.
Qed.

Lemma selectPrize_cases originalPrizes prizeId d :
  LotteryApp.selectPrize originalPrizes prizeId d = d
  \/ exists index,
       LotteryApp.selectPrize originalPrizes prizeId d
       = updateButtons
           (withPrizeManager (PrizeManager.setCurrentIndex index (prizeManager d)) d).
Proof.
  unfold LotteryApp.selectPrize.
  destruct (find _ originalPrizes); [|auto].
  destruct (_ <=? _)%Z; [auto|].
  destruct (LotteryApp.findSlot _ _ _ _) as [index|]; [|auto].
  right. exists index. reflexivity.
Qed.

(** The slot found is the [target]-th of the tier, counting from [count]. *)
Lemma findSlot_spec prizeId target count queue i :
  LotteryApp.findSlot prizeId target count queue = Some i ->
  exists e,
    nth_error queue i = Some e
    /\ id (tier e) = prizeId
    /\ count + length (filter (fun q => (id (tier q) =? prizeId)%Z) (firstn (S i) queue))
       = target.
Proof.
  revert count i. induction queue as [|p queue IH]; intros count i H.
  - discriminate.
  - cbn [LotteryApp.findSlot] in H.
    destruct (id (tier p) =? prizeId)%Z eqn:Ep.
    + destruct (S count =? target) eqn:Et.
      * inversion H; subst. exists p. apply Z.eqb_eq in Ep. apply Nat.eqb_eq in Et.
        split; [reflexivity|]. split; [exact Ep|].
        simpl. rewrite (proj2 (Z.eqb_eq _ _) Ep). simpl. lia.
      * destruct (LotteryApp.findSlot prizeId target (S count) queue) as [j|] eqn:Ej;
          [|discriminate].
        inversion H; subst. destruct (IH _ _ Ej) as (e & He & Hid & Hn).
        exists e. split; [exact He|]. split; [exact Hid|].
        change (firstn (S (S j)) (p :: queue)) with (p :: firstn (S j) queue).
        cbn [filter]. rewrite Ep. cbn [List.length]. lia.
    + destruct (LotteryApp.findSlot prizeId target count queue) as [j|] eqn:Ej;
        [|discriminate].
      inversion H; subst. destruct (IH _ _ Ej) as (e & He & Hid & Hn).
      exists e. split; [exact He|]. split; [exact Hid|].
      change (firstn (S (S j)) (p :: queue)) with (p :: firstn (S j) queue).
      cbn [filter]. rewrite Ep. exact Hn.
Qed.

(** When [selectPrize] moves the cursor, it moves it to the slot of the
    requested tier that has exactly as many slots of the tier before it as
    the tier has winners. *)
Lemma selectPrize_lands_on_tier originalPrizes prizeId d :
  cursor (LotteryApp.selectPrize originalPrizes prizeId d) = cursor d
  \/ exists e,
       nth_error (queue d) (cursor (LotteryApp.selectPrize originalPrizes prizeId d))
       = Some e
       /\ id (tier e) = prizeId
       /\ length (filter (fun q => (id (tier q) =? prizeId)%Z)
                     (firstn (cursor (LotteryApp.selectPrize originalPrizes prizeId d))
                        (queue d)))
          = LotteryApp.awardedCount prizeId d.
Proof.
  unfold LotteryApp.selectPrize.
  destruct (find _ originalPrizes); [|auto].
  destruct (_ <=? _)%Z; [auto|].
  destruct (LotteryApp.findSlot _ _ _ _) as [index|] eqn:E; [|auto].
  right. apply findSlot_spec in E. destruct E as (e & He & Hid & Hn).
  assert (cursor (updateUI (withPrizeManager
                   (PrizeManager.setCurrentIndex index (prizeManager d)) d)) = index)
    as Hc.
  { unfold cursor, updateUI.
    destruct (DrawFacts.updateButtons_frame
                (withPrizeManager
                   (PrizeManager.setCurrentIndex index (prizeManager d)) d))
      as (_ & -> & _). reflexivity. }
  rewrite Hc. exists e. split; [exact He|]. split; [exact Hid|].
  unfold queue in *.
  assert (firstn (S index) (PrizeManager.prizeQueue (prizeManager d))
          = firstn index (PrizeManager.prizeQueue (prizeManager d)) ++ [e]) as Hf.
  { clear -He. revert index He.
    induction (PrizeManager.prizeQueue (prizeManager d)) as [|q l IH]; intros index He.
    - destruct index; discriminate.
    - destruct index as [|index]; simpl in *.
      + now inversion He.
      + f_equal. now apply IH. }
  rewrite Hf, filter_app, length_app in Hn. simpl in Hn.
  rewrite (proj2 (Z.eqb_eq _ _) Hid) in Hn. simpl in Hn. lia.
Qed.

Lemma autoSelect_cases originalPrizes d :
  LotteryApp.autoSelectNextAvailablePrize originalPrizes d = d
  \/ exists index,
       LotteryApp.autoSelectNextAvailablePrize originalPrizes d
       = updateButtons
           (withPrizeManager (PrizeManager.setCurrentIndex index (prizeManager d)) d).
Proof.
  unfold LotteryApp.autoSelectNextAvailablePrize.
  destruct (LotteryApp.currentPrizeHasRemaining originalPrizes d); [auto|].
  destruct (find _ (PrizeManager.sortByIdDesc originalPrizes)) as [p|]; [|auto].
  apply selectPrize_cases.
Qed.

(** The listener of app.js touches the cursor and the phase, nothing else. *)
Lemma app_listener_keepsPool originalPrizes :
  keepsPool (Some (LotteryApp.onStateChange originalPrizes)).
Proof.
  intros f Hf d. inversion Hf; subst f. clear Hf.
  unfold LotteryApp.onStateChange.
  destruct (autoSelect_cases originalPrizes d) as [->|[index ->]]; [auto|].
  destruct (DrawFacts.updateButtons_frame
              (withPrizeManager (PrizeManager.setCurrentIndex index (prizeManager d)) d))
    as (-> & _ & _ & -> & _).
  auto.
Qed.

Lemma app_listener_keeps_ledger_and_queue originalPrizes d :
  ledger (LotteryApp.onStateChange originalPrizes d) = ledger d
  /\ queue (LotteryApp.onStateChange originalPrizes d) = queue d.
Proof.
  unfold LotteryApp.onStateChange, ledger, queue.
  destruct (autoSelect_cases originalPrizes d) as [->|[index ->]]; [auto|].
  destruct (DrawFacts.updateButtons_frame
              (withPrizeManager (PrizeManager.setCurrentIndex index (prizeManager d)) d))
    as (_ & -> & -> & _).
  auto.
Qed.

Lemma updateButtons_canDraw d : canDraw (updateButtons d) = canDraw d.
Proof.
  unfold updateButtons.
  destruct (negb (actionButtons d)); [reflexivity|].
  destruct (isComplete d) eqn:Ec; simpl.
  - unfold canDraw. change (isComplete (withState COMPLETE d)) with (isComplete d).
    rewrite Ec. simpl. now rewrite andb_false_r.
  - destruct (SlotMachine.hasParticipants (slotMachine d)) eqn:Ep; simpl.
    + reflexivity.
    + unfold canDraw. simpl. rewrite Ep. now rewrite !andb_false_r.
Qed.

Lemma updateButtons_isComplete d : isComplete (updateButtons d) = isComplete d.
Proof.
  unfold updateButtons, isComplete.
  destruct (negb (actionButtons d)); [reflexivity|].
  destruct (_ || _); reflexivity.
Qed.

End OrchestratorFacts.

(** ** Claims about completion and legality *)

Module CompletionClaims.

Import DrawManager Session Examples.

(** C3.  Completion, as [canDraw], [startSpin] and [updateButtons] compute
    it, compares the length of the ledger with the length of the queue (the
    sum of the tiers' quantities); the cursor plays no part: moving it
    changes neither [canDraw] nor what [startSpin] does, and a manual
    selection leaves [canDraw] and the completion test as they were, its only
    effect on the phase being that of refreshing the buttons. *)
Theorem completion_ignores_cursor
    (originalPrizes : list Prize) (prizeId : Z) (i : nat) (d : DrawManager.t) :
  let moved := withPrizeManager (PrizeManager.setCurrentIndex i (prizeManager d)) d in
  let selected := LotteryApp.selectPrize originalPrizes prizeId d in
  isComplete d = (length (queue d) <=? length (ledger d))
  /\ canDraw d = STATE_eqb (state d) READY && negb (isComplete d)
                 && (0 <? length (pool d))
  /\ (startSpinGuard d = canDraw d
      /\ (startSpinGuard d = false -> startSpin d = d)
      /\ (startSpinGuard d = true -> SlotMachine.isSpinning (slotMachine d) = false ->
          state (startSpin d) = SPINNING \/ state (startSpin d) = COMPLETE))
  /\ (isComplete moved = isComplete d /\ canDraw moved = canDraw d
      /\ startSpin moved
         = withPrizeManager
             (PrizeManager.setCurrentIndex i (prizeManager (startSpin d))) (startSpin d))
  /\ (isComplete selected = isComplete d /\ canDraw selected = canDraw d
      /\ ledger selected = ledger d
      /\ (state selected = state d \/ state selected = state (updateButtons d))
      /\ (isComplete d = false ->
          SlotMachine.hasParticipants (slotMachine d) = true ->
          state selected = state d))
  /\ PrizeManager.getTotalPrizes (PrizeManager.new originalPrizes)
     = PrizeManager.totalQuantity originalPrizes.
Proof.
  cbv zeta. split; [reflexivity|]. split; [reflexivity|]. split; [|split; [|split]].
  - split; [reflexivity|]. split; [apply OrchestratorFacts.startSpin_refused|].
    intros Hg Hs. rewrite (OrchestratorFacts.startSpin_allowed d Hg), Hs.
    destruct (DrawFacts.updateButtons_state
                (withState SPINNING
                   (withSlotMachine (snd (SlotMachine.startSpin (slotMachine d))) d)))
      as [H|H]; rewrite H; auto.
  - split; [reflexivity|]. split; [reflexivity|].
    apply OrchestratorFacts.moveCursor_startSpin.
  - destruct (OrchestratorFacts.selectPrize_cases originalPrizes prizeId d)
      as [->|[index ->]].
    + repeat split; auto.
    + rewrite OrchestratorFacts.updateButtons_isComplete,
        OrchestratorFacts.updateButtons_canDraw.
      split; [reflexivity|]. split; [reflexivity|]. split; [|split].
      * apply (OrchestratorFacts.updateUI_views
                 (withPrizeManager
                    (PrizeManager.setCurrentIndex index (prizeManager d)) d)).
      * right. rewrite OrchestratorFacts.moveCursor_updateButtons. reflexivity.
      * intros Hc Hp. rewrite OrchestratorFacts.moveCursor_updateButtons. simpl.
        unfold updateButtons. rewrite Hc, Hp. simpl.
        now destruct (negb (actionButtons d)).
  - apply PrizeQueueFacts.length_buildPrizeQueue.
Qed.

(** The cursor-based test of the prize manager and the ledger-based test
    of the orchestrator can disagree: in the state before the last spin of
    the C8 scenario the cursor is at the end of the queue, and a draw is
    legal. *)
Lemma completion_ignores_cursor_witness :
  let d := run [grand; first] None
             (draw 0 10 ++ draw 0 11 ++ draw 0 12
              ++ [ReaddWinner "A"; UndoLastDraw] ++ draw 0 13) fresh in
  (PrizeManager.isComplete (prizeManager d) = true /\ canDraw d = true)
  /\ isComplete d = (length (queue d) <=? length (ledger d))
  /\ canDraw (LotteryApp.selectPrize [grand; first] 2 d) = canDraw d
  /\ PrizeManager.getTotalPrizes (PrizeManager.new [grand; first]) = 3.
Proof.
  cbv zeta. split; [evaluate|].
  destruct (completion_ignores_cursor [grand; first] 2 0
              (run [grand; first] None
                 (draw 0 10 ++ draw 0 11 ++ draw 0 12
                  ++ [ReaddWinner "A"; UndoLastDraw] ++ draw 0 13) fresh))
    as (H1 & _ & _ & _ & (_ & H2 & _) & H3).
  split; [exact H1|]. split; [exact H2|]. rewrite H3. reflexivity.
Defined.

End CompletionClaims.

(** ** Claims about undo and targeted removal *)

Module ReversalFacts.

Import DrawManager Session.

Lemma findIndex_first {A : Type} (f : A -> bool) (front : list A) (x : A) (back : list A) :
  (forall y, In y front -> f y = false) -> f x = true ->
  findIndex f (front ++ x :: back) = Some (length front)
  /\ nth_error (front ++ x :: back) (length front) = Some x
  /\ splice1 (length front) (front ++ x :: back) = front ++ back.
Proof.
  intros Hfront Hx. induction front as [|y front IH]; simpl.
  - rewrite Hx. auto.
  - rewrite (Hfront y (or_introl eq_refl)).
    destruct IH as (-> & -> & ->); [intros z Hz; apply Hfront; now right|].
    auto.
Qed.

Lemma undoLastPrize_cursor pm :
  PrizeManager.currentIndex (PrizeManager.undoLastPrize pm)
  = PrizeManager.currentIndex pm - 1
  /\ PrizeManager.prizeQueue (PrizeManager.undoLastPrize pm) = PrizeManager.prizeQueue pm
  /\ PrizeManager.originalPrizes (PrizeManager.undoLastPrize pm)
     = PrizeManager.originalPrizes pm.
Proof.
  unfold PrizeManager.undoLastPrize.
  destruct (0 <? PrizeManager.currentIndex pm) eqn:E; simpl; auto.
  apply Nat.ltb_ge in E. repeat split. lia.
Qed.

Lemma undoLastDraw_empty h d : ledger d = [] -> undoLastDraw h d = (None, d).
Proof.
  unfold ledger, undoLastDraw, WinnerManager.removeLastWinner. now intros ->.
Qed.

Lemma undoLastDraw_last h d front w :
  ledger d = front ++ [w] ->
  undoLastDraw h d
  = (Some w,
     updateUI (withState READY (notify h (undoEffect w (WinnerManager.mk front) d)))).
Proof.
  unfold ledger, undoLastDraw, WinnerManager.removeLastWinner. intros ->.
  now rewrite pop_app.
Qed.

Lemma undoLastDraw_state h d :
  state (snd (undoLastDraw h d)) = state d
  \/ state (snd (undoLastDraw h d)) = READY
  \/ state (snd (undoLastDraw h d)) = COMPLETE.
Proof.
  unfold undoLastDraw.
  destruct (WinnerManager.removeLastWinner (winnerManager d)) as [[w|] wm]; simpl.
  - right. unfold updateUI.
    destruct (DrawFacts.updateButtons_state
                (withState READY (notify h (undoEffect w wm d)))) as [H|H];
      rewrite H; auto.
  - auto.
Qed.

Lemma readdWinner_absent h pid d :
  (forall x, In x (ledger d) -> w_id x <> pid) -> readdWinner h pid d = (None, d).
Proof.
  unfold ledger, readdWinner, WinnerManager.removeWinnerById. intros H.
  assert (findIndex (fun w => eq_str (w_id w) pid)
            (WinnerManager.winners (winnerManager d)) = None) as ->; [|reflexivity].
  apply findIndex_None. intros x Hx. apply String.eqb_neq. now apply H.
Qed.

End ReversalFacts.

Module ReversalClaims.

Import DrawManager Session Examples.

(** C7, as stated, fails: the phase is not looked at.  With A's draw
    committed and B waiting for confirmation (phase STOPPED), and again with
    every prize awarded (phase COMPLETE), [undoLastDraw] pops the last entry,
    moves the cursor back and refills the pool. *)
Lemma undoLastDraw_outside_READY :
  let stopped := run [grand; first] None
                   (draw 0 10 ++ [StartSpin; StopSpin 0; AnimationFrame; RevealTimer])
                   fresh in
  let complete := run [grand; first] None (draw 0 10 ++ draw 0 11 ++ draw 0 12) fresh in
  (state stopped = STOPPED /\ pendingWinner stopped = Some B
   /\ ledger stopped = [mkWinner "A" "X" (mkEntry first 1) 10]
   /\ cursor stopped = 1 /\ pool stopped = [B; C; D]
   /\ undoLastDraw None stopped
      = (Some (mkWinner "A" "X" (mkEntry first 1) 10), snd (undoLastDraw None stopped))
   /\ ledger (snd (undoLastDraw None stopped)) = []
   /\ cursor (snd (undoLastDraw None stopped)) = 0
   /\ pool (snd (undoLastDraw None stopped)) = [B; C; D; A]
   /\ state (snd (undoLastDraw None stopped)) = READY)
  /\ (state complete = COMPLETE /\ length (ledger complete) = 3 /\ cursor complete = 3
      /\ length (ledger (snd (undoLastDraw None complete))) = 2
      /\ cursor (snd (undoLastDraw None complete)) = 2
      /\ pool (snd (undoLastDraw None complete)) = [D; C]
      /\ state (snd (undoLastDraw None complete)) = READY).
Proof. cbv zeta. evaluate. Qed.

(** C7, as the code has it.  [undoLastDraw] has no guard on the phase.  With
    an empty ledger it returns null and changes nothing.  With a ledger ending
    in [w] it does, in whatever phase it is called: pop [w], move the cursor
    back by one unless it is 0, put the participant back in the pool unless
    the id is there, notify the listener, and leave the phase [READY] (which
    the refresh of the buttons may turn into [COMPLETE]). *)
Theorem undoLastDraw_any_phase
    (h : option (DrawManager.t -> DrawManager.t)) (d : DrawManager.t) :
  (ledger d = [] -> undoLastDraw h d = (None, d))
  /\ (forall front w, ledger d = front ++ [w] ->
      exists d',
        undoLastDraw h d = (Some w, updateUI (withState READY (notify h d')))
        /\ ledger d' = front
        /\ cursor d' = cursor d - 1
        /\ queue d' = queue d
        /\ slotMachine d'
           = snd (SlotMachine.addParticipant
                    (mkParticipant (w_id w) (w_name w)) (slotMachine d))
        /\ state d' = state d
        /\ pendingWinner d' = pendingWinner d
        /\ (state (snd (undoLastDraw h d)) = READY
            \/ state (snd (undoLastDraw h d)) = COMPLETE)).
Proof.
  split; [apply ReversalFacts.undoLastDraw_empty|].
  intros front w Hledger.
  exists (undoEffect w (WinnerManager.mk front) d).
  rewrite (ReversalFacts.undoLastDraw_last h d front w Hledger).
  destruct (ReversalFacts.undoLastPrize_cursor (prizeManager d)) as (Hc & Hq & _).
  repeat split; try assumption.
  simpl. unfold updateUI.
  destruct (DrawFacts.updateButtons_state
              (withState READY (notify h (undoEffect w (WinnerManager.mk front) d))))
    as [H|H]; rewrite H; auto.
Qed.

(** The empty ledger of a fresh orchestrator, and an undo in phase STOPPED. *)
Lemma undoLastDraw_any_phase_witness :
  let stopped := run [grand; first] None
                   (draw 0 10 ++ [StartSpin; StopSpin 0; AnimationFrame; RevealTimer])
                   fresh in
  (ledger fresh = [] /\ undoLastDraw None fresh = (None, fresh))
  /\ ledger stopped = [] ++ [mkWinner "A" "X" (mkEntry first 1) 10]
  /\ exists d',
       undoLastDraw None stopped
       = (Some (mkWinner "A" "X" (mkEntry first 1) 10),
          updateUI (withState READY (notify None d')))
       /\ ledger d' = []
       /\ cursor d' = cursor stopped - 1
       /\ state d' = STOPPED.
Proof.
  cbv zeta.
  destruct (undoLastDraw_any_phase None fresh) as [Hempty _].
  destruct (undoLastDraw_any_phase None
              (run [grand; first] None
                 (draw 0 10 ++ [StartSpin; StopSpin 0; AnimationFrame; RevealTimer])
                 fresh)) as [_ Hlast].
  assert (ledger (run [grand; first] None
                    (draw 0 10 ++ [StartSpin; StopSpin 0; AnimationFrame; RevealTimer])
                    fresh)
          = [] ++ [mkWinner "A" "X" (mkEntry first 1) 10]) as Hledger.
  { vm_compute. reflexivity. }
  split; [split; [reflexivity|apply Hempty; reflexivity]|].
  split; [exact Hledger|].
  destruct (Hlast _ _ Hledger) as (d' & Hcall & Hl & Hc & _ & _ & Hs & _).
  exists d'. split; [exact Hcall|]. split; [exact Hl|]. split; [exact Hc|].
  rewrite Hs. vm_compute. reflexivity.
Defined.

End ReversalClaims.

(** ** Confirm followed by undo *)

Module RoundTripFacts.

Import DrawManager Session.

Lemma sameDraw_refl d : sameDraw d d.
Proof. unfold sameDraw. auto. Qed.

Lemma sameDraw_trans a b c : sameDraw a b -> sameDraw b c -> sameDraw a c.
Proof.
  unfold sameDraw. intros (H1 & H2 & H3) (H4 & H5 & H6).
  split; [congruence|]. split; [congruence|]. now rewrite H3.
Qed.

Lemma existsb_id_perm pid (l l' : list Participant) :
  Permutation l l' ->
  existsb (fun p => eq_str (p_id p) pid) l = existsb (fun p => eq_str (p_id p) pid) l'.
Proof.
  intros H. apply eq_true_iff_eq. rewrite !PoolFacts.existsb_id.
  split; apply Permutation_in, Permutation_map;
    [assumption|symmetry; assumption].
Qed.

Section Passive.

Variable h : option (DrawManager.t -> DrawManager.t).
Hypothesis listener_passive : passive h.

Lemma notify_views d :
  ledger (notify h d) = ledger d
  /\ prizeManager (notify h d) = prizeManager d
  /\ pool (notify h d) = pool d.
Proof.
  unfold notify, ledger, pool. destruct h as [f|] eqn:E; [|auto].
  destruct (listener_passive f eq_refl d) as (-> & -> & ->). auto.
Qed.

(** What a call of [undoLastDraw] leaves, in terms of what it found. *)
Lemma undoLastDraw_views d front w :
  ledger d = front ++ [w] ->
  let d' := snd (undoLastDraw h d) in
  ledger d' = front
  /\ prizeManager d' = PrizeManager.undoLastPrize (prizeManager d)
  /\ pool d'
     = SlotMachine.participants
         (snd (SlotMachine.addParticipant
                 (mkParticipant (w_id w) (w_name w)) (slotMachine d))).
Proof.
  intros Hledger. cbv zeta.
  rewrite (ReversalFacts.undoLastDraw_last h d front w Hledger). simpl.
  destruct (OrchestratorFacts.updateUI_views
              (withState READY (notify h (undoEffect w (WinnerManager.mk front) d))))
    as (-> & -> & -> & _).
  change (ledger (withState READY ?x)) with (ledger x).
  change (pool (withState READY ?x)) with (pool x).
  change (prizeManager (withState READY ?x)) with (prizeManager x).
  destruct (notify_views (undoEffect w (WinnerManager.mk front) d)) as (-> & -> & ->).
  auto.
Qed.

Lemma undoLastDraw_sameDraw a b :
  sameDraw a b -> sameDraw (snd (undoLastDraw h a)) (snd (undoLastDraw h b)).
Proof.
  intros (Hl & Hp & Hpool).
  destruct (ledger a) as [|x l] eqn:Ea.
  - rewrite (ReversalFacts.undoLastDraw_empty h a Ea).
    rewrite (ReversalFacts.undoLastDraw_empty h b) by congruence.
    unfold sameDraw. simpl. split; [congruence|]. auto.
  - destruct (pop_last_exists (ledger a)) as (front & w & Hlast);
      [rewrite Ea; discriminate|].
    assert (ledger b = front ++ [w]) as Hlast' by congruence.
    destruct (undoLastDraw_views a front w Hlast) as (Ha1 & Ha2 & Ha3).
    destruct (undoLastDraw_views b front w Hlast') as (Hb1 & Hb2 & Hb3).
    unfold sameDraw. rewrite Ha1, Ha2, Ha3, Hb1, Hb2, Hb3, Hp.
    split; [reflexivity|]. split; [reflexivity|].
    unfold SlotMachine.addParticipant. unfold pool in Hpool.
    rewrite (existsb_id_perm _ _ _ Hpool).
    destruct (existsb _ (SlotMachine.participants (slotMachine b))); simpl.
    + exact Hpool.
    + now apply Permutation_app_tail.
Qed.

Lemma undos_sameDraw n a b : sameDraw a b -> sameDraw (undos h n a) (undos h n b).
Proof.
  revert a b. induction n as [|n IH]; intros a b H; simpl.
  - exact H.
  - apply IH, undoLastDraw_sameDraw, H.
Qed.

Lemma getCurrentPrize_Some pm e :
  PrizeManager.getCurrentPrize pm = Some e ->
  PrizeManager.currentIndex pm < length (PrizeManager.prizeQueue pm).
Proof.
  unfold PrizeManager.getCurrentPrize.
  destruct (_ <=? _) eqn:E; [discriminate|]. intros _. now apply Nat.leb_gt in E.
Qed.

(** What a returning [confirmWinner] leaves. *)
Lemma confirmWinner_views now d d' w :
  state d = STOPPED -> pendingWinner d = Some w ->
  confirmWinner h now d = Returns d' ->
  exists e,
    PrizeManager.getCurrentPrize (prizeManager d) = Some e
    /\ ledger d' = ledger d ++ [mkWinner (p_id w) (p_name w) e now]
    /\ prizeManager d'
       = PrizeManager.mk (PrizeManager.originalPrizes (prizeManager d))
           (PrizeManager.prizeQueue (prizeManager d))
           (S (PrizeManager.currentIndex (prizeManager d)))
    /\ pool d'
       = SlotMachine.participants
           (snd (SlotMachine.removeParticipant (p_id w) (slotMachine d))).
Proof.
  intros Hs Hw. unfold confirmWinner. rewrite Hs, Hw. simpl.
  destruct (PrizeManager.getCurrentPrize (prizeManager d)) as [e|] eqn:E; simpl;
    [|discriminate].
  intros H. inversion H; subst d'. clear H. exists e. split; [reflexivity|].
  destruct (notify_views
              (updateUI (withState READY
                 (confirmEffect w
                    (WinnerManager.mk
                       (WinnerManager.winners (winnerManager d)
                        ++ [mkWinner (p_id w) (p_name w) e now])) d))))
    as (-> & -> & ->).
  destruct (OrchestratorFacts.updateUI_views
              (withState READY
                 (confirmEffect w
                    (WinnerManager.mk
                       (WinnerManager.winners (winnerManager d)
                        ++ [mkWinner (p_id w) (p_name w) e now])) d)))
    as (-> & -> & -> & _).
  split; [reflexivity|]. split; [|reflexivity].
  simpl. unfold PrizeManager.advanceToNextPrize.
  apply getCurrentPrize_Some, Nat.ltb_lt in E. now rewrite E.
Qed.

(** One confirm undone at once. *)
Lemma confirm_then_undo now d d' w :
  NoDup (map p_id (pool d)) ->
  state d = STOPPED -> pendingWinner d = Some w -> In w (pool d) ->
  confirmWinner h now d = Returns d' ->
  sameDraw (snd (undoLastDraw h d')) d
  /\ NoDup (map p_id (pool d')).
Proof.
  intros Hnd Hs Hw Hin Hconfirm.
  destruct (confirmWinner_views now d d' w Hs Hw Hconfirm)
    as (e & _ & Hl & Hp & Hpool).
  split.
  - destruct (undoLastDraw_views d' _ _ Hl) as (H1 & H2 & H3).
    unfold sameDraw. rewrite H1, H2, H3. split; [reflexivity|]. split.
    + rewrite Hp. unfold PrizeManager.undoLastPrize. simpl.
      rewrite Nat.sub_0_r. now destruct (prizeManager d).
    + simpl.
      destruct (PoolFacts.removeParticipant_member w (slotMachine d) Hnd Hin)
        as [Hperm Hout].
      unfold pool in Hpool. rewrite <- Hpool in Hperm, Hout.
      rewrite PoolFacts.addParticipant_absent by exact Hout.
      simpl. rewrite <- Hperm. destruct w. simpl.
      symmetry. apply Permutation_cons_append.
  - rewrite Hpool. now apply PoolFacts.removeParticipant_NoDup.
Qed.

Lemma draws_NoDup n d d' :
  NoDup (map p_id (pool d)) -> draws h n d d' -> NoDup (map p_id (pool d')).
Proof.
  intros Hnd. induction 1 as [|n d d1 d2 d3 w now Hd IH Hl Hp Hpool Hs Hw Hin Hc].
  - exact Hnd.
  - assert (NoDup (map p_id (pool d2))) as Hnd2 by (rewrite Hpool; exact (IH Hnd)).
    exact (proj2 (confirm_then_undo now d2 d3 w Hnd2 Hs Hw Hin Hc)).
Qed.

Lemma draws_then_undos n d d' :
  NoDup (map p_id (pool d)) -> draws h n d d' -> sameDraw (undos h n d') d.
Proof.
  intros Hnd. induction 1 as [|n d d1 d2 d3 w now Hd IH Hl Hp Hpool Hs Hw Hin Hc].
  - apply sameDraw_refl.
  - simpl. specialize (IH Hnd).
    assert (NoDup (map p_id (pool d2))) as Hnd2.
    { rewrite Hpool. eapply draws_NoDup; eassumption. }
    destruct (confirm_then_undo now d2 d3 w Hnd2 Hs Hw Hin Hc) as [Hback _].
    eapply sameDraw_trans; [|exact IH].
    apply undos_sameDraw.
    eapply sameDraw_trans; [exact Hback|].
    unfold sameDraw. rewrite Hl, Hp, Hpool. auto.
Qed.

End Passive.

End RoundTripFacts.

(** ** Runs, and reports that arrive after a reset *)

Module RunFacts.

Import DrawManager Session.

Lemma run_reachable originalPrizes h participants actionButtons ops d :
  reachable originalPrizes h participants actionButtons d ->
  admissibleRun originalPrizes h ops d ->
  reachable originalPrizes h participants actionButtons (run originalPrizes h ops d).
Proof.
  revert d. induction ops as [|op ops IH]; intros d Hd Hadm; simpl.
  - exact Hd.
  - destruct Hadm as [Hop Hrest]. apply IH; [|exact Hrest].
    now apply reachable_step.
Qed.

End RunFacts.

Module StaleReportFacts.

Import DrawManager Session.

Section Quiet.

Variable originalPrizes : list Prize.
Variable h : option (DrawManager.t -> DrawManager.t).
Hypothesis listener_keeps_pool : keepsPool h.

Lemma nobodyPending_ext d d' :
  SlotMachine.pendingWinner (slotMachine d')
  = SlotMachine.pendingWinner (slotMachine d) ->
  pendingWinner d' = pendingWinner d ->
  nobodyPending d -> nobodyPending d'.
Proof. unfold nobodyPending. intros -> ->. auto. Qed.

Lemma notify_quiet d : nobodyPending d -> nobodyPending (notify h d).
Proof.
  destruct (PoolInvariant.notify_pool h listener_keeps_pool d) as [Hsm Hpw].
  apply nobodyPending_ext; [now rewrite Hsm|exact Hpw].
Qed.

Lemma updateButtons_quiet d : nobodyPending d -> nobodyPending (updateButtons d).
Proof.
  destruct (DrawFacts.updateButtons_frame d) as (Hsm & _ & _ & Hpw & _).
  apply nobodyPending_ext; [now rewrite Hsm|exact Hpw].
Qed.

Lemma addBack_quiet participant d d' :
  slotMachine d' = snd (SlotMachine.addParticipant participant (slotMachine d)) ->
  pendingWinner d' = pendingWinner d ->
  nobodyPending d -> nobodyPending d'.
Proof.
  intros Hsm Hpw. apply nobodyPending_ext; [|exact Hpw].
  rewrite Hsm. apply PoolFacts.addParticipant_others.
Qed.

Lemma reset_quiet ps d : nobodyPending (reset h ps d).
Proof.
  unfold reset. apply notify_quiet, updateButtons_quiet.
  unfold nobodyPending. auto.
Qed.

Lemma exec_quiet op d :
  isStopSpin op = false -> nobodyPending d ->
  nobodyPending (after (exec originalPrizes h op d)).
Proof.
  intros Hop H. destruct op; simpl; try discriminate Hop.
  - now apply updateButtons_quiet.
  - unfold startSpin.
    destruct (negb (STATE_eqb (state d) READY)); [exact H|].
    destruct (isComplete d); [exact H|].
    destruct (negb (SlotMachine.hasParticipants (slotMachine d))); [exact H|].
    unfold SlotMachine.startSpin.
    destruct (SlotMachine.isSpinning (slotMachine d) || _).
    + revert H. apply nobodyPending_ext; reflexivity.
    + apply updateButtons_quiet. destruct H as [_ H]. split; [reflexivity|exact H].
  - revert H. apply nobodyPending_ext; [|reflexivity].
    apply (PoolFacts.animationFrame_pool (slotMachine d)).
  - unfold revealTimer.
    destruct (SlotMachine.revealTimers (slotMachine d) =? 0); [exact H|].
    simpl. destruct H as [Hsm Hpw]. rewrite Hsm. simpl. split; assumption.
  - unfold confirmWinner. destruct H as [Hsm Hpw]. rewrite Hpw.
    destruct (STATE_eqb (state d) STOPPED); simpl; split; assumption.
  - unfold respin.
    destruct (negb (STATE_eqb (state d) STOPPED)); [exact H|].
    apply updateButtons_quiet. split; reflexivity.
  - unfold undoLastDraw.
    destruct (WinnerManager.removeLastWinner (winnerManager d)) as [[w|] wm];
      [|exact H].
    simpl. apply updateButtons_quiet.
    eapply nobodyPending_ext; [| |apply notify_quiet]; [reflexivity|reflexivity|].
    eapply addBack_quiet; [| |exact H]; reflexivity.
  - unfold readdWinner.
    destruct (WinnerManager.removeWinnerById participantId (winnerManager d))
      as [[w|] wm]; [|exact H].
    simpl. apply notify_quiet.
    eapply addBack_quiet; [| |exact H]; reflexivity.
  - apply reset_quiet.
  - destruct (OrchestratorFacts.selectPrize_cases originalPrizes prizeId d)
      as [->|[index ->]]; [exact H|].
    apply updateButtons_quiet. revert H. apply nobodyPending_ext; reflexivity.
Qed.

Lemma run_quiet ops d :
  forallb (fun op => negb (isStopSpin op)) ops = true ->
  nobodyPending d -> nobodyPending (run originalPrizes h ops d).
Proof.
  revert d. induction ops as [|op ops IH]; intros d Hops H; simpl.
  - exact H.
  - simpl in Hops. apply andb_prop in Hops. destruct Hops as [Hop Hops].
    apply IH; [exact Hops|]. apply exec_quiet; [|exact H].
    now apply negb_true_iff.
Qed.

(** With nobody pending, the reveal timer reports no winner. *)
Lemma revealTimer_quiet d :
  nobodyPending d ->
  pendingWinner (revealTimer d) = None /\ state (revealTimer d) = state d
  /\ prizeManager (revealTimer d) = prizeManager d
  /\ winnerManager (revealTimer d) = winnerManager d
  /\ pool (revealTimer d) = pool d.
Proof.
  intros [Hsm Hpw]. unfold revealTimer, pool.
  destruct (SlotMachine.revealTimers (slotMachine d) =? 0); [auto|].
  simpl. rewrite Hsm. simpl. auto.
Qed.

End Quiet.

End StaleReportFacts.

(** ** Claims about a session *)

Module SessionClaims.

Import DrawManager Session Examples.

(** The scenarios of the specification, on a pool of two: A is drawn and
    confirmed for tier2#1, then the draw is undone. *)
Example scenario_confirm :
  let d0 := DrawManager.new (SlotMachine.new [A; B])
              (PrizeManager.new [grand; first]) WinnerManager.new true in
  let stopped := run [grand; first] None
                   [StartSpin; StopSpin 0; AnimationFrame; RevealTimer] d0 in
  let confirmed := after (confirmWinner None 7 stopped) in
  (state stopped = STOPPED /\ pendingWinner stopped = Some A)
  /\ ledger confirmed = [mkWinner "A" "X" (mkEntry first 1) 7]
  /\ pool confirmed = [B]
  /\ cursor confirmed = 1
  /\ state confirmed = READY
  /\ after (confirmWinner None 8 confirmed) = confirmed.
Proof. cbv zeta. evaluate. Qed.

Example scenario_undo :
  let d0 := DrawManager.new (SlotMachine.new [A; B])
              (PrizeManager.new [grand; first]) WinnerManager.new true in
  let confirmed := run [grand; first] None (draw 0 7) d0 in
  let undone := snd (undoLastDraw None confirmed) in
  ledger undone = [] /\ pool undone = [B; A] /\ cursor undone = 0
  /\ undoLastDraw None undone = (None, undone).
Proof. cbv zeta. evaluate. Qed.


(** C2, as stated, fails: nothing tells the sessions apart.  A spin is
    stopped and its reel timers are armed; [reset] is called; a new spin is
    started and stopped on B before those timers have run out.  The report of
    the cancelled spin then delivers B, and the orchestrator goes to
    [STOPPED], while the new spin has armed no timer yet. *)
Lemma stale_report_accepted_after_new_stop :
  let atReset := run [grand; first] None
                   [StartSpin; StopSpin 0; AnimationFrame; Reset [A; B; C; D]] fresh in
  let d := run [grand; first] None [StartSpin; StopSpin 1] atReset in
  (SlotMachine.revealTimers (slotMachine atReset) = 1
   /\ SlotMachine.frameCallbacks (slotMachine atReset) = [])
  /\ (SlotMachine.revealTimers (slotMachine d) = 1
      /\ SlotMachine.frameCallbacks (slotMachine d) = [2]
      /\ state d = SPINNING /\ pendingWinner d = None)
  /\ pendingWinner (revealTimer d) = Some B
  /\ state (revealTimer d) = STOPPED
  /\ SlotMachine.revealTimers (slotMachine (revealTimer d)) = 0.
Proof. cbv zeta. evaluate. Qed.

(** C2, as the code has it.  [reset] clears the slot machine's pending
    winner, and the report reads it when the timer fires: whatever happens
    after the reset, as long as no stop is requested again, a report that
    arrives finds no winner, sets no pending winner and leaves the phase,
    the ledger, the cursor and the pool as they are. *)
Theorem stale_report_discarded_until_next_stop
    (originalPrizes : list Prize) (h : option (DrawManager.t -> DrawManager.t))
    (ps : list Participant) (ops : list Op) (d : DrawManager.t)
    (Hlistener : keepsPool h)
    (Hops : forallb (fun op => negb (isStopSpin op)) ops = true) :
  let d1 := run originalPrizes h ops (reset h ps d) in
  pendingWinner d1 = None
  /\ pendingWinner (revealTimer d1) = None
  /\ state (revealTimer d1) = state d1
  /\ prizeManager (revealTimer d1) = prizeManager d1
  /\ winnerManager (revealTimer d1) = winnerManager d1
  /\ pool (revealTimer d1) = pool d1.
Proof.
  cbv zeta.
  assert (nobodyPending (run originalPrizes h ops (reset h ps d))) as Hquiet.
  { apply StaleReportFacts.run_quiet; [exact Hlistener|exact Hops|].
    now apply StaleReportFacts.reset_quiet. }
  split; [apply Hquiet|].
  now apply StaleReportFacts.revealTimer_quiet.
Qed.

Lemma stale_report_discarded_until_next_stop_witness :
  let spinning := run [grand; first] None [StartSpin; StopSpin 0; AnimationFrame] fresh in
  let d1 := run [grand; first] None [StartSpin] (reset None [A; B; C; D] spinning) in
  (SlotMachine.revealTimers (slotMachine spinning) = 1
   /\ SlotMachine.revealTimers (slotMachine d1) = 1
   /\ state d1 = SPINNING)
  /\ pendingWinner d1 = None
  /\ pendingWinner (revealTimer d1) = None
  /\ state (revealTimer d1) = state d1
  /\ prizeManager (revealTimer d1) = prizeManager d1
  /\ winnerManager (revealTimer d1) = winnerManager d1
  /\ pool (revealTimer d1) = pool d1.
Proof.
  cbv zeta. split; [evaluate|].
  apply (stale_report_discarded_until_next_stop [grand; first] None [A; B; C; D]
           [StartSpin]
           (run [grand; first] None [StartSpin; StopSpin 0; AnimationFrame] fresh)).
  - intros f Hf. discriminate Hf.
  - reflexivity.
Defined.

End SessionClaims.

(** ** Where the code departs from the claims *)

Module DefectClaims.

Import DrawManager Session Examples.

(** An orchestrator without the listener of app.js does not keep the
    cursor on a prize by itself.  Three draws award every prize; the first
    winner is taken out of the ledger with [readdWinner], which leaves the
    cursor at the end of the queue; the last draw is undone (cursor 2, phase
    READY) and drawn again (cursor 3, ledger of 2 out of 3).  A further spin
    is legal and ends in STOPPED with A pending: [confirmWinner] passes its
    guard, finds no current prize, and [addWinner] throws on [prize.id]. *)
Lemma unwired_confirmWinner_meets_null_prize :
  let ops := draw 0 10 ++ draw 0 11 ++ draw 0 12
             ++ [ReaddWinner "A"; UndoLastDraw] ++ draw 0 13
             ++ [StartSpin; StopSpin 0; AnimationFrame; RevealTimer] in
  let d := run [grand; first] None ops fresh in
  reachable [grand; first] None [A; B; C; D] true d
  /\ state d = STOPPED
  /\ pendingWinner d = Some A
  /\ length (ledger d) = 2 /\ length (queue d) = 3 /\ cursor d = 3
  /\ PrizeManager.getCurrentPrize (prizeManager d) = None
  /\ confirmWinner None 14 d = Throws d.
Proof.
  cbv zeta. split.
  - apply RunFacts.run_reachable; [apply reachable_new|].
    vm_compute. repeat split; lia.
  - evaluate.
Qed.

(** C4 fails on the code.  A wins first#1; the facilitator selects the grand
    prize and then undoes the draw, which moves the cursor back by one, from
    the grand prize to first#2; C is drawn and wins first#2.  Tier 2 now has
    one winner and its instance 1 is free, and selecting tier 2 puts the cursor
    on its second slot, the one C holds.  The same happens with the
    application's listener in place. *)
Theorem selectPrize_lands_on_awarded_slot :
  let ops := draw 0 10 ++ [SelectPrize 1; UndoLastDraw] ++ draw 1 11 in
  let standalone := run [grand; first] None ops fresh in
  let wired := run [grand; first] (Some (LotteryApp.onStateChange [grand; first])) ops
                 (LotteryApp.init [grand; first] [A; B; C; D] true) in
  let landsOnAwarded := fun d =>
    ledger d = [mkWinner "C" "Z" (mkEntry first 2) 11]
    /\ nth_error (queue d) 0 = Some (mkEntry first 1)
    /\ awarded d (mkEntry first 1) = false
    /\ cursor (LotteryApp.selectPrize [grand; first] 2 d) = 1
    /\ PrizeManager.getCurrentPrize
         (prizeManager (LotteryApp.selectPrize [grand; first] 2 d))
       = Some (mkEntry first 2)
    /\ awarded (LotteryApp.selectPrize [grand; first] 2 d) (mkEntry first 2) = true in
  reachable [grand; first] None [A; B; C; D] true standalone
  /\ landsOnAwarded standalone
  /\ landsOnAwarded wired.
Proof.
  cbv zeta. split.
  - apply RunFacts.run_reachable; [apply reachable_new|].
    vm_compute. repeat split; lia.
  - cbv beta. evaluate.
Qed.

End DefectClaims.

(** * Further properties of the code *)

(** ** Saved state of the prize manager *)

Module PersistenceProps.

Import PrizeManagerState.

Lemma clampIndex_bounds index len : clampIndex index len <= len.
Proof. unfold clampIndex. lia. Qed.

Lemma clampIndex_inside c len : c <= len -> clampIndex (Z.of_nat c) len = c.
Proof. unfold clampIndex. lia. Qed.

(** X1.  Whatever integer a saved state holds as [currentIndex], and
    whether or not it brings a list of tiers, [loadState] leaves the cursor
    between 0 and the length of the queue in force: an index inside that
    range is taken as it is, a negative one becomes 0, one past the end
    becomes the length.  When tiers are given the queue is rebuilt from them. *)
Theorem loadState_clamps_cursor
    (tiers : option (list Prize)) (index : Z) (pm : PrizeManager.t) :
  let pm' := loadState (mkSaved tiers (Some index)) pm in
  let len := length (PrizeManager.prizeQueue pm') in
  PrizeManager.currentIndex pm' <= len
  /\ PrizeManager.prizeQueue pm'
     = match tiers with
       | Some prizes => PrizeManager.buildPrizeQueue prizes
       | None => PrizeManager.prizeQueue pm
       end
  /\ ((0 <= index <= Z.of_nat len)%Z -> Z.of_nat (PrizeManager.currentIndex pm') = index)
  /\ ((index < 0)%Z -> PrizeManager.currentIndex pm' = 0)
  /\ ((Z.of_nat len < index)%Z -> PrizeManager.currentIndex pm' = len).
Proof.
  cbv zeta. unfold loadState. simpl.
  destruct tiers as [prizes|]; simpl; unfold clampIndex;
    (split; [lia|]); (split; [reflexivity|]); repeat split; lia.
Qed.

Lemma advanceToNextPrize_consistent pm :
  consistent pm -> consistent (PrizeManager.advanceToNextPrize pm).
Proof.
  unfold consistent, PrizeManager.advanceToNextPrize. intros [Hq Hc].
  destruct (_ <? _) eqn:E; simpl; [|auto].
  apply Nat.ltb_lt in E. split; [assumption|lia].
Qed.

Lemma undoLastPrize_consistent pm :
  consistent pm -> consistent (PrizeManager.undoLastPrize pm).
Proof.
  unfold consistent, PrizeManager.undoLastPrize. intros [Hq Hc].
  destruct (0 <? _); simpl; [|auto]. split; [assumption|lia].
Qed.

(** X2.  A manager whose queue is the expansion of its tiers and whose
    cursor is inside the queue is restored exactly by
    [loadState(getState())], on whatever manager the state is loaded.  The
    constructor gives such a manager, and [setPrizes], [advanceToNextPrize],
    [undoLastPrize] and [reset] keep it one.  [loadState] keeps it one for
    every state that carries a numeric [currentIndex] (with or without
    tiers) and for a state that carries neither; a state with tiers and no
    [currentIndex] rebuilds the queue under the old cursor, so the manager
    stays one exactly when that cursor is not past the end of the new
    queue. *)
Theorem getState_loadState_round_trip
    (pm other : PrizeManager.t) (prizes : list Prize) (Hpm : consistent pm) :
  loadState (getState pm) other = pm
  /\ consistent (PrizeManager.new prizes)
  /\ consistent (PrizeManager.setPrizes prizes pm)
  /\ consistent (PrizeManager.advanceToNextPrize pm)
  /\ consistent (PrizeManager.undoLastPrize pm)
  /\ consistent (PrizeManager.reset pm)
  /\ consistent (loadState (getState pm) other)
  /\ (forall tiers index, consistent (loadState (mkSaved tiers (Some index)) pm))
  /\ consistent (loadState (mkSaved None None) pm)
  /\ (forall tiers,
        consistent (loadState (mkSaved (Some tiers) None) pm)
        <-> PrizeManager.currentIndex pm
            <= length (PrizeManager.buildPrizeQueue tiers)).
Proof.
  assert (loadState (getState pm) other = pm) as Hround.
  { destruct Hpm as [Hq Hc]. unfold loadState, getState. simpl.
    rewrite <- Hq, (clampIndex_inside _ _ Hc). now destruct pm. }
  split; [exact Hround|].
  split; [split; [reflexivity|simpl; lia]|].
  split; [split; [reflexivity|simpl; lia]|].
  split; [now apply advanceToNextPrize_consistent|].
  split; [now apply undoLastPrize_consistent|].
  split; [destruct Hpm as [Hq Hc]; split; [exact Hq|simpl; lia]|].
  split; [rewrite Hround; exact Hpm|].
  split; [|split].
  - intros [tiers|] index; unfold consistent, loadState;
      cbn [saved_originalPrizes saved_currentIndex PrizeManager.originalPrizes
           PrizeManager.prizeQueue PrizeManager.currentIndex].
    + split; [reflexivity|apply clampIndex_bounds].
    + split; [apply Hpm|apply clampIndex_bounds].
  - exact Hpm.
  - intros tiers. unfold consistent, loadState.
    cbn [saved_originalPrizes saved_currentIndex PrizeManager.originalPrizes
         PrizeManager.prizeQueue PrizeManager.currentIndex].
    split; [intros [_ H]; exact H|intros H; split; [reflexivity|exact H]].
Qed.

(** A manager with the cursor on its second of three slots; and a state
    with one tier and no [currentIndex] loaded on a manager whose cursor is at
    3: the queue has one slot, the cursor stays at 3. *)
Lemma getState_loadState_round_trip_witness :
  let pm := PrizeManager.advanceToNextPrize
              (PrizeManager.new [Examples.grand; Examples.first]) in
  let full := PrizeManager.mk [Examples.grand; Examples.first]
                (PrizeManager.buildPrizeQueue [Examples.grand; Examples.first]) 3 in
  (PrizeManager.currentIndex pm = 1 /\ consistent pm /\ consistent full)
  /\ loadState (getState pm) (PrizeManager.new []) = pm
  /\ PrizeManager.currentIndex (loadState (mkSaved (Some [Examples.grand]) None) full) = 3
  /\ length (PrizeManager.prizeQueue
               (loadState (mkSaved (Some [Examples.grand]) None) full)) = 1
  /\ ~ consistent (loadState (mkSaved (Some [Examples.grand]) None) full).
Proof.
  cbv zeta.
  assert (consistent (PrizeManager.advanceToNextPrize
                        (PrizeManager.new [Examples.grand; Examples.first]))) as Hpm.
  { split; [reflexivity|]. vm_compute. lia. }
  assert (consistent (PrizeManager.mk [Examples.grand; Examples.first]
                        (PrizeManager.buildPrizeQueue [Examples.grand; Examples.first])
                        3)) as Hfull.
  { split; [reflexivity|]. vm_compute. lia. }
  split; [split; [reflexivity|split; [exact Hpm|exact Hfull]]|].
  split.
  - apply (getState_loadState_round_trip
             (PrizeManager.advanceToNextPrize
                (PrizeManager.new [Examples.grand; Examples.first]))
             (PrizeManager.new []) [] Hpm).
  - split; [reflexivity|]. split; [reflexivity|].
    intros H.
    apply (getState_loadState_round_trip
             (PrizeManager.mk [Examples.grand; Examples.first]
                (PrizeManager.buildPrizeQueue [Examples.grand; Examples.first]) 3)
             (PrizeManager.new []) [] Hfull) in H.
    vm_compute in H. lia.
Defined.

End PersistenceProps.

(** ** CSV lines: writing and reading back *)

Module CsvProps.

Import Csv.

Lemma includes_false c str :
  includes c str = false <-> forall x, In x str -> Ascii.eqb c x = false.
Proof.
  unfold includes. split.
  - intros H x Hx. destruct (Ascii.eqb c x) eqn:E; [|reflexivity].
    assert (existsb (Ascii.eqb c) str = true) as Ht
      by (apply existsb_exists; eauto).
    congruence.
  - intros H. destruct (existsb _ str) eqn:E; [|reflexivity].
    apply existsb_exists in E. destruct E as (x & Hx & E).
    rewrite (H x Hx) in E. discriminate.
Qed.

Lemma includes_cons_false c x str :
  includes c (x :: str) = false -> Ascii.eqb x c = false /\ includes c str = false.
Proof.
  unfold includes. simpl. intros H. apply orb_false_iff in H.
  destruct H as [H1 H2]. split; [|exact H2].
  now rewrite Ascii.eqb_sym.
Qed.

(** Outside quotes, text without quote or comma is copied to the field. *)
Lemma parse_plain str rest values current :
  includes quote str = false -> includes comma str = false ->
  parseCSVLoop (str ++ rest) values current false
  = parseCSVLoop rest values (current ++ str) false.
Proof.
  revert current. induction str as [|c str IH]; intros current Hq Hc.
  - simpl. now rewrite app_nil_r.
  - apply includes_cons_false in Hq. apply includes_cons_false in Hc.
    destruct Hq as [Hq Hq']. destruct Hc as [Hc Hc'].
    simpl. rewrite Hq, Hc. rewrite IH by assumption.
    now rewrite <- app_assoc.
Qed.

(** Inside quotes, the escaped text up to its closing quote gives the text
    back, provided the closing quote is not followed by another quote. *)
Lemma parse_quoted str rest values current :
  (match rest with [] => True | c :: _ => Ascii.eqb c quote = false end) ->
  parseCSVLoop (doubleQuotes str ++ quote :: rest) values current true
  = parseCSVLoop rest values (current ++ str) false.
Proof.
  intros Hrest. revert current. induction str as [|c str IH]; intros current.
  - cbn [doubleQuotes app parseCSVLoop]. rewrite Ascii.eqb_refl, app_nil_r.
    destruct rest as [|c rest]; [reflexivity|]. now rewrite Hrest.
  - cbn [doubleQuotes]. destruct (Ascii.eqb c quote) eqn:E.
    + apply Ascii.eqb_eq in E. subst c.
      cbn [app parseCSVLoop]. rewrite Ascii.eqb_refl.
      rewrite IH. now rewrite <- app_assoc.
    + cbn [app parseCSVLoop]. rewrite E. rewrite IH. now rewrite <- app_assoc.
Qed.

Lemma parse_field field rest values current :
  (match rest with [] => True | c :: _ => c = comma end) ->
  parseCSVLoop (escapeCSVField (Some field) ++ rest) values current false
  = parseCSVLoop rest values (current ++ field) false.
Proof.
  intros Hrest. unfold escapeCSVField.
  destruct (includes comma field) eqn:Hc; simpl.
  - rewrite <- app_assoc. simpl. apply parse_quoted.
    destruct rest as [|c rest]; [exact I|]. now subst c.
  - destruct (includes quote field) eqn:Hq; simpl.
    + rewrite <- app_assoc. simpl. apply parse_quoted.
      destruct rest as [|c rest]; [exact I|]. now subst c.
    + destruct (includes lineFeed field || includes carriageReturn field); simpl.
      * rewrite <- app_assoc. simpl. apply parse_quoted.
        destruct rest as [|c rest]; [exact I|]. now subst c.
      * now apply parse_plain.
Qed.

Lemma parse_fields fields field values :
  parseCSVLoop (join [comma] (map escapeCSVField (map Some (field :: fields))))
    values [] false
  = values ++ field :: fields.
Proof.
  revert field values. induction fields as [|g fields IH]; intros field values.
  - cbn [map join]. rewrite <- (app_nil_r (escapeCSVField (Some field))).
    rewrite parse_field by exact I. reflexivity.
  - change (join [comma] (map escapeCSVField (map Some (field :: g :: fields))))
      with (escapeCSVField (Some field)
            ++ comma :: join [comma] (map escapeCSVField (map Some (g :: fields)))).
    rewrite parse_field by reflexivity.
    cbn [parseCSVLoop app]. change (Ascii.eqb comma quote) with false.
    rewrite Ascii.eqb_refl. cbv iota.
    rewrite IH, <- app_assoc. reflexivity.
Qed.

(** X3.  Reading back a line that was written field by field with
    [escapeCSVField] and joined with commas gives the fields again, whatever
    characters they hold (commas, quotes, line breaks). *)
Theorem parseCSVLine_reads_back_escaped_fields (field : text) (fields : list text) :
  parseCSVLine (csvLine (map Some (field :: fields))) = field :: fields.
Proof. unfold parseCSVLine, csvLine. apply parse_fields. Qed.

Lemma join_snoc (sep x : text) (parts : list text) :
  parts <> [] -> join sep (parts ++ [x]) = join sep parts ++ sep ++ x.
Proof.
  induction parts as [|p parts IH]; intros H; [contradiction|].
  destruct parts as [|q parts].
  - reflexivity.
  - change (join sep ((p :: q :: parts) ++ [x]))
      with (p ++ sep ++ join sep ((q :: parts) ++ [x])).
    rewrite IH by discriminate.
    change (join sep (p :: q :: parts)) with (p ++ sep ++ join sep (q :: parts)).
    now rewrite <- !app_assoc.
Qed.

Lemma join_last_app (sep x y : text) (parts : list text) :
  join sep (parts ++ [x ++ y]) = join sep (parts ++ [x]) ++ y.
Proof.
  destruct parts as [|p parts].
  - reflexivity.
  - rewrite !(join_snoc sep _ (p :: parts)) by discriminate.
    now rewrite <- !app_assoc.
Qed.

Lemma parse_unquoted line values current :
  includes quote line = false ->
  join [comma] (parseCSVLoop line values current false)
  = join [comma] (values ++ [current]) ++ line
  /\ length (parseCSVLoop line values current false)
     = length values + 1 + length (filter (Ascii.eqb comma) line).
Proof.
  revert values current. induction line as [|c line IH]; intros values current Hq.
  - simpl. rewrite app_nil_r, length_app. simpl. split; [reflexivity|lia].
  - apply includes_cons_false in Hq. destruct Hq as [Hq Hq'].
    cbn [parseCSVLoop filter]. rewrite Hq.
    destruct (Ascii.eqb c comma) eqn:Hc.
    + apply Ascii.eqb_eq in Hc. subst c. rewrite Ascii.eqb_refl.
      destruct (IH (values ++ [current]) [] Hq') as [-> ->]. split.
      * rewrite join_snoc by (destruct values; discriminate).
        now rewrite <- app_assoc.
      * rewrite length_app. simpl. lia.
    + rewrite Ascii.eqb_sym, Hc.
      destruct (IH values (current ++ [c]) Hq') as [-> ->]. split.
      * rewrite join_last_app, <- app_assoc. reflexivity.
      * reflexivity.
Qed.

(** X4.  A line without quote characters is cut at its commas and nowhere
    else: joining the values read with commas gives the line back, and there
    is one value more than there are commas (an empty line gives one empty
    value). *)
Theorem parseCSVLine_cuts_at_commas (line : text)
    (Hunquoted : includes quote line = false) :
  join [comma] (parseCSVLine line) = line
  /\ length (parseCSVLine line) = 1 + length (filter (Ascii.eqb comma) line).
Proof.
  unfold parseCSVLine.
  destruct (parse_unquoted line [] [] Hunquoted) as [-> ->]. auto.
Qed.

Lemma parseCSVLine_cuts_at_commas_witness :
  let line := list_ascii_of_string "A001,Nguyen Van A,,x" in
  parseCSVLine line
  = map list_ascii_of_string ["A001"; "Nguyen Van A"; ""; "x"]
  /\ join [comma] (parseCSVLine line) = line
  /\ length (parseCSVLine line) = 1 + length (filter (Ascii.eqb comma) line).
Proof.
  cbv zeta. split; [reflexivity|].
  apply (parseCSVLine_cuts_at_commas (list_ascii_of_string "A001,Nguyen Van A,,x")).
  reflexivity.
Defined.

End CsvProps.

(** ** The digits on the reels *)

Module ReelsProps.

Import Reels.

Lemma decimal_from digits acc :
  fold_left (fun a d => 10 * a + d) digits acc
  = acc * 10 ^ length digits + decimal digits.
Proof.
  unfold decimal. revert acc. induction digits as [|d digits IH]; intros acc.
  - simpl. lia.
  - cbn [fold_left List.length]. rewrite IH, (IH (10 * 0 + d)).
    rewrite Nat.pow_succ_r'. ring.
Qed.

Lemma decimal_app front back :
  decimal (front ++ back) = decimal front * 10 ^ length back + decimal back.
Proof.
  unfold decimal at 1. rewrite fold_left_app, decimal_from. reflexivity.
Qed.

Lemma decimal_bound digits :
  Forall (fun d => d < 10) digits -> decimal digits < 10 ^ length digits.
Proof.
  induction digits as [|d digits IH] using rev_ind; intros H.
  - cbv. lia.
  - apply Forall_app in H. destruct H as [H Hd]. inversion Hd; subst.
    rewrite decimal_app, length_app. cbn [List.length].
    specialize (IH H). change (10 ^ 1) with 10.
    rewrite Nat.add_1_r, Nat.pow_succ_r'.
    change (decimal [d]) with (10 * 0 + d). lia.
Qed.

Lemma decimal_zeros n digits :
  decimal (repeat 0 n ++ digits) = decimal digits.
Proof.
  rewrite decimal_app.
  assert (decimal (repeat 0 n) = 0) as ->; [|reflexivity].
  induction n as [|n IH]; [reflexivity|].
  change (repeat 0 (S n)) with ([0] ++ repeat 0 n).
  rewrite decimal_app, IH. reflexivity.
Qed.

Lemma digitValue_digit c : isDigit c = true -> digitValue c < 10.
Proof.
  unfold isDigit, digitValue. intros H. apply andb_prop in H.
  destruct H as [H1 H2]. apply Nat.leb_le in H1, H2. lia.
Qed.

Lemma sliceLast_length {A : Type} n (l : list A) :
  length (sliceLast n l) = Nat.min n (length l).
Proof. unfold sliceLast. rewrite length_skipn. lia. Qed.

(** X5.  Whatever the id, the reels are given six digits, each from 0 to 9;
    read as a number they are the number formed by all the digit characters
    of the id, in order, modulo one million.  Characters that are not digits,
    and digits before the last six, do not show. *)
Theorem parseIdToDigits_shows_last_six_digits (id : string) :
  length (parseIdToDigits id) = 6
  /\ Forall (fun d => d < 10) (parseIdToDigits id)
  /\ decimal (parseIdToDigits id)
     = decimal (map digitValue (filter isDigit (list_ascii_of_string id)))
       mod 10 ^ 6.
Proof.
  unfold parseIdToDigits, padStart, reelCount.
  set (digits := filter isDigit (list_ascii_of_string id)).
  assert (Forall (fun c => isDigit c = true) digits) as Hdigits.
  { apply Forall_forall. intros c Hc. apply filter_In in Hc. apply Hc. }
  assert (Forall (fun c => isDigit c = true) (sliceLast 6 digits)) as Hlast.
  { apply Forall_forall. intros c Hc. rewrite Forall_forall in Hdigits.
    apply Hdigits. unfold sliceLast in Hc.
    rewrite <- (firstn_skipn (length digits - 6) digits).
    apply in_or_app. now right. }
  pose proof (sliceLast_length 6 digits) as Hlen.
  rewrite map_app, map_repeat.
  change (digitValue (Ascii.ascii_of_nat 48)) with 0.
  split; [|split].
  - rewrite length_app, repeat_length, length_map. lia.
  - apply Forall_app. split.
    + apply Forall_forall. intros d Hd. apply repeat_spec in Hd. lia.
    + apply Forall_forall. intros d Hd. apply in_map_iff in Hd.
      destruct Hd as (c & <- & Hc). rewrite Forall_forall in Hlast.
      apply digitValue_digit, Hlast, Hc.
  - rewrite decimal_zeros.
    assert (Forall (fun d => d < 10) (map digitValue (sliceLast 6 digits))) as Hb.
    { apply Forall_forall. intros d Hd. apply in_map_iff in Hd.
      destruct Hd as (c & <- & Hc). rewrite Forall_forall in Hlast.
      apply digitValue_digit, Hlast, Hc. }
    apply decimal_bound in Hb. rewrite length_map, Hlen in Hb.
    rewrite <- (firstn_skipn (length digits - 6) digits) at 2.
    fold (sliceLast 6 digits).
    rewrite map_app, decimal_app, length_map, Hlen.
    destruct (Nat.le_gt_cases 6 (length digits)) as [Hge|Hlt].
    + rewrite Nat.min_l in * by exact Hge.
      rewrite Nat.add_comm, Nat.Div0.mod_add.
      symmetry. now apply Nat.mod_small.
    + rewrite Nat.min_r in * by lia.
      replace (length digits - 6) with 0 by lia.
      simpl firstn. simpl map at 1. change (decimal []) with 0.
      rewrite Nat.mul_0_l, Nat.add_0_l.
      symmetry. apply Nat.mod_small.
      eapply Nat.lt_le_trans; [exact Hb|].
      apply Nat.pow_le_mono_r; lia.
Qed.

End ReelsProps.

(** ** The legacy carousel *)

Module CarouselProps.

Import Carousel.

Lemma wrap_is_modulo (a len : Z) :
  (0 < len)%Z -> Z.rem (Z.rem a len + len) len = (a mod len)%Z.
Proof.
  intros Hlen.
  pose proof (Z.rem_bound_abs a len ltac:(lia)) as Hb.
  pose proof (Z.quot_rem' a len) as Hq.
  rewrite Z.rem_mod_nonneg by lia.
  replace (Z.rem a len + len)%Z with (a + (1 - Z.quot a len) * len)%Z by lia.
  apply Z.mod_add. lia.
Qed.

(** X6.  With participants on the carousel, the index [updateCards]
    computes for any card is that of the participant as many places around
    the ring from the current one as the card is from the centre (the
    mathematical modulo: never negative, never past the end), so every card
    is given a participant. *)
Theorem cardIndex_wraps_around (i : nat) (c : t)
    (Hsome : participants c <> []) :
  let len := Z.of_nat (length (participants c)) in
  (0 <= cardIndex i c < len)%Z
  /\ cardIndex i c = ((Z.of_nat (currentIndex c) + Z.of_nat i - 2) mod len)%Z
  /\ exists p, cardParticipant i c = Some p /\ In p (participants c).
Proof.
  cbv zeta.
  assert (0 < Z.of_nat (length (participants c)))%Z as Hlen.
  { destruct (participants c); [contradiction|]. simpl. lia. }
  assert (cardIndex i c
          = ((Z.of_nat (currentIndex c) + Z.of_nat i - 2)
             mod Z.of_nat (length (participants c)))%Z) as Hidx.
  { unfold cardIndex. cbv zeta. change (Z.of_nat (visibleCount / 2)) with 2%Z.
    rewrite wrap_is_modulo by exact Hlen. f_equal. lia. }
  pose proof (Z.mod_pos_bound
                (Z.of_nat (currentIndex c) + Z.of_nat i - 2)
                (Z.of_nat (length (participants c))) Hlen) as Hbound.
  rewrite <- Hidx in Hbound.
  split; [exact Hbound|]. split; [exact Hidx|].
  unfold cardParticipant.
  destruct (length (participants c) =? 0) eqn:E.
  { apply Nat.eqb_eq in E. lia. }
  destruct (nth_error (participants c) (Z.to_nat (cardIndex i c))) as [p|] eqn:Hp.
  - exists p. split; [reflexivity|]. eapply nth_error_In, Hp.
  - apply nth_error_None in Hp. lia.
Qed.

Lemma cardIndex_wraps_around_witness :
  let c := mk [Examples.A; Examples.B; Examples.C] false 0 in
  map (fun i => cardParticipant i c) [0; 1; 2; 3; 4]
  = map Some [Examples.B; Examples.C; Examples.A; Examples.B; Examples.C]
  /\ (0 <= cardIndex 0 c < 3)%Z
  /\ cardIndex 0 c = ((0 + 0 - 2) mod 3)%Z
  /\ exists p, cardParticipant 0 c = Some p /\ In p (participants c).
Proof.
  cbv zeta. split; [reflexivity|].
  apply (cardIndex_wraps_around 0 (mk [Examples.A; Examples.B; Examples.C] false 0)).
  discriminate.
Defined.

(** The cursor of the carousel is on a participant, or 0 when there is none. *)
Lemma setParticipants_in_range ps c :
  currentIndex (setParticipants ps c) < Nat.max 1 (length ps).
Proof.
  unfold setParticipants. cbn [currentIndex].
  destruct (length ps <=? currentIndex c) eqn:E.
  - lia.
  - apply Nat.leb_gt in E. lia.
Qed.

(** X7.  The current index of the carousel never points past its
    participants: the constructor and [setParticipants] establish it, and
    [removeParticipant] and [addParticipant] keep it, the former by moving
    the index to the last participant when the one removed leaves it
    dangling. *)
Theorem carousel_index_stays_in_range (ps : list Participant) (pid : string)
    (participant : Participant) (c : t)
    (Hrange : currentIndex c < Nat.max 1 (length (participants c))) :
  currentIndex (new ps) < Nat.max 1 (length (participants (new ps)))
  /\ currentIndex (setParticipants ps c)
     < Nat.max 1 (length (participants (setParticipants ps c)))
  /\ currentIndex (snd (removeParticipant pid c))
     < Nat.max 1 (length (participants (snd (removeParticipant pid c))))
  /\ currentIndex (snd (addParticipant participant c))
     < Nat.max 1 (length (participants (snd (addParticipant participant c)))).
Proof.
  split; [cbn [new currentIndex participants]; lia|].
  split; [apply setParticipants_in_range|]. split.
  - unfold removeParticipant.
    destruct (findIndex _ _) as [index|]; cbn [snd currentIndex participants];
      [|exact Hrange].
    destruct (length (splice1 index (participants c)) =? 0) eqn:E0; [lia|].
    apply Nat.eqb_neq in E0.
    destruct (length (splice1 index (participants c)) <=? currentIndex c) eqn:E1.
    + lia.
    + apply Nat.leb_gt in E1. lia.
  - unfold addParticipant.
    destruct (existsb _ _); cbn [snd currentIndex participants]; [exact Hrange|].
    rewrite length_app. cbn [List.length]. lia.
Qed.

Lemma carousel_index_stays_in_range_witness :
  let c := mk [Examples.A; Examples.B; Examples.C] false 2 in
  snd (removeParticipant "C" c) = mk [Examples.A; Examples.B] false 1
  /\ currentIndex (snd (removeParticipant "C" c))
     < Nat.max 1 (length (participants (snd (removeParticipant "C" c)))).
Proof.
  cbv zeta. split; [reflexivity|].
  apply (carousel_index_stays_in_range [] "C" Examples.A
           (mk [Examples.A; Examples.B; Examples.C] false 2)).
  cbn [currentIndex participants List.length]. lia.
Defined.

End CarouselProps.

(** ** From the CSV import to the queue *)

Module ImportProps.

Import PrizeManager.

Lemma validPrize_bounds p :
  AdminPanel.validPrize p = true ->
  (0 < id p)%Z /\ (1 <= quantity p <= 1000)%Z.
Proof.
  unfold AdminPanel.validPrize. intros H.
  repeat (apply andb_prop in H; destruct H as [H ?]).
  repeat match goal with
         | X : (_ <? _)%Z = true |- _ => apply Z.ltb_lt in X
         | X : (_ <=? _)%Z = true |- _ => apply Z.leb_le in X
         end.
  lia.
Qed.

Lemma sumQuantity_bounds prizes :
  Forall (fun p => (1 <= quantity p <= 1000)%Z) prizes ->
  (Z.of_nat (length prizes) <= sumQuantity prizes <= 1000 * Z.of_nat (length prizes))%Z.
Proof.
  induction 1 as [|p l Hp Hl IH]; cbn [sumQuantity fold_right List.length].
  - lia.
  - fold (sumQuantity l). lia.
Qed.

(** X8.  A list of tiers that the CSV import accepts is handed on unchanged,
    and the queue built from it has one slot per prize: its length is the sum
    of the quantities, at least the number of tiers and at most a thousand
    times that, and every slot carries a tier of the list with a positive id
    and an instance number between 1 and the tier's quantity. *)
Theorem imported_tiers_build_a_full_queue (data accepted : list Prize)
    (Haccepted : AdminPanel.importPrizes data = Some accepted) :
  accepted = data
  /\ Z.of_nat (length (buildPrizeQueue accepted)) = sumQuantity accepted
  /\ (Z.of_nat (length data) <= Z.of_nat (length (buildPrizeQueue accepted))
      <= 1000 * Z.of_nat (length data))%Z
  /\ length data <= AdminPanel.MAX_ITEMS
  /\ buildPrizeQueue accepted <> []
  /\ Forall (fun e => In (tier e) data
                      /\ (0 < id (tier e))%Z
                      /\ (1 <= instance e <= quantity (tier e))%Z)
            (buildPrizeQueue accepted).
Proof.
  unfold AdminPanel.importPrizes in Haccepted.
  destruct (length data =? 0) eqn:E0; [discriminate|].
  destruct (AdminPanel.MAX_ITEMS <? length data) eqn:Emax; [discriminate|].
  destruct (forallb AdminPanel.validPrize data) eqn:Evalid; [|discriminate].
  inversion Haccepted; subst accepted. clear Haccepted.
  apply Nat.eqb_neq in E0. apply Nat.ltb_ge in Emax.
  rewrite forallb_forall in Evalid.
  assert (Forall (fun p => (0 < id p)%Z /\ (1 <= quantity p <= 1000)%Z) data) as Hb.
  { apply Forall_forall. intros p Hp. apply validPrize_bounds, Evalid, Hp. }
  assert (Z.of_nat (length (buildPrizeQueue data)) = sumQuantity data) as Hlen.
  { rewrite PrizeQueueFacts.length_buildPrizeQueue.
    apply PrizeQueueFacts.totalQuantity_sumQuantity.
    eapply Forall_impl; [|exact Hb]. simpl. intros; lia. }
  assert (Z.of_nat (length data) <= sumQuantity data
          <= 1000 * Z.of_nat (length data))%Z as Hsum.
  { apply sumQuantity_bounds. eapply Forall_impl; [|exact Hb]. simpl. tauto. }
  split; [reflexivity|]. split; [exact Hlen|]. split; [lia|]. split; [exact Emax|].
  split.
  - intros Hnil. rewrite Hnil in Hlen. simpl in Hlen. lia.
  - rewrite PrizeQueueFacts.buildPrizeQueue_flat_map.
    apply Forall_forall. intros e He. apply in_flat_map in He.
    destruct He as (p & Hp & He).
    apply (Permutation_in _ (PrizeQueueFacts.sortByIdDesc_perm data)) in Hp.
    rewrite Forall_forall in Hb. destruct (Hb p Hp) as [Hid Hq].
    unfold instances in He. apply in_map_iff in He.
    destruct He as (k & <- & Hk). apply in_seq in Hk. simpl.
    split; [exact Hp|]. split; [exact Hid|]. lia.
Qed.

Lemma imported_tiers_build_a_full_queue_witness :
  let data := [Examples.grand; Examples.first; Examples.second] in
  (utf16Length (name Examples.second) = 9
   /\ String.length (name Examples.second) = 13)
  /\ AdminPanel.importPrizes data = Some data
  /\ Z.of_nat (length (buildPrizeQueue data)) = sumQuantity data
  /\ (Z.of_nat (length data) <= Z.of_nat (length (buildPrizeQueue data))
      <= 1000 * Z.of_nat (length data))%Z.
Proof.
  cbv zeta. split; [split; reflexivity|]. split; [reflexivity|].
  destruct (imported_tiers_build_a_full_queue
              [Examples.grand; Examples.first; Examples.second]
              [Examples.grand; Examples.first; Examples.second]
              eq_refl) as (_ & H1 & H2 & _).
  split; [exact H1|exact H2].
Defined.

End ImportProps.

(** ** One spin, from start to confirmation *)

Module SpinProps.

Import DrawManager Session SessionSpec.

(** X9.  A second stop request during the same spin picks no new winner:
    whatever indices the two requests draw, the second leaves orchestrator and
    slot machine exactly as the first left them. *)
Theorem stopSpin_twice_keeps_first_pick (first second : nat) (d : DrawManager.t) :
  stopSpin second (stopSpin first d) = stopSpin first d
  /\ SlotMachine.stop second (SlotMachine.stop first (slotMachine d))
     = SlotMachine.stop first (slotMachine d).
Proof.
  assert (forall sm,
            SlotMachine.stop second (SlotMachine.stop first sm)
            = SlotMachine.stop first sm) as Hstop.
  { intros sm. unfold SlotMachine.stop.
    destruct (negb (SlotMachine.isSpinning sm) || SlotMachine.stopRequested sm) eqn:E.
    - now rewrite E.
    - apply orb_false_iff in E. destruct E as [E _].
      cbn [SlotMachine.isSpinning SlotMachine.stopRequested].
      rewrite E. reflexivity. }
  split; [|apply Hstop].
  unfold stopSpin.
  destruct (negb (STATE_eqb (state d) SPINNING)) eqn:E.
  - now rewrite E.
  - cbn [state withSlotMachine slotMachine]. rewrite E, Hstop. reflexivity.
Qed.

(** X10.  From a state in which a draw is legal and the slot machine is at
    rest, the cycle start, stop on index [r] of the pool, animation frame,
    reveal ends in phase STOPPED with the participant at that index as the
    pending winner, the slot machine at rest again, and ledger, prize
    manager and pool untouched. *)
Theorem spin_cycle_selects_pool_member (r : nat) (w : Participant) (d : DrawManager.t)
    (Hguard : startSpinGuard d = true)
    (Hidle : idle (slotMachine d))
    (Hpick : nth_error (pool d) r = Some w) :
  let d' := revealTimer (animationFrame (stopSpin r (startSpin d))) in
  state d' = STOPPED
  /\ pendingWinner d' = Some w
  /\ In w (pool d')
  /\ pool d' = pool d
  /\ ledger d' = ledger d
  /\ prizeManager d' = prizeManager d
  /\ idle (slotMachine d').
Proof.
  cbv zeta. destruct Hidle as (Hspin & Hframes & Htimers).
  unfold pool in Hpick.
  pose proof Hguard as Hg. unfold startSpinGuard in Hg.
  apply andb_prop in Hg. destruct Hg as [Hg Hhas].
  apply andb_prop in Hg. destruct Hg as [Hready Hnc].
  apply negb_true_iff in Hnc.
  rewrite (OrchestratorFacts.startSpin_allowed d Hguard), Hspin.
  assert (forall st pw sm,
            SlotMachine.participants sm = SlotMachine.participants (slotMachine d) ->
            updateButtons (mk sm (prizeManager d) (winnerManager d) st pw (actionButtons d))
            = mk sm (prizeManager d) (winnerManager d) st pw (actionButtons d)) as Hbuttons.
  { intros st pw sm Hsm. unfold updateButtons, isComplete, SlotMachine.hasParticipants.
    cbn [actionButtons prizeManager winnerManager slotMachine].
    unfold isComplete in Hnc. unfold SlotMachine.hasParticipants in Hhas.
    rewrite Hsm, Hnc, Hhas. now destruct (negb (actionButtons d)). }
  unfold SlotMachine.startSpin. rewrite Hspin.
  apply Nat.ltb_lt in Hhas. unfold SlotMachine.hasParticipants in Hhas.
  destruct (length (SlotMachine.participants (slotMachine d)) =? 0) eqn:E0.
  { apply Nat.eqb_eq in E0.
    unfold SlotMachine.hasParticipants in *. rewrite E0 in Hhas. lia. }
  cbn [orb snd]. unfold withState, withSlotMachine.
  cbn [slotMachine prizeManager winnerManager state pendingWinner actionButtons].
  rewrite Hbuttons by reflexivity.
  unfold stopSpin. cbn [state STATE_eqb negb slotMachine withSlotMachine
                          prizeManager winnerManager pendingWinner actionButtons].
  unfold SlotMachine.stop, SlotMachine.requestCheckStop.
  cbn [SlotMachine.isSpinning SlotMachine.stopRequested negb orb
       SlotMachine.participants SlotMachine.currentWinner SlotMachine.animationId
       SlotMachine.frameCallbacks SlotMachine.nextHandle SlotMachine.revealTimers
       SlotMachine.pendingWinner].
  rewrite Hpick, Hframes, Htimers.
  unfold animationFrame, SlotMachine.animationFrame.
  cbn [slotMachine withSlotMachine prizeManager winnerManager state pendingWinner
       actionButtons SlotMachine.frameCallbacks app fold_left
       SlotMachine.isSpinning SlotMachine.stopRequested
       SlotMachine.participants SlotMachine.currentWinner SlotMachine.animationId
       SlotMachine.nextHandle SlotMachine.revealTimers SlotMachine.pendingWinner].
  unfold SlotMachine.checkStop, SlotMachine.finishSpin.
  cbn [SlotMachine.isSpinning SlotMachine.stopRequested
       SlotMachine.participants SlotMachine.currentWinner SlotMachine.animationId
       SlotMachine.frameCallbacks SlotMachine.nextHandle SlotMachine.revealTimers
       SlotMachine.pendingWinner].
  unfold revealTimer, SlotMachine.reveal, onSpinComplete.
  cbn [slotMachine withSlotMachine prizeManager winnerManager state pendingWinner
       actionButtons withState withPendingWinner Nat.eqb
       SlotMachine.isSpinning SlotMachine.stopRequested
       SlotMachine.participants SlotMachine.currentWinner SlotMachine.animationId
       SlotMachine.frameCallbacks SlotMachine.nextHandle SlotMachine.revealTimers
       SlotMachine.pendingWinner].
  unfold withState, withPendingWinner, withSlotMachine.
  cbn [slotMachine prizeManager winnerManager state pendingWinner actionButtons].
  rewrite Hbuttons by reflexivity.
  unfold pool, ledger, idle.
  cbn [slotMachine prizeManager winnerManager state pendingWinner actionButtons
       SlotMachine.isSpinning SlotMachine.participants SlotMachine.frameCallbacks
       SlotMachine.revealTimers Nat.sub].
  repeat split; try reflexivity.
  eapply nth_error_In, Hpick.
Qed.

Lemma spin_cycle_selects_pool_member_witness :
  let d' := revealTimer (animationFrame (stopSpin 1 (startSpin Examples.fresh))) in
  state d' = STOPPED
  /\ pendingWinner d' = Some Examples.B
  /\ In Examples.B (pool d')
  /\ pool d' = pool Examples.fresh
  /\ ledger d' = ledger Examples.fresh
  /\ prizeManager d' = prizeManager Examples.fresh
  /\ idle (slotMachine d').
Proof.
  apply (spin_cycle_selects_pool_member 1 Examples.B Examples.fresh).
  - vm_compute. reflexivity.
  - vm_compute. auto.
  - vm_compute. reflexivity.
Defined.

(** X11.  Confirming is legal once per report: when a call of
    [confirmWinner] returns, a second call right after it returns the same
    state, whatever the time passed to it, for every listener that leaves the
    pending winner alone. *)
Theorem confirmWinner_twice_is_confirm_once
    (h : option (DrawManager.t -> DrawManager.t)) (now later : Z)
    (d d1 : DrawManager.t)
    (Hlistener : keepsPool h)
    (Hfirst : confirmWinner h now d = Returns d1) :
  confirmWinner h later d1 = Returns d1.
Proof.
  unfold confirmWinner in Hfirst.
  destruct (STATE_eqb (state d) STOPPED) eqn:Es.
  - destruct (pendingWinner d) as [w|] eqn:Ew.
    + destruct (WinnerManager.addWinner w _ now (winnerManager d)) as [wm|];
        [|discriminate].
      inversion Hfirst; subst d1. clear Hfirst.
      unfold confirmWinner.
      destruct (PoolInvariant.notify_pool h Hlistener
                  (updateUI (withState READY (confirmEffect w wm d)))) as [_ Hpw].
      rewrite Hpw.
      destruct (OrchestratorFacts.updateUI_views
                  (withState READY (confirmEffect w wm d))) as (_ & _ & _ & ->).
      change (pendingWinner (withState READY (confirmEffect w wm d)))
        with (@None Participant).
      destruct (STATE_eqb (state (notify h _)) STOPPED); reflexivity.
    + inversion Hfirst; subst d1. unfold confirmWinner. now rewrite Es, Ew.
  - inversion Hfirst; subst d1. unfold confirmWinner. now rewrite Es.
Qed.

Lemma confirmWinner_twice_is_confirm_once_witness :
  let stopped := run [Examples.grand; Examples.first] None
                   [StartSpin; StopSpin 0; AnimationFrame; RevealTimer]
                   Examples.fresh in
  let confirmed := after (confirmWinner None 7 stopped) in
  (state stopped = STOPPED /\ length (ledger confirmed) = 1)
  /\ confirmWinner None 8 confirmed = Returns confirmed.
Proof.
  cbv zeta. split; [evaluate|].
  apply (confirmWinner_twice_is_confirm_once None 7 8
           (run [Examples.grand; Examples.first] None
              [StartSpin; StopSpin 0; AnimationFrame; RevealTimer] Examples.fresh)).
  - intros f Hf. discriminate Hf.
  - vm_compute. reflexivity.
Defined.

(** X12.  [respin] gives up the pending winner and nothing else: outside
    phase STOPPED it does nothing; in STOPPED it leaves ledger, prize manager
    and pool as they are, clears the pending winner on both objects, puts the
    slot machine out of its spin, and sets the phase to READY (COMPLETE when
    the buttons are refreshed with nothing left to draw).  In either case a
    [confirmWinner] that follows does nothing. *)
Theorem respin_discards_only_the_pending_winner
    (h : option (DrawManager.t -> DrawManager.t)) (now : Z) (d : DrawManager.t) :
  (STATE_eqb (state d) STOPPED = false -> respin d = d)
  /\ (state d = STOPPED ->
      pendingWinner (respin d) = None
      /\ SlotMachine.pendingWinner (slotMachine (respin d)) = None
      /\ SlotMachine.isSpinning (slotMachine (respin d)) = false
      /\ SlotMachine.stopRequested (slotMachine (respin d)) = false
      /\ (state (respin d) = READY \/ state (respin d) = COMPLETE))
  /\ ledger (respin d) = ledger d
  /\ prizeManager (respin d) = prizeManager d
  /\ pool (respin d) = pool d
  /\ confirmWinner h now (respin d) = Returns (respin d).
Proof.
  assert (state d = STOPPED ->
          respin d
          = updateButtons
              (withState READY
                 (withSlotMachine
                    (SlotMachine.reset
                       (SlotMachine.clearPendingWinner (slotMachine d)))
                    (withPendingWinner None d)))) as Hin.
  { intros Hs. unfold respin. now rewrite Hs. }
  assert (STATE_eqb (state d) STOPPED = false -> respin d = d) as Hout.
  { intros Hs. unfold respin. now rewrite Hs. }
  destruct (STATE_eqb (state d) STOPPED) eqn:Es.
  - apply DrawFacts.STATE_eqb_eq in Es. specialize (Hin Es).
    pose proof (DrawFacts.updateButtons_frame
                  (withState READY
                     (withSlotMachine
                        (SlotMachine.reset
                           (SlotMachine.clearPendingWinner (slotMachine d)))
                        (withPendingWinner None d)))) as (Hsm & Hpm & Hwm & Hpw & _).
    pose proof (DrawFacts.updateButtons_state
                  (withState READY
                     (withSlotMachine
                        (SlotMachine.reset
                           (SlotMachine.clearPendingWinner (slotMachine d)))
                        (withPendingWinner None d)))) as Hstate.
    rewrite <- Hin in Hsm, Hpm, Hwm, Hpw, Hstate.
    assert (SlotMachine.participants
              (SlotMachine.reset (SlotMachine.clearPendingWinner (slotMachine d)))
            = SlotMachine.participants (slotMachine d)) as Hpool.
    { unfold SlotMachine.reset, SlotMachine.clearPendingWinner,
        SlotMachine.cancelAnimationFrame.
      cbn [SlotMachine.animationId]. now destruct (_ =? 0). }
    split; [discriminate|]. split.
    + intros _. rewrite Hpw, Hsm.
      cbn [pendingWinner withState withSlotMachine withPendingWinner slotMachine].
      unfold SlotMachine.reset. cbn [SlotMachine.pendingWinner
        SlotMachine.isSpinning SlotMachine.stopRequested].
      repeat split. cbn [state withState] in Hstate. exact Hstate.
    + unfold ledger, pool. rewrite Hwm, Hpm, Hsm.
      cbn [winnerManager prizeManager slotMachine withState withSlotMachine
           withPendingWinner].
      rewrite Hpool. repeat split.
      unfold confirmWinner. rewrite Hpw.
      cbn [pendingWinner withState withSlotMachine withPendingWinner].
      now destruct (STATE_eqb _ STOPPED).
  - rewrite (Hout eq_refl). split; [reflexivity|]. split.
    + intros Hs. rewrite Hs in Es. discriminate.
    + repeat split. unfold confirmWinner. now rewrite Es.
Qed.

End SpinProps.

(** ** The cursor stays inside the queue *)

Module CursorProps.

Import DrawManager Session SessionSpec.

(** The queue is the expansion of the configured tiers and the cursor is
    not past its end. *)
Lemma inQueue_ext prizes d d' :
  prizeManager d' = prizeManager d ->
  PrizeManagerState.consistent (prizeManager d)
  /\ PrizeManager.originalPrizes (prizeManager d) = prizes ->
  PrizeManagerState.consistent (prizeManager d')
  /\ PrizeManager.originalPrizes (prizeManager d') = prizes.
Proof. now intros ->. Qed.

Lemma updateButtons_prizeManager d :
  prizeManager (updateButtons d) = prizeManager d.
Proof. apply DrawFacts.updateButtons_frame. Qed.

Lemma updateUI_prizeManager d : prizeManager (updateUI d) = prizeManager d.
Proof. apply OrchestratorFacts.updateUI_views. Qed.

Lemma startSpin_prizeManager d : prizeManager (startSpin d) = prizeManager d.
Proof.
  unfold startSpin.
  destruct (negb (STATE_eqb (state d) READY)); [reflexivity|].
  destruct (isComplete d); [reflexivity|].
  destruct (negb (SlotMachine.hasParticipants (slotMachine d))); [reflexivity|].
  destruct (SlotMachine.startSpin (slotMachine d)) as [[|] sm]; [|reflexivity].
  now rewrite updateButtons_prizeManager.
Qed.

Lemma stopSpin_prizeManager r d : prizeManager (stopSpin r d) = prizeManager d.
Proof. unfold stopSpin. now destruct (negb _). Qed.

Lemma revealTimer_prizeManager d : prizeManager (revealTimer d) = prizeManager d.
Proof.
  unfold revealTimer. destruct (_ =? 0); [reflexivity|].
  unfold onSpinComplete. cbn [SlotMachine.reveal SlotMachine.pendingWinner].
  destruct (SlotMachine.pendingWinner (slotMachine d)); [|reflexivity].
  now rewrite updateButtons_prizeManager.
Qed.

Lemma respin_prizeManager d : prizeManager (respin d) = prizeManager d.
Proof.
  unfold respin. destruct (negb _); [reflexivity|].
  now rewrite updateButtons_prizeManager.
Qed.

Section Invariant.

Variable prizes : list Prize.
Variable h : option (DrawManager.t -> DrawManager.t).
Hypothesis listener_keeps_queue : keepsQueue h.

Lemma notify_inQueue d :
  PrizeManagerState.consistent (prizeManager d)
  /\ PrizeManager.originalPrizes (prizeManager d) = prizes ->
  PrizeManagerState.consistent (prizeManager (notify h d))
  /\ PrizeManager.originalPrizes (prizeManager (notify h d)) = prizes.
Proof.
  unfold notify. destruct h as [f|] eqn:E; [|auto].
  intros [[Hq Hc] Ho].
  destruct (listener_keeps_queue f eq_refl d) as (Ho' & Hq' & Hc').
  unfold queue, cursor in *. unfold PrizeManagerState.consistent.
  rewrite Ho', Hq'. split; [split|]; auto.
Qed.

Lemma exec_inQueue op d :
  PrizeManagerState.consistent (prizeManager d)
  /\ PrizeManager.originalPrizes (prizeManager d) = prizes ->
  PrizeManagerState.consistent (prizeManager (after (exec prizes h op d)))
  /\ PrizeManager.originalPrizes (prizeManager (after (exec prizes h op d))) = prizes.
Proof.
  intros H. destruct op; cbn [exec after].
  - revert H. apply inQueue_ext. apply updateUI_prizeManager.
  - revert H. apply inQueue_ext, startSpin_prizeManager.
  - revert H. apply inQueue_ext, stopSpin_prizeManager.
  - exact H.
  - revert H. apply inQueue_ext, revealTimer_prizeManager.
  - unfold confirmWinner.
    destruct (STATE_eqb (state d) STOPPED); [|exact H].
    destruct (pendingWinner d) as [w|]; [|exact H].
    destruct (WinnerManager.addWinner _ _ _ _) as [wm|]; [|exact H].
    cbn [after]. apply notify_inQueue.
    eapply inQueue_ext; [apply updateUI_prizeManager|].
    cbn [prizeManager withState confirmEffect withSlotMachine withPendingWinner
         withPrizeManager withWinnerManager].
    destruct H as [Hc Ho]. split.
    + now apply PersistenceProps.advanceToNextPrize_consistent.
    + unfold PrizeManager.advanceToNextPrize. now destruct (_ <? _).
  - revert H. apply inQueue_ext, respin_prizeManager.
  - unfold undoLastDraw.
    destruct (WinnerManager.removeLastWinner (winnerManager d)) as [[w|] wm];
      [|exact H].
    cbn [snd]. eapply inQueue_ext; [apply updateUI_prizeManager|].
    change (prizeManager (withState READY ?x)) with (prizeManager x).
    apply notify_inQueue.
    cbn [prizeManager undoEffect withSlotMachine withPrizeManager withWinnerManager].
    destruct H as [Hc Ho]. split.
    + now apply PersistenceProps.undoLastPrize_consistent.
    + unfold PrizeManager.undoLastPrize. now destruct (0 <? _).
  - unfold readdWinner.
    destruct (WinnerManager.removeWinnerById participantId (winnerManager d))
      as [[w|] wm]; [|exact H].
    cbn [snd]. apply notify_inQueue. exact H.
  - unfold reset. apply notify_inQueue.
    eapply inQueue_ext; [apply updateUI_prizeManager|].
    cbn [prizeManager withState withPendingWinner withSlotMachine withWinnerManager
         withPrizeManager].
    destruct H as [[Hq Hc] Ho]. split; [split|]; cbn; auto. lia.
  - unfold LotteryApp.selectPrize.
    destruct (find _ prizes); [|exact H].
    destruct (_ <=? _)%Z; [exact H|].
    destruct (LotteryApp.findSlot _ _ _ _) as [index|] eqn:E; [|exact H].
    eapply inQueue_ext; [apply updateUI_prizeManager|].
    cbn [prizeManager withPrizeManager].
    apply OrchestratorFacts.findSlot_spec in E. destruct E as (e & He & _).
    assert (index < length (PrizeManager.prizeQueue (prizeManager d))) as Hlt.
    { apply nth_error_Some. congruence. }
    destruct H as [[Hq Hc] Ho]. split; [split|]; cbn; auto. lia.
Qed.

Lemma reachable_inQueue participants actionButtons d :
  reachable prizes h participants actionButtons d ->
  PrizeManagerState.consistent (prizeManager d)
  /\ PrizeManager.originalPrizes (prizeManager d) = prizes.
Proof.
  induction 1 as [|d op Hd IH Hadm].
  - split; [split|]; cbn; auto. lia.
  - now apply exec_inQueue.
Qed.

End Invariant.

(** The listener of app.js moves the cursor only to slots of the queue. *)
Lemma app_listener_keepsQueue originalPrizes :
  keepsQueue (Some (LotteryApp.onStateChange originalPrizes)).
Proof.
  intros f Hf d. inversion Hf; subst f. clear Hf.
  unfold LotteryApp.onStateChange, LotteryApp.autoSelectNextAvailablePrize.
  destruct (LotteryApp.currentPrizeHasRemaining originalPrizes d); [auto|].
  destruct (find _ (PrizeManager.sortByIdDesc originalPrizes)) as [p|]; [|auto].
  unfold LotteryApp.selectPrize.
  destruct (find _ originalPrizes); [|auto].
  destruct (_ <=? _)%Z; [auto|].
  destruct (LotteryApp.findSlot _ _ _ _) as [index|] eqn:E; [|auto].
  apply OrchestratorFacts.findSlot_spec in E. destruct E as (e & He & _).
  assert (index < length (PrizeManager.prizeQueue (prizeManager d))) as Hlt.
  { apply nth_error_Some. congruence. }
  unfold queue, cursor.
  destruct (OrchestratorFacts.updateUI_views
              (withPrizeManager
                 (PrizeManager.setCurrentIndex index (prizeManager d)) d))
    as (_ & -> & _).
  cbn. repeat split. intros _. lia.
Qed.

(** X13.  In every state a session can reach, the prize queue is the
    expansion of the configured tiers and the cursor lies between 0 and the
    length of the queue; the current prize is missing exactly when the cursor
    is at the end.  This holds with no listener, and with any listener that
    moves the cursor only inside the queue, as the one of app.js does. *)
Theorem cursor_stays_in_queue
    (prizes : list Prize) (h : option (DrawManager.t -> DrawManager.t))
    (participants : list Participant) (actionButtons : bool) (d : DrawManager.t)
    (Hlistener : keepsQueue h)
    (Hreach : reachable prizes h participants actionButtons d) :
  queue d = PrizeManager.buildPrizeQueue prizes
  /\ cursor d <= length (queue d)
  /\ (PrizeManager.getCurrentPrize (prizeManager d) = None
      <-> cursor d = length (queue d))
  /\ keepsQueue (Some (LotteryApp.onStateChange prizes)).
Proof.
  destruct (reachable_inQueue prizes h Hlistener participants actionButtons d Hreach)
    as [[Hq Hc] Ho].
  unfold queue, cursor. rewrite Hq, Ho. rewrite Hq, Ho in Hc.
  split; [reflexivity|]. split; [exact Hc|]. split.
  - unfold PrizeManager.getCurrentPrize. rewrite Hq, Ho.
    destruct (_ <=? _) eqn:E.
    + apply Nat.leb_le in E. split; [intros _; lia|reflexivity].
    + apply Nat.leb_gt in E. split.
      * intros Hn. apply nth_error_None in Hn. lia.
      * intros He. lia.
  - apply app_listener_keepsQueue.
Qed.

Lemma cursor_stays_in_queue_witness :
  let d := after (exec [Examples.grand; Examples.first] None (SelectPrize 1)
                    Examples.fresh) in
  cursor d = 2
  /\ queue d = PrizeManager.buildPrizeQueue [Examples.grand; Examples.first]
  /\ cursor d <= length (queue d).
Proof.
  cbv zeta. split; [reflexivity|].
  assert (keepsQueue None) as Hlistener by (intros f Hf; discriminate Hf).
  assert (reachable [Examples.grand; Examples.first] None
            [Examples.A; Examples.B; Examples.C; Examples.D] true
            (after (exec [Examples.grand; Examples.first] None (SelectPrize 1)
                      Examples.fresh))) as Hreach.
  { apply reachable_step; [apply reachable_new|exact I]. }
  destruct (cursor_stays_in_queue [Examples.grand; Examples.first] None
              [Examples.A; Examples.B; Examples.C; Examples.D] true _
              Hlistener Hreach) as (H1 & H2 & _).
  split; [exact H1|exact H2].
Defined.

End CursorProps.

(** ** Nobody is lost and nobody is there twice *)

Module BooksProps.

Import DrawManager Session SessionSpec.

Lemma balanced_ext participants d d' :
  pool d' = pool d -> ledger d' = ledger d ->
  balanced participants d -> balanced participants d'.
Proof. unfold balanced. now intros -> ->. Qed.

Lemma updateButtons_books d :
  pool (updateButtons d) = pool d /\ ledger (updateButtons d) = ledger d.
Proof.
  unfold pool, ledger.
  destruct (DrawFacts.updateButtons_frame d) as (-> & _ & -> & _). auto.
Qed.

Lemma startSpin_books d :
  pool (startSpin d) = pool d /\ ledger (startSpin d) = ledger d.
Proof.
  unfold startSpin.
  destruct (negb (STATE_eqb (state d) READY)); [auto|].
  destruct (isComplete d); [auto|].
  destruct (negb (SlotMachine.hasParticipants (slotMachine d))); [auto|].
  unfold SlotMachine.startSpin.
  destruct (SlotMachine.isSpinning (slotMachine d) || _); [auto|].
  destruct (updateButtons_books
              (withState SPINNING
                 (withSlotMachine
                    (SlotMachine.requestCheckStop
                       (SlotMachine.mk (SlotMachine.participants (slotMachine d))
                          true false None
                          (SlotMachine.currentWinner (slotMachine d))
                          (SlotMachine.animationId (slotMachine d))
                          (SlotMachine.frameCallbacks (slotMachine d))
                          (SlotMachine.nextHandle (slotMachine d))
                          (SlotMachine.revealTimers (slotMachine d)))) d)))
    as [-> ->].
  auto.
Qed.

Lemma stopSpin_books r d :
  pool (stopSpin r d) = pool d /\ ledger (stopSpin r d) = ledger d.
Proof.
  unfold stopSpin. destruct (negb _); [auto|].
  unfold SlotMachine.stop. destruct (negb _ || _); auto.
Qed.

Lemma animationFrame_books d :
  pool (animationFrame d) = pool d /\ ledger (animationFrame d) = ledger d.
Proof.
  unfold pool, ledger, animationFrame. cbn [slotMachine winnerManager withSlotMachine].
  destruct (PoolFacts.animationFrame_pool (slotMachine d)) as [-> _]. auto.
Qed.

Lemma revealTimer_books d :
  pool (revealTimer d) = pool d /\ ledger (revealTimer d) = ledger d.
Proof.
  unfold revealTimer. destruct (_ =? 0); [auto|].
  unfold onSpinComplete. cbn [SlotMachine.reveal SlotMachine.pendingWinner].
  destruct (SlotMachine.pendingWinner (slotMachine d)); [|auto].
  destruct (updateButtons_books
              (withState STOPPED
                 (withPendingWinner (Some p)
                    (withSlotMachine (SlotMachine.reveal (slotMachine d)) d))))
    as [-> ->].
  auto.
Qed.

Lemma respin_books d :
  pool (respin d) = pool d /\ ledger (respin d) = ledger d.
Proof.
  unfold respin. destruct (negb _); [auto|]. cbv zeta.
  match goal with |- pool (updateButtons ?x) = _ /\ _ =>
    destruct (updateButtons_books x) as [-> ->] end.
  unfold pool, ledger, SlotMachine.reset. cbn.
  destruct (SlotMachine.animationId _ =? 0); auto.
Qed.

Lemma selectPrize_books prizes prizeId d :
  pool (LotteryApp.selectPrize prizes prizeId d) = pool d
  /\ ledger (LotteryApp.selectPrize prizes prizeId d) = ledger d.
Proof.
  unfold LotteryApp.selectPrize.
  destruct (find _ prizes); [|auto].
  destruct (_ <=? _)%Z; [auto|].
  destruct (LotteryApp.findSlot _ _ _ _) as [index|]; [|auto].
  match goal with |- pool (updateUI ?x) = _ /\ _ =>
    destruct (updateButtons_books x) as [Hp Hl] end.
  unfold updateUI. rewrite Hp, Hl. auto.
Qed.

Lemma winnerParticipant_addWinner w e now :
  winnerParticipant (mkWinner (p_id w) (p_name w) e now) = w.
Proof. now destruct w. Qed.

Section Books.

Variable prizes : list Prize.
Variable h : option (DrawManager.t -> DrawManager.t).
Variable participants : list Participant.
Hypothesis listener_keeps_books : keepsBooks h.
Hypothesis ids_unique : NoDup (map p_id participants).

Lemma keepsBooks_keepsPool : keepsPool h.
Proof.
  intros f Hf d. destruct (listener_keeps_books f Hf d) as (H1 & _ & H3). auto.
Qed.

Lemma notify_books d :
  pool (notify h d) = pool d /\ ledger (notify h d) = ledger d.
Proof.
  unfold notify, pool, ledger. destruct h as [f|] eqn:E; [|auto].
  destruct (listener_keeps_books f eq_refl d) as (-> & -> & _). auto.
Qed.

(** With everybody accounted for once, no ledger entry has the id of a
    pool member. *)
Lemma balanced_ids d :
  balanced participants d ->
  NoDup (map p_id (pool d) ++ map w_id (ledger d)).
Proof.
  unfold balanced. intros H.
  apply (Permutation_map p_id) in H. rewrite map_app, map_map in H.
  apply Permutation_sym in H.
  exact (Permutation_NoDup H ids_unique).
Qed.

Lemma NoDup_app_snoc {A : Type} (l front : list A) (x : A) :
  NoDup (l ++ front ++ [x]) -> ~ In x l.
Proof.
  intros H Hin. apply in_split in Hin. destruct Hin as (l1 & l2 & ->).
  rewrite <- app_assoc in H. cbn [app] in H.
  apply NoDup_remove_2 in H. apply H.
  rewrite !in_app_iff. right. right. right. now left.
Qed.

Lemma NoDup_app_mid {A : Type} (l front back : list A) (x : A) :
  NoDup (l ++ front ++ x :: back) -> ~ In x l.
Proof.
  intros H Hin. apply in_split in Hin. destruct Hin as (l1 & l2 & ->).
  rewrite <- app_assoc in H. cbn [app] in H.
  apply NoDup_remove_2 in H. apply H.
  rewrite !in_app_iff. right. right. right. now left.
Qed.

Lemma confirmWinner_books now d :
  poolInvariant d -> balanced participants d ->
  balanced participants (after (confirmWinner h now d)).
Proof.
  intros (Hnd & _ & Hdm) H. unfold confirmWinner.
  destruct (STATE_eqb (state d) STOPPED); [|exact H].
  destruct (pendingWinner d) as [w|] eqn:Ew; [|exact H].
  destruct (PrizeManager.getCurrentPrize (prizeManager d)) as [e|]; [|exact H].
  cbn [WinnerManager.addWinner after].
  eapply balanced_ext; [apply notify_books|apply notify_books|].
  eapply balanced_ext; [apply updateButtons_books|apply updateButtons_books|].
  unfold balanced, pool, ledger in *.
  cbn [confirmEffect withState withSlotMachine withPendingWinner withPrizeManager
       withWinnerManager slotMachine winnerManager WinnerManager.winners
       SlotMachine.clearPendingWinner SlotMachine.participants].
  destruct (PoolFacts.removeParticipant_member w (slotMachine d) Hnd (Hdm w eq_refl))
    as [Hperm _].
  rewrite map_app. cbn [map]. rewrite winnerParticipant_addWinner.
  rewrite app_assoc. rewrite <- Permutation_cons_append.
  etransitivity; [|exact H].
  change (Permutation
            ((w :: SlotMachine.participants
                     (snd (SlotMachine.removeParticipant (p_id w) (slotMachine d))))
             ++ map winnerParticipant (WinnerManager.winners (winnerManager d)))
            (SlotMachine.participants (slotMachine d)
             ++ map winnerParticipant (WinnerManager.winners (winnerManager d)))).
  now apply Permutation_app_tail.
Qed.

Lemma addBack_books (w : Winner) (rest : list Winner) d d' :
  pool d' = SlotMachine.participants
              (snd (SlotMachine.addParticipant (winnerParticipant w) (slotMachine d))) ->
  ledger d' = rest ->
  Permutation (w :: rest) (ledger d) ->
  balanced participants d -> balanced participants d'.
Proof.
  intros Hp Hl Hperm H.
  assert (~ In (w_id w) (map p_id (pool d))) as Habsent.
  { pose proof (balanced_ids d H) as Hids.
    assert (Permutation (map p_id (pool d) ++ map w_id (ledger d))
              (w_id w :: map p_id (pool d) ++ map w_id rest)) as X.
    { rewrite <- Hperm. cbn [map]. now rewrite <- Permutation_middle. }
    apply (Permutation_NoDup X) in Hids. now inversion Hids; subst;
      match goal with Hn : ~ In _ (_ ++ _) |- _ =>
        intros Hin; apply Hn, in_or_app; left end. }
  unfold balanced in *. rewrite Hp, Hl.
  rewrite (PoolFacts.addParticipant_absent (winnerParticipant w) (slotMachine d) Habsent).
  cbn [snd SlotMachine.setParticipants SlotMachine.participants].
  rewrite <- H, <- Hperm. cbn [map]. fold (pool d).
  rewrite <- app_assoc. cbn [app]. reflexivity.
Qed.

Lemma undoLastDraw_books d :
  balanced participants d -> balanced participants (snd (undoLastDraw h d)).
Proof.
  intros H. unfold undoLastDraw, WinnerManager.removeLastWinner.
  destruct (pop (WinnerManager.winners (winnerManager d))) as [[front w]|] eqn:E;
    [|exact H].
  cbn [snd]. apply pop_Some in E.
  eapply balanced_ext; [apply updateButtons_books|apply updateButtons_books|].
  eapply (addBack_books w front d); [| | |exact H].
  - unfold pool. cbn [withState slotMachine].
    fold (pool (notify h (undoEffect w (WinnerManager.mk front) d))).
    destruct (notify_books (undoEffect w (WinnerManager.mk front) d)) as [-> _].
    reflexivity.
  - unfold ledger. cbn [withState winnerManager].
    fold (ledger (notify h (undoEffect w (WinnerManager.mk front) d))).
    destruct (notify_books (undoEffect w (WinnerManager.mk front) d)) as [_ ->].
    reflexivity.
  - unfold ledger. rewrite E. apply Permutation_cons_append.
Qed.

Lemma readdWinner_books pid d :
  balanced participants d -> balanced participants (snd (readdWinner h pid d)).
Proof.
  intros H. unfold readdWinner, WinnerManager.removeWinnerById.
  destruct (findIndex _ (WinnerManager.winners (winnerManager d))) as [i|] eqn:E;
    [|exact H].
  apply findIndex_splice in E.
  destruct E as (front & w & back & El & _ & _ & -> & ->).
  cbn [snd].
  eapply (addBack_books w (front ++ back) d); [| | |exact H].
  - destruct (notify_books (readdEffect w (WinnerManager.mk (front ++ back)) d))
      as [-> _]. reflexivity.
  - destruct (notify_books (readdEffect w (WinnerManager.mk (front ++ back)) d))
      as [_ ->]. reflexivity.
  - unfold ledger. rewrite El. apply Permutation_middle.
Qed.

Lemma reset_books d : balanced participants (reset h participants d).
Proof.
  unfold reset. cbv zeta.
  eapply balanced_ext; [apply notify_books|apply notify_books|].
  eapply balanced_ext; [apply updateButtons_books|apply updateButtons_books|].
  unfold balanced, pool, ledger, SlotMachine.reset. cbn.
  destruct (SlotMachine.animationId _ =? 0); cbn; now rewrite app_nil_r.
Qed.

Lemma exec_books op d :
  resetsTo participants op ->
  poolInvariant d /\ balanced participants d ->
  poolInvariant (after (exec prizes h op d))
  /\ balanced participants (after (exec prizes h op d)).
Proof.
  intros Hop [Hinv H]. split.
  - destruct op; try (apply (PoolInvariant.exec_inv prizes h keepsBooks_keepsPool);
                      [exact I|exact Hinv]).
    + now apply (PoolInvariant.stopSpin_inv).
    + cbn in Hop. subst. cbn [exec after].
      now apply (PoolInvariant.reset_inv h keepsBooks_keepsPool).
  - destruct op; cbn [exec after].
    + revert H. apply balanced_ext; apply updateButtons_books.
    + revert H. apply balanced_ext; apply startSpin_books.
    + revert H. apply balanced_ext; apply stopSpin_books.
    + revert H. apply balanced_ext; apply animationFrame_books.
    + revert H. apply balanced_ext; apply revealTimer_books.
    + now apply confirmWinner_books.
    + revert H. apply balanced_ext; apply respin_books.
    + now apply undoLastDraw_books.
    + now apply readdWinner_books.
    + cbn in Hop. subst. apply reset_books.
    + revert H. apply balanced_ext; apply selectPrize_books.
Qed.

Lemma run_books ops d :
  Forall (resetsTo participants) ops ->
  poolInvariant d /\ balanced participants d ->
  poolInvariant (run prizes h ops d) /\ balanced participants (run prizes h ops d).
Proof.
  intros Hops. revert d. induction Hops as [|op ops Hop Hops IH]; intros d H.
  - exact H.
  - cbn [run fold_left]. apply IH. now apply exec_books.
Qed.

End Books.

(** X14.  When the configured participants have unique ids, every reset is
    given the configured list and the listener leaves the slot machine, the
    ledger and the pending winner alone, then in every state of a session
    each configured participant is either in the pool or in the ledger, and
    only once: the pool together with the ledger's participants is a
    rearrangement of the configured list, no ledger entry has the id of a
    pool member, and the sizes of pool and ledger add up to the number of
    participants. *)
Theorem nobody_lost_or_duplicated
    (prizes : list Prize) (h : option (DrawManager.t -> DrawManager.t))
    (participants : list Participant) (actionButtons : bool) (ops : list Op)
    (Hlistener : keepsBooks h)
    (Hids : NoDup (map p_id participants))
    (Hresets : Forall (resetsTo participants) ops) :
  let d := run prizes h ops (fresh participants prizes actionButtons) in
  Permutation (pool d ++ map winnerParticipant (ledger d)) participants
  /\ NoDup (map p_id (pool d) ++ map w_id (ledger d))
  /\ length (pool d) + length (ledger d) = length participants.
Proof.
  cbv zeta.
  destruct (run_books prizes h participants Hlistener Hids ops
              (fresh participants prizes actionButtons) Hresets) as [_ H].
  { split.
    - unfold poolInvariant, pool. repeat split; cbn; try discriminate. exact Hids.
    - unfold balanced, pool, ledger. cbn. now rewrite app_nil_r. }
  split; [exact H|]. split.
  - now apply (balanced_ids participants Hids).
  - apply Permutation_length in H. rewrite length_app, length_map in H. exact H.
Qed.

Lemma nobody_lost_or_duplicated_witness :
  let ops := [StartSpin; StopSpin 1; AnimationFrame; RevealTimer;
              ConfirmWinner 7; StartSpin; StopSpin 0; AnimationFrame;
              RevealTimer; ConfirmWinner 8; ReaddWinner "B"] in
  let d := run [Examples.grand; Examples.first] None ops Examples.fresh in
  length (ledger d) = 1
  /\ Permutation (pool d ++ map winnerParticipant (ledger d))
       [Examples.A; Examples.B; Examples.C; Examples.D].
Proof.
  cbv zeta. split; [vm_compute; reflexivity|].
  apply (nobody_lost_or_duplicated [Examples.grand; Examples.first] None
           [Examples.A; Examples.B; Examples.C; Examples.D] true).
  - intros f Hf. discriminate Hf.
  - vm_compute. repeat constructor; cbn; intuition discriminate.
  - repeat constructor.
Defined.

End BooksProps.

(** ** Sessions without targeted removal and manual selection *)

Module PlainProps.

Import DrawManager Session SessionSpec.

Lemma updateButtons_drawing d : drawing (updateButtons d) -> drawing d.
Proof.
  unfold drawing.
  destruct (DrawFacts.updateButtons_frame d) as (-> & _).
  destruct (DrawFacts.updateButtons_state d) as [->| ->]; [auto|].
  intros [H|[H|H]]; [discriminate H|discriminate H|auto].
Qed.

Lemma inOrder_updateButtons slots d : inOrder slots d -> inOrder slots (updateButtons d).
Proof.
  unfold inOrder, queue, cursor, ledger. intros (Hq & Hc & Hl & Hd).
  destruct (DrawFacts.updateButtons_frame d) as (_ & -> & -> & _).
  repeat split; auto. intros H. now apply Hd, updateButtons_drawing.
Qed.

Lemma firstn_snoc {A : Type} (l : list A) (n : nat) (x : A) :
  nth_error l n = Some x -> firstn (S n) l = firstn n l ++ [x].
Proof.
  revert n. induction l as [|y l IH]; intros [|n] H; try discriminate H.
  - cbn in H. inversion H. reflexivity.
  - cbn [firstn app]. f_equal. now apply IH.
Qed.

Lemma firstn_pred {A : Type} (front l : list A) (x : A) (n : nat) :
  n = length (front ++ [x]) -> front ++ [x] = firstn n l ->
  front = firstn (n - 1) l.
Proof.
  intros Hn H. rewrite length_app, Nat.add_1_r in Hn. subst n.
  cbn [Nat.sub]. rewrite Nat.sub_0_r.
  assert (firstn (length front) (front ++ [x]) = front) as X.
  { rewrite firstn_app, Nat.sub_diag, firstn_all. cbn. apply app_nil_r. }
  rewrite H in X. rewrite firstn_firstn in X.
  rewrite Nat.min_l in X by lia. now symmetry.
Qed.

Section Plain.

Variable prizes : list Prize.
Variable h : option (DrawManager.t -> DrawManager.t).
Variable slots : list QueueEntry.
Hypothesis listener_observes : observer h.

Lemma notify_observer d : notify h d = d.
Proof.
  unfold notify. destruct h as [f|] eqn:E; [|reflexivity].
  apply (listener_observes f eq_refl).
Qed.

Lemma startSpin_inOrder d : inOrder slots d -> inOrder slots (startSpin d).
Proof.
  intros H. unfold startSpin.
  destruct (negb (STATE_eqb (state d) READY)); [exact H|].
  destruct (isComplete d) eqn:Ec; [exact H|].
  destruct (negb (SlotMachine.hasParticipants (slotMachine d))); [exact H|].
  unfold SlotMachine.startSpin.
  destruct (SlotMachine.isSpinning (slotMachine d) || _).
  - destruct H as (Hq & Hc & Hl & Hd). unfold inOrder. repeat split; auto.
  - apply inOrder_updateButtons.
    destruct H as (Hq & Hc & Hl & Hd).
    unfold inOrder. repeat split; auto. intros _.
    unfold isComplete, PrizeManager.getTotalPrizes, WinnerManager.getWinners in Ec.
    apply Nat.leb_gt in Ec. unfold queue in Hq. rewrite Hq in Ec. exact Ec.
Qed.

Lemma stopSpin_inOrder r d : inOrder slots d -> inOrder slots (stopSpin r d).
Proof.
  intros H. unfold stopSpin.
  destruct (negb (STATE_eqb (state d) SPINNING)) eqn:Es; [exact H|].
  apply Bool.negb_false_iff, DrawFacts.STATE_eqb_eq in Es.
  destruct H as (Hq & Hc & Hl & Hd).
  unfold inOrder. repeat split; auto. intros _. apply Hd. now left.
Qed.

Lemma animationFrame_inOrder d : inOrder slots d -> inOrder slots (animationFrame d).
Proof.
  intros (Hq & Hc & Hl & Hd). unfold inOrder. repeat split; auto.
  unfold drawing, animationFrame. cbn [state slotMachine withSlotMachine].
  destruct (PoolFacts.animationFrame_pool (slotMachine d)) as [_ ->]. exact Hd.
Qed.

Lemma revealTimer_inOrder d : inOrder slots d -> inOrder slots (revealTimer d).
Proof.
  intros H. unfold revealTimer. destruct (_ =? 0); [exact H|].
  unfold onSpinComplete. cbn [SlotMachine.reveal SlotMachine.pendingWinner].
  destruct H as (Hq & Hc & Hl & Hd).
  destruct (SlotMachine.pendingWinner (slotMachine d)) as [w|] eqn:Ew.
  - apply inOrder_updateButtons. unfold inOrder. repeat split; auto.
    intros _. apply Hd. right. right. rewrite Ew. discriminate.
  - unfold inOrder. repeat split; auto.
Qed.

(** In phase [STOPPED] the cursor is on a slot of the queue. *)
Lemma stopped_has_prize d :
  inOrder slots d -> state d = STOPPED ->
  exists e, PrizeManager.getCurrentPrize (prizeManager d) = Some e
            /\ nth_error slots (cursor d) = Some e.
Proof.
  intros (Hq & Hc & Hl & Hd) Hs.
  assert (cursor d < length slots) as Hlt by (rewrite Hc; apply Hd; unfold drawing; auto).
  unfold PrizeManager.getCurrentPrize. unfold queue in Hq. unfold cursor in *.
  rewrite Hq.
  destruct (_ <=? _) eqn:E; [apply Nat.leb_le in E; lia|].
  destruct (nth_error slots _) as [e|] eqn:En; [eauto|].
  apply nth_error_None in En. lia.
Qed.

Lemma confirmWinner_inOrder now d :
  inOrder slots d -> inOrder slots (after (confirmWinner h now d)).
Proof.
  intros H. unfold confirmWinner.
  destruct (STATE_eqb (state d) STOPPED) eqn:Es; [|exact H].
  destruct (pendingWinner d) as [w|]; [|exact H].
  apply DrawFacts.STATE_eqb_eq in Es.
  destruct (stopped_has_prize d H Es) as (e & -> & He).
  cbn [WinnerManager.addWinner after]. rewrite notify_observer.
  apply inOrder_updateButtons.
  destruct H as (Hq & Hc & Hl & Hd).
  assert (cursor d < length slots) as Hlt by (rewrite Hc; apply Hd; unfold drawing; auto).
  unfold inOrder, queue, cursor, ledger, drawing in *.
  cbn [confirmEffect withState withSlotMachine withPendingWinner withPrizeManager
       withWinnerManager slotMachine winnerManager prizeManager state
       WinnerManager.winners SlotMachine.clearPendingWinner
       SlotMachine.pendingWinner].
  unfold PrizeManager.advanceToNextPrize. rewrite Hq.
  destruct (_ <? _) eqn:E; [|apply Nat.ltb_ge in E; lia].
  cbn [PrizeManager.prizeQueue PrizeManager.currentIndex].
  rewrite length_app, map_app, Hl, (firstn_snoc slots _ e He). cbn.
  repeat split; try lia; auto.
  intros [X|[X|X]]; [discriminate X|discriminate X|now elim X].
Qed.

Lemma respin_inOrder d : inOrder slots d -> inOrder slots (respin d).
Proof.
  intros H. unfold respin. destruct (negb _); [exact H|]. cbv zeta.
  apply inOrder_updateButtons.
  destruct H as (Hq & Hc & Hl & Hd).
  unfold inOrder. repeat split; auto.
  unfold drawing, SlotMachine.reset. cbn.
  destruct (SlotMachine.animationId _ =? 0); cbn;
    intros [X|[X|X]]; try discriminate X; now elim X.
Qed.

Lemma undoLastDraw_inOrder d :
  inOrder slots d -> inOrder slots (snd (undoLastDraw h d)).
Proof.
  intros H. unfold undoLastDraw, WinnerManager.removeLastWinner.
  destruct (pop (WinnerManager.winners (winnerManager d))) as [[front w]|] eqn:E;
    [|exact H].
  cbn [snd]. apply pop_Some in E. rewrite notify_observer.
  apply inOrder_updateButtons.
  destruct H as (Hq & Hc & Hl & Hd).
  unfold inOrder, queue, cursor, ledger in *.
  cbn [undoEffect withState withSlotMachine withPrizeManager withWinnerManager
       slotMachine winnerManager prizeManager WinnerManager.winners].
  rewrite E in Hc, Hl.
  assert (PrizeManager.currentIndex (prizeManager d) <= length slots) as Hle.
  { apply (f_equal (@List.length _)) in Hl.
    rewrite length_map, length_firstn, <- Hc in Hl. lia. }
  destruct (ReversalFacts.undoLastPrize_cursor (prizeManager d)) as (-> & -> & _).
  rewrite map_app in Hl. cbn [map] in Hl.
  assert (PrizeManager.currentIndex (prizeManager d)
          = length (map prize front ++ [prize w])) as Hn.
  { rewrite Hc, !length_app, length_map. reflexivity. }
  pose proof (firstn_pred _ _ _ _ Hn Hl) as Hfront.
  rewrite length_app in Hc. cbn in Hc.
  repeat split; auto; lia.
Qed.

Lemma reset_inOrder ps d : queue d = slots -> inOrder slots (reset h ps d).
Proof.
  intros Hq. unfold reset. cbv zeta. rewrite notify_observer.
  apply inOrder_updateButtons.
  unfold inOrder, queue, cursor, ledger, drawing, SlotMachine.reset.
  cbn. repeat split; auto.
  intros [X|[X|X]]; try discriminate X; now elim X.
Qed.

Lemma exec_inOrder op d :
  plain op = true -> inOrder slots d ->
  inOrder slots (after (exec prizes h op d)).
Proof.
  intros Hop H. destruct op; try discriminate Hop; cbn [exec after].
  - now apply inOrder_updateButtons.
  - now apply startSpin_inOrder.
  - now apply stopSpin_inOrder.
  - now apply animationFrame_inOrder.
  - now apply revealTimer_inOrder.
  - now apply confirmWinner_inOrder.
  - now apply respin_inOrder.
  - now apply undoLastDraw_inOrder.
  - apply reset_inOrder. apply H.
Qed.

Lemma run_inOrder ops d :
  forallb plain ops = true -> inOrder slots d ->
  inOrder slots (run prizes h ops d).
Proof.
  revert d. induction ops as [|op ops IH]; intros d Hops H.
  - exact H.
  - cbn [forallb] in Hops. apply andb_prop in Hops. destruct Hops as [Hop Hops].
    cbn [run fold_left]. apply IH; [exact Hops|]. now apply exec_inOrder.
Qed.

End Plain.

(** X15.  In a session without readdWinner and without manual prize
    selection, whose listener changes nothing (or is absent), prizes are
    handed out in queue order: the prize snapshots of the ledger are the
    first slots of the prize queue, the cursor equals the number of winners,
    and confirmWinner never throws (whatever the phase, it returns). *)
Theorem plain_session_awards_in_queue_order
    (prizes : list Prize) (h : option (DrawManager.t -> DrawManager.t))
    (participants : list Participant) (actionButtons : bool) (ops : list Op)
    (Hlistener : observer h)
    (Hplain : forallb plain ops = true) :
  let d := run prizes h ops (fresh participants prizes actionButtons) in
  map prize (ledger d)
  = firstn (length (ledger d)) (PrizeManager.buildPrizeQueue prizes)
  /\ cursor d = length (ledger d)
  /\ length (ledger d) <= length (PrizeManager.buildPrizeQueue prizes)
  /\ forall now, exists d', confirmWinner h now d = Returns d'.
Proof.
  cbv zeta.
  assert (inOrder (PrizeManager.buildPrizeQueue prizes)
            (run prizes h ops (fresh participants prizes actionButtons))) as H.
  { apply run_inOrder; [exact Hlistener|exact Hplain|].
    unfold inOrder, drawing. cbn. repeat split.
    intros [X|[X|X]]; try discriminate X; now elim X. }
  pose proof H as (Hq & Hc & Hl & Hd).
  rewrite Hc in Hl. repeat split; auto.
  - apply (f_equal (@List.length _)) in Hl.
    rewrite length_map, length_firstn in Hl. lia.
  - intros now. unfold confirmWinner.
    destruct (STATE_eqb (state _) STOPPED) eqn:Es; [|eauto].
    destruct (pendingWinner _) as [w|]; [|eauto].
    apply DrawFacts.STATE_eqb_eq in Es.
    destruct (stopped_has_prize _ _ H Es) as (e & -> & _).
    cbn [WinnerManager.addWinner]. eauto.
Qed.

Lemma plain_session_awards_in_queue_order_witness :
  let ops := Examples.draw 1 7 ++ Examples.draw 0 8 ++ [UndoLastDraw]
             ++ Examples.draw 2 9 in
  let d := run [Examples.grand; Examples.first] None ops Examples.fresh in
  map w_id (ledger d) = ["B"; "A"]%string
  /\ map prize (ledger d)
     = firstn (length (ledger d))
         (PrizeManager.buildPrizeQueue [Examples.grand; Examples.first])
  /\ cursor d = length (ledger d).
Proof.
  cbv zeta. split; [vm_compute; reflexivity|].
  assert (observer None) as Hlistener by (intros f Hf; discriminate Hf).
  destruct (plain_session_awards_in_queue_order
              [Examples.grand; Examples.first] None
              [Examples.A; Examples.B; Examples.C; Examples.D] true
              (Examples.draw 1 7 ++ Examples.draw 0 8 ++ [UndoLastDraw]
               ++ Examples.draw 2 9)
              Hlistener eq_refl) as (H1 & H2 & _).
  split; [exact H1|exact H2].
Defined.

End PlainProps.

(** ** The listener of app.js *)

Module ListenerProps.

Import DrawManager Session SessionSpec.

Lemma app_listener_frame prizes d :
  slotMachine (LotteryApp.onStateChange prizes d) = slotMachine d
  /\ winnerManager (LotteryApp.onStateChange prizes d) = winnerManager d
  /\ pendingWinner (LotteryApp.onStateChange prizes d) = pendingWinner d
  /\ (state (LotteryApp.onStateChange prizes d) = state d
      \/ state (LotteryApp.onStateChange prizes d) = COMPLETE).
Proof.
  unfold LotteryApp.onStateChange.
  destruct (OrchestratorFacts.autoSelect_cases prizes d) as [->|[index ->]]; [auto|].
  destruct (DrawFacts.updateButtons_frame
              (withPrizeManager (PrizeManager.setCurrentIndex index (prizeManager d)) d))
    as (-> & _ & -> & -> & _).
  repeat split.
  apply (DrawFacts.updateButtons_state
           (withPrizeManager (PrizeManager.setCurrentIndex index (prizeManager d)) d)).
Qed.

Lemma app_listener_keepsPhase prizes :
  keepsPhase (Some (LotteryApp.onStateChange prizes)).
Proof.
  intros f Hf d. inversion Hf; subst f. apply (app_listener_frame prizes d).
Qed.

(** X16.  The state-change listener that app.js registers
    (autoSelectNextAvailablePrize) leaves the slot machine, the ledger and
    the pending winner alone, keeps the prize queue and its tiers, moves the
    cursor only to positions not beyond the end of the queue, changes the
    phase at most to COMPLETE, and changes nothing at all while the current
    prize's tier has prizes left. *)
Theorem app_listener_moves_only_the_cursor (prizes : list Prize) :
  keepsBooks (Some (LotteryApp.onStateChange prizes))
  /\ keepsQueue (Some (LotteryApp.onStateChange prizes))
  /\ keepsPhase (Some (LotteryApp.onStateChange prizes))
  /\ forall d, LotteryApp.currentPrizeHasRemaining prizes d = true ->
               LotteryApp.onStateChange prizes d = d.
Proof.
  split; [|split; [|split]].
  - intros f Hf d. inversion Hf; subst f.
    destruct (app_listener_frame prizes d) as (H1 & H2 & H3 & _). auto.
  - apply CursorProps.app_listener_keepsQueue.
  - apply app_listener_keepsPhase.
  - intros d H.
    unfold LotteryApp.onStateChange, LotteryApp.autoSelectNextAvailablePrize.
    now rewrite H.
Qed.

End ListenerProps.

(** ** The phase STOPPED *)

Module PhaseProps.

Import DrawManager Session SessionSpec.

Lemma awaiting_ext d d' :
  (state d' = state d \/ state d' = COMPLETE) ->
  pendingWinner d' = pendingWinner d ->
  (state d = STOPPED -> pendingWinner d <> None) ->
  state d' = STOPPED -> pendingWinner d' <> None.
Proof.
  intros [Hs|Hs] Hp H Hs'; rewrite Hs in Hs'; [|discriminate Hs'].
  rewrite Hp. auto.
Qed.

Lemma settled d d' :
  (state d' = state d \/ state d' = COMPLETE) ->
  state d = READY \/ state d = COMPLETE ->
  state d' = STOPPED -> pendingWinner d' <> None.
Proof.
  intros [Hs|Hs] [H|H] Hs'; rewrite Hs in Hs'; try rewrite H in Hs';
    discriminate Hs'.
Qed.

Lemma updateButtons_pending d : pendingWinner (updateButtons d) = pendingWinner d.
Proof. apply DrawFacts.updateButtons_frame. Qed.

Lemma updateButtons_READY d :
  state d = READY ->
  state (updateButtons d) = READY \/ state (updateButtons d) = COMPLETE.
Proof.
  intros H. destruct (DrawFacts.updateButtons_state d) as [->| ->]; auto.
Qed.

Section Awaiting.

Variable prizes : list Prize.
Variable h : option (DrawManager.t -> DrawManager.t).
Hypothesis listener_keeps_pool : keepsPool h.
Hypothesis listener_keeps_phase : keepsPhase h.

Lemma notify_state d :
  state (notify h d) = state d \/ state (notify h d) = COMPLETE.
Proof.
  unfold notify. destruct h as [f|] eqn:E; [|auto].
  apply (listener_keeps_phase f eq_refl).
Qed.

Lemma notify_pending d : pendingWinner (notify h d) = pendingWinner d.
Proof.
  unfold notify. destruct h as [f|] eqn:E; [|auto].
  apply (listener_keeps_pool f eq_refl).
Qed.

Lemma exec_awaiting op d :
  (state d = STOPPED -> pendingWinner d <> None) ->
  state (after (exec prizes h op d)) = STOPPED ->
  pendingWinner (after (exec prizes h op d)) <> None.
Proof.
  intros H. destruct op; cbn [exec after].
  - revert H. apply awaiting_ext;
      [apply DrawFacts.updateButtons_state|apply updateButtons_pending].
  - unfold startSpin.
    destruct (negb (STATE_eqb (state d) READY)); [exact H|].
    destruct (isComplete d); [exact H|].
    destruct (negb (SlotMachine.hasParticipants (slotMachine d))); [exact H|].
    destruct (SlotMachine.startSpin (slotMachine d)) as [[|] sm]; [|exact H].
    intros Hs.
    destruct (DrawFacts.updateButtons_state
                (withState SPINNING (withSlotMachine sm d))) as [E|E];
      rewrite E in Hs; discriminate Hs.
  - unfold stopSpin. destruct (negb _); exact H.
  - exact H.
  - unfold revealTimer. destruct (_ =? 0); [exact H|].
    unfold onSpinComplete. cbn [SlotMachine.reveal SlotMachine.pendingWinner].
    destruct (SlotMachine.pendingWinner (slotMachine d)) as [w|]; [|exact H].
    intros _. rewrite updateButtons_pending. discriminate.
  - unfold confirmWinner.
    destruct (STATE_eqb (state d) STOPPED); [|exact H].
    destruct (pendingWinner d) as [w|] eqn:Ew;
      [|cbn [after]; rewrite Ew; exact H].
    destruct (WinnerManager.addWinner _ _ _ _) as [wm|];
      [|cbn [after]; intros _; rewrite Ew; discriminate].
    cbn [after]. apply (settled (updateUI (withState READY (confirmEffect w wm d))));
      [apply notify_state|].
    now apply updateButtons_READY.
  - unfold respin. destruct (negb _); [exact H|]. cbv zeta.
    intros Hs.
    match type of Hs with state (updateButtons ?x) = _ =>
      destruct (updateButtons_READY x eq_refl) as [E|E] end;
      rewrite E in Hs; discriminate Hs.
  - unfold undoLastDraw.
    destruct (WinnerManager.removeLastWinner (winnerManager d)) as [[w|] wm];
      [|exact H].
    cbn [snd]. intros Hs.
    match type of Hs with state (updateUI ?x) = _ =>
      destruct (updateButtons_READY x eq_refl) as [E|E] end;
      unfold updateUI in Hs; rewrite E in Hs; discriminate Hs.
  - unfold readdWinner.
    destruct (WinnerManager.removeWinnerById participantId (winnerManager d))
      as [[w|] wm]; [|exact H].
    cbn [snd].
    apply (awaiting_ext (readdEffect w wm d));
      [apply notify_state|apply notify_pending|exact H].
  - unfold reset. cbv zeta.
    match goal with |- state (notify h ?x) = _ -> _ =>
      apply (settled x); [apply notify_state|] end.
    now apply updateButtons_READY.
  - destruct (OrchestratorFacts.selectPrize_cases prizes prizeId d)
      as [->|[index ->]]; [exact H|].
    revert H. intros H Hs. rewrite updateButtons_pending.
    destruct (DrawFacts.updateButtons_state
                (withPrizeManager
                   (PrizeManager.setCurrentIndex index (prizeManager d)) d))
      as [E|E]; rewrite E in Hs; [|discriminate Hs].
    now apply H.
Qed.

Lemma reachable_awaiting participants actionButtons d :
  reachable prizes h participants actionButtons d ->
  state d = STOPPED -> pendingWinner d <> None.
Proof.
  induction 1 as [|d op Hd IH Hadm].
  - intros Hs. discriminate Hs.
  - now apply exec_awaiting.
Qed.

End Awaiting.

(** X17.  In the phase STOPPED there is always somebody to confirm: when
    the configured participants have unique ids and the listener leaves the
    slot machine and the pending winner alone and changes the phase at most
    to COMPLETE (as none, a saving one and the one of app.js do), every
    state a session reaches in phase STOPPED has a pending winner, and that
    winner is a member of the pool. *)
Theorem stopped_phase_has_pending_pool_member
    (prizes : list Prize) (h : option (DrawManager.t -> DrawManager.t))
    (participants : list Participant) (actionButtons : bool) (d : DrawManager.t)
    (Hpool : keepsPool h) (Hphase : keepsPhase h)
    (Hids : NoDup (map p_id participants))
    (Hreach : reachable prizes h participants actionButtons d)
    (Hstopped : state d = STOPPED) :
  exists w, pendingWinner d = Some w /\ In w (pool d).
Proof.
  pose proof (reachable_awaiting prizes h Hpool Hphase participants actionButtons d
                Hreach Hstopped) as Hw.
  destruct (pendingWinner d) as [w|] eqn:Ew; [|now elim Hw].
  exists w. split; [reflexivity|].
  destruct (PoolInvariant.reachable_inv prizes h Hpool participants actionButtons d
              Hids Hreach) as (_ & _ & Hdm).
  now apply Hdm.
Qed.

Lemma stopped_phase_has_pending_pool_member_witness :
  let prizes := [Examples.grand; Examples.first] in
  let h := Some (LotteryApp.onStateChange prizes) in
  let d := run prizes h [StartSpin; StopSpin 2; AnimationFrame; RevealTimer]
             Examples.fresh in
  state d = STOPPED
  /\ exists w, pendingWinner d = Some w /\ In w (pool d).
Proof.
  cbv zeta. split; [vm_compute; reflexivity|].
  apply (stopped_phase_has_pending_pool_member
           [Examples.grand; Examples.first]
           (Some (LotteryApp.onStateChange [Examples.grand; Examples.first]))
           [Examples.A; Examples.B; Examples.C; Examples.D] true).
  - apply OrchestratorFacts.app_listener_keepsPool.
  - apply ListenerProps.app_listener_keepsPhase.
  - vm_compute. repeat constructor; cbn; intuition discriminate.
  - apply RunFacts.run_reachable; [apply reachable_new|].
    vm_compute. repeat split; lia.
  - vm_compute; reflexivity.
Defined.

End PhaseProps.

(** ** Saving and reloading the application *)

Module ReloadProps.

Import DrawManager Session SessionSpec.

(** What [autoSelectNextAvailablePrize] does to the prize manager depends
    on the prize manager and the ledger only. *)
Lemma autoSelect_prizeManager prizes d1 d2 :
  prizeManager d1 = prizeManager d2 ->
  winnerManager d1 = winnerManager d2 ->
  prizeManager (LotteryApp.autoSelectNextAvailablePrize prizes d1)
  = prizeManager (LotteryApp.autoSelectNextAvailablePrize prizes d2).
Proof.
  intros Hpm Hwm.
  unfold LotteryApp.autoSelectNextAvailablePrize, LotteryApp.currentPrizeHasRemaining,
    LotteryApp.selectPrize, LotteryApp.awardedCount.
  rewrite Hpm, Hwm.
  destruct (match PrizeManager.getCurrentPrize (prizeManager d2) with
            | Some _ => _ | None => _ end); [exact Hpm|].
  destruct (find _ (PrizeManager.sortByIdDesc prizes)) as [p|]; [|exact Hpm].
  destruct (find _ prizes); [|exact Hpm].
  destruct (_ <=? _)%Z; [exact Hpm|].
  destruct (LotteryApp.findSlot _ _ _ _) as [index|]; [|exact Hpm].
  now rewrite !CursorProps.updateUI_prizeManager.
Qed.

Lemma loadState_getState pm other :
  PrizeManagerState.consistent pm ->
  PrizeManagerState.loadState (PrizeManagerState.getState pm) other = pm.
Proof.
  intros [Hq Hc]. unfold PrizeManagerState.loadState, PrizeManagerState.getState.
  cbn [PrizeManagerState.saved_originalPrizes PrizeManagerState.saved_currentIndex
       PrizeManager.originalPrizes PrizeManager.prizeQueue].
  rewrite <- Hq, (PersistenceProps.clampIndex_inside _ _ Hc). now destruct pm.
Qed.

Lemma autoSelect_frame prizes d :
  slotMachine (LotteryApp.autoSelectNextAvailablePrize prizes d) = slotMachine d
  /\ winnerManager (LotteryApp.autoSelectNextAvailablePrize prizes d) = winnerManager d
  /\ pendingWinner (LotteryApp.autoSelectNextAvailablePrize prizes d) = pendingWinner d
  /\ (state (LotteryApp.autoSelectNextAvailablePrize prizes d) = state d
      \/ state (LotteryApp.autoSelectNextAvailablePrize prizes d) = COMPLETE).
Proof. apply ListenerProps.app_listener_frame. Qed.

(** X18.  Reloading what saveState stored brings back the session: on a
    freshly constructed application, loadSavedState restores the two original
    lists, the ledger and the pool of the application that saved, and the
    prize manager (tiers, queue and cursor) as the listener's
    autoSelectNextAvailablePrize leaves it after the save; the phase starts
    over (READY, or COMPLETE) and no pending winner is restored.  The saving
    application's prize queue is the expansion of its tiers with the cursor
    inside, as the constructor and the methods keep it. *)
Theorem saveState_loadSavedState_restores_session
    (app : AppState.t) (participants : list Participant) (prizes : list Prize)
    (actionButtons : bool)
    (Hconsistent :
       PrizeManagerState.consistent (prizeManager (AppState.drawManager app))) :
  let d := AppState.drawManager app in
  let app' := AppState.loadSavedState (Some (AppState.saveState app))
                (AppState.initComponents participants prizes actionButtons) in
  let d' := AppState.drawManager app' in
  AppState.originalParticipants app' = AppState.originalParticipants app
  /\ AppState.originalPrizes app' = AppState.originalPrizes app
  /\ ledger d' = ledger d
  /\ pool d' = pool d
  /\ prizeManager d'
     = prizeManager (LotteryApp.onStateChange (AppState.originalPrizes app) d)
  /\ pendingWinner d' = None
  /\ (state d' = READY \/ state d' = COMPLETE).
Proof.
  cbv zeta. destruct app as [ops oprizes d]. cbn [AppState.drawManager] in *.
  unfold AppState.loadSavedState, AppState.saveState, AppState.initComponents.
  cbn [AppState.drawManager AppState.originalParticipants AppState.originalPrizes
       AppState.snap_participants AppState.snap_prizes AppState.snap_winners
       AppState.snap_originalParticipants AppState.snap_originalPrizes].
  match goal with
  | |- context [LotteryApp.autoSelectNextAvailablePrize oprizes ?x] => set (d3 := x)
  end.
  destruct (autoSelect_frame oprizes d3) as (Hsm & Hwm & Hpw & Hst).
  split; [reflexivity|]. split; [reflexivity|].
  unfold ledger, pool. rewrite Hsm, Hwm, Hpw.
  split; [reflexivity|]. split; [reflexivity|]. split; [|split].
  - unfold LotteryApp.onStateChange. apply autoSelect_prizeManager.
    + subst d3. cbn [prizeManager withSlotMachine withWinnerManager withPrizeManager].
      now apply loadState_getState.
    + subst d3. cbn. now destruct (winnerManager d).
  - reflexivity.
  - destruct Hst as [->| ->]; auto.
Qed.

Lemma saveState_loadSavedState_restores_session_witness :
  let prizes := [Examples.grand; Examples.first] in
  let d := DrawManager.mk (SlotMachine.new [Examples.A; Examples.C; Examples.D])
             (PrizeManager.mk prizes (PrizeManager.buildPrizeQueue prizes) 1)
             (WinnerManager.mk
                [mkWinner "B" "Y" (mkEntry Examples.first 1) 7])
             STOPPED (Some Examples.C) true in
  let app := AppState.mk [Examples.A; Examples.B; Examples.C; Examples.D] prizes d in
  let app' := AppState.loadSavedState (Some (AppState.saveState app))
                (AppState.initComponents [] [] true) in
  PrizeManagerState.consistent (prizeManager d)
  /\ ledger (AppState.drawManager app') = ledger (AppState.drawManager app)
  /\ pool (AppState.drawManager app') = pool (AppState.drawManager app)
  /\ pendingWinner (AppState.drawManager app') = None.
Proof.
  cbv zeta.
  assert (PrizeManagerState.consistent
            (PrizeManager.mk [Examples.grand; Examples.first]
               (PrizeManager.buildPrizeQueue [Examples.grand; Examples.first]) 1))
    as Hconsistent.
  { split; [reflexivity|vm_compute; lia]. }
  split; [exact Hconsistent|].
  destruct (saveState_loadSavedState_restores_session
              (AppState.mk [Examples.A; Examples.B; Examples.C; Examples.D]
                 [Examples.grand; Examples.first]
                 (DrawManager.mk (SlotMachine.new [Examples.A; Examples.C; Examples.D])
                    (PrizeManager.mk [Examples.grand; Examples.first]
                       (PrizeManager.buildPrizeQueue [Examples.grand; Examples.first])
                       1)
                    (WinnerManager.mk
                       [mkWinner "B" "Y" (mkEntry Examples.first 1) 7])
                    STOPPED (Some Examples.C) true))
              [] [] true Hconsistent) as (_ & _ & H3 & H4 & _ & H6 & _).
  split; [exact H3|]. split; [exact H4|exact H6].
Defined.

End ReloadProps.

(** ** Manual and automatic prize selection while the count is right *)

Module SelectProps.

Import DrawManager Session SessionSpec.

(** The element at index [i] is the next one a filter keeps after those it
    keeps among the first [i]. *)
Lemma nth_error_filter {A : Type} (f : A -> bool) (l : list A) (i : nat) (x : A) :
  nth_error l i = Some x -> f x = true ->
  nth_error (filter f l) (length (filter f (firstn i l))) = Some x.
Proof.
  revert i. induction l as [|y l IH]; intros [|i] H Hx; try discriminate H.
  - cbn in H. inversion H; subst. cbn. now rewrite Hx.
  - cbn [nth_error firstn filter] in *. destruct (f y); cbn; now apply IH.
Qed.

Lemma nth_error_instances p k e :
  nth_error (PrizeManager.instances p) k = Some e ->
  e = mkEntry p (Z.of_nat k + 1).
Proof.
  unfold PrizeManager.instances. intros H.
  rewrite nth_error_map in H.
  destruct (nth_error (seq 1 (Z.to_nat (quantity p))) k) as [n|] eqn:E;
    [|discriminate H].
  cbn in H. inversion H; subst.
  assert (k < length (seq 1 (Z.to_nat (quantity p)))) as Hlt
    by (apply nth_error_Some; congruence).
  rewrite length_seq in Hlt.
  rewrite (nth_error_nth' _ 0) in E by (now rewrite length_seq).
  rewrite seq_nth in E by exact Hlt. inversion E. f_equal. lia.
Qed.

Lemma filter_all {A : Type} (f : A -> bool) (l : list A) :
  (forall x, In x l -> f x = true) -> filter f l = l.
Proof.
  induction l as [|y l IH]; intros H; cbn; [reflexivity|].
  rewrite (H y (or_introl eq_refl)). f_equal. apply IH. intros x Hx. apply H. now right.
Qed.

Lemma filter_none {A : Type} (f : A -> bool) (l : list A) :
  (forall x, In x l -> f x = false) -> filter f l = [].
Proof.
  induction l as [|y l IH]; intros H; cbn; [reflexivity|].
  rewrite (H y (or_introl eq_refl)). apply IH. intros x Hx. apply H. now right.
Qed.

(** With unique tier ids the slots of a tier in the queue are its
    instances, in order. *)
Lemma filter_flat_map_instances (p : Prize) (l : list Prize) :
  NoDup (map id l) -> In p l ->
  filter (fun q => (id (tier q) =? id p)%Z) (flat_map PrizeManager.instances l)
  = PrizeManager.instances p.
Proof.
  assert (forall t, id t <> id p ->
            filter (fun q => (id (tier q) =? id p)%Z) (PrizeManager.instances t) = [])
    as Hother.
  { intros t Ht. apply filter_none. intros q Hq.
    rewrite (PrizeQueueFacts.instances_tier _ _ Hq). now apply Z.eqb_neq. }
  assert (filter (fun q => (id (tier q) =? id p)%Z) (PrizeManager.instances p)
          = PrizeManager.instances p) as Hsame.
  { apply filter_all. intros q Hq.
    rewrite (PrizeQueueFacts.instances_tier _ _ Hq). apply Z.eqb_refl. }
  induction l as [|t l IH]; intros Hnd Hin; [elim Hin|].
  cbn [flat_map map] in *. rewrite filter_app.
  inversion Hnd as [|? ? Hnotin Hnd']; subst.
  destruct Hin as [->|Hin].
  - rewrite Hsame.
    assert (filter (fun q => (id (tier q) =? id p)%Z)
              (flat_map PrizeManager.instances l) = []) as ->; [|apply app_nil_r].
    apply filter_none. intros q Hq. apply in_flat_map in Hq.
    destruct Hq as (t & Ht & Hq).
    rewrite (PrizeQueueFacts.instances_tier _ _ Hq). apply Z.eqb_neq.
    intros E. apply Hnotin. rewrite <- E. now apply in_map.
  - rewrite Hother, IH; auto.
    intros E. apply Hnotin. rewrite E. now apply in_map.
Qed.

(** With unique ids, looking a tier up by its id finds that tier. *)
Lemma find_by_id (p : Prize) (l : list Prize) :
  NoDup (map id l) -> In p l ->
  find (fun t => (id t =? id p)%Z) l = Some p.
Proof.
  induction l as [|t l IH]; intros Hnd Hin; [elim Hin|].
  cbn [find map] in *. inversion Hnd as [|? ? Hnotin Hnd']; subst.
  destruct Hin as [->|Hin].
  - now rewrite Z.eqb_refl.
  - destruct (id t =? id p)%Z eqn:E; [|now apply IH].
    apply Z.eqb_eq in E. elim Hnotin. rewrite E. now apply in_map.
Qed.

(** [findIndex] finds a slot whenever the queue has enough of the tier. *)
Lemma findSlot_complete prizeId target count queue :
  count < target ->
  target <= count + length (filter (fun q => (id (tier q) =? prizeId)%Z) queue) ->
  exists i, LotteryApp.findSlot prizeId target count queue = Some i.
Proof.
  revert count. induction queue as [|q queue IH]; intros count Hlt Hle.
  - cbn in Hle. lia.
  - cbn [LotteryApp.findSlot filter] in *.
    destruct (id (tier q) =? prizeId)%Z.
    + destruct (S count =? target) eqn:E; [eauto|].
      apply Nat.eqb_neq in E. cbn [List.length] in Hle.
      destruct (IH (S count)) as [i ->]; [lia|lia|]. cbn. eauto.
    + destruct (IH count) as [i ->]; [lia|lia|]. cbn. eauto.
Qed.

Section Consistent.

Variable prizes : list Prize.
Hypothesis ids_unique : NoDup (map id prizes).

Lemma queue_slots_of_tier p :
  In p prizes ->
  filter (fun q => (id (tier q) =? id p)%Z) (PrizeManager.buildPrizeQueue prizes)
  = PrizeManager.instances p.
Proof.
  intros Hin. rewrite PrizeQueueFacts.buildPrizeQueue_flat_map.
  apply filter_flat_map_instances.
  - apply (Permutation_NoDup
             (Permutation_map id (Permutation_sym
                (PrizeQueueFacts.sortByIdDesc_perm prizes))) ids_unique).
  - apply (Permutation_in _ (Permutation_sym
             (PrizeQueueFacts.sortByIdDesc_perm prizes)) Hin).
Qed.

Lemma selectPrize_next_instance p d :
  In p prizes ->
  queue d = PrizeManager.buildPrizeQueue prizes ->
  hasRemaining d p = true ->
  exists index,
    LotteryApp.selectPrize prizes (id p) d
    = updateUI (withPrizeManager
                  (PrizeManager.setCurrentIndex index (prizeManager d)) d)
    /\ nth_error (queue d) index
       = Some (mkEntry p (Z.of_nat (LotteryApp.awardedCount (id p) d) + 1)).
Proof.
  intros Hin Hq Hrem. unfold hasRemaining in Hrem. apply Z.ltb_lt in Hrem.
  unfold LotteryApp.selectPrize. rewrite (find_by_id p prizes ids_unique Hin).
  destruct (_ <=? _)%Z eqn:E; [apply Z.leb_le in E; lia|].
  fold (queue d).
  destruct (findSlot_complete (id p) (LotteryApp.awardedCount (id p) d + 1) 0 (queue d))
    as [index Hi].
  { lia. }
  { rewrite Hq, (queue_slots_of_tier p Hin), PrizeQueueFacts.length_instances. lia. }
  rewrite Hi. exists index. split; [reflexivity|].
  apply OrchestratorFacts.findSlot_spec in Hi. destruct Hi as (e & He & Hid & Hn).
  rewrite He. f_equal.
  assert ((id (tier e) =? id p)%Z = true) as Hf by now apply Z.eqb_eq.
  pose proof (nth_error_filter (fun q => (id (tier q) =? id p)%Z) _ _ _ He Hf) as Hnth.
  rewrite (PlainProps.firstn_snoc _ _ _ He), filter_app, length_app in Hn.
  cbn [filter] in Hn. rewrite Hf in Hn. cbn [List.length] in Hn.
  assert (length (filter (fun q => (id (tier q) =? id p)%Z) (firstn index (queue d)))
          = LotteryApp.awardedCount (id p) d) as Hk by lia.
  rewrite Hk, Hq, (queue_slots_of_tier p Hin) in Hnth.
  now apply nth_error_instances.
Qed.

End Consistent.

(** With a tier that has prizes left, the auto-selection leaves the cursor
    on a slot of such a tier. *)
Lemma autoSelect_lands_open prizes d :
  NoDup (map id prizes) ->
  queue d = PrizeManager.buildPrizeQueue prizes ->
  existsb (hasRemaining d) prizes = true ->
  LotteryApp.currentPrizeHasRemaining prizes
    (LotteryApp.autoSelectNextAvailablePrize prizes d) = true.
Proof.
  intros Hids Hqueue Hex. unfold LotteryApp.autoSelectNextAvailablePrize.
  destruct (LotteryApp.currentPrizeHasRemaining prizes d) eqn:Ecur; [exact Ecur|].
  change (fun prize : Prize =>
            (Z.of_nat (LotteryApp.awardedCount (id prize) d) <? quantity prize)%Z)
    with (hasRemaining d).
  apply existsb_exists in Hex. destruct Hex as (p & Hp & Hrem).
  destruct (find (hasRemaining d) (PrizeManager.sortByIdDesc prizes)) as [t|] eqn:Ef.
  - apply find_some in Ef. destruct Ef as [Ht Htrem].
    apply (Permutation_in _ (PrizeQueueFacts.sortByIdDesc_perm prizes)) in Ht.
    destruct (selectPrize_next_instance prizes Hids t d Ht Hqueue Htrem)
      as (index & -> & Hnth).
    unfold LotteryApp.currentPrizeHasRemaining, LotteryApp.awardedCount.
    destruct (OrchestratorFacts.updateUI_views
                (withPrizeManager
                   (PrizeManager.setCurrentIndex index (prizeManager d)) d))
      as (Hl & Hpm & _).
    unfold ledger in Hl. rewrite Hpm.
    assert (winnerManager
              (updateUI (withPrizeManager
                 (PrizeManager.setCurrentIndex index (prizeManager d)) d))
            = winnerManager d) as ->.
    { apply (DrawFacts.updateButtons_frame
               (withPrizeManager
                  (PrizeManager.setCurrentIndex index (prizeManager d)) d)). }
    unfold PrizeManager.getCurrentPrize.
    cbn [prizeManager withPrizeManager PrizeManager.setCurrentIndex
         PrizeManager.prizeQueue PrizeManager.currentIndex].
    fold (queue d).
    assert (index < length (queue d)) as Hlt by (apply nth_error_Some; congruence).
    destruct (_ <=? _) eqn:E; [apply Nat.leb_le in E; lia|].
    rewrite Hnth. cbn [tier]. rewrite (find_by_id t prizes Hids Ht).
    exact Htrem.
  - exfalso.
    assert (hasRemaining d p = false) as X; [|rewrite X in Hrem; discriminate Hrem].
    apply (find_none _ _ Ef p).
    apply (Permutation_in _ (Permutation_sym
             (PrizeQueueFacts.sortByIdDesc_perm prizes)) Hp).
Qed.

(** With no tier that has prizes left, the auto-selection changes nothing. *)
Lemma autoSelect_unchanged prizes d :
  existsb (hasRemaining d) prizes = false ->
  LotteryApp.autoSelectNextAvailablePrize prizes d = d.
Proof.
  intros Hex. unfold LotteryApp.autoSelectNextAvailablePrize.
  destruct (LotteryApp.currentPrizeHasRemaining prizes d); [reflexivity|].
  change (fun prize : Prize =>
            (Z.of_nat (LotteryApp.awardedCount (id prize) d) <? quantity prize)%Z)
    with (hasRemaining d).
  destruct (find (hasRemaining d) (PrizeManager.sortByIdDesc prizes)) as [t|] eqn:Ef;
    [|reflexivity].
  apply find_some in Ef. destruct Ef as [Ht Htrem].
  apply (Permutation_in _ (PrizeQueueFacts.sortByIdDesc_perm prizes)) in Ht.
  assert (existsb (hasRemaining d) prizes = true) as X
    by (apply existsb_exists; eauto).
  rewrite X in Hex. discriminate Hex.
Qed.

(** X19.  While the tiers have unique ids and the queue is the expansion
    of the tiers, selectPrize on a tier that has fewer winners than prizes
    puts the cursor on the instance of that tier numbered one more than the
    tier's winners, and touches neither ledger nor pool nor queue; on a tier
    with no prize left it changes nothing. *)
Theorem selectPrize_moves_to_next_instance
    (prizes : list Prize) (p : Prize) (d : DrawManager.t)
    (Hids : NoDup (map id prizes))
    (Hin : In p prizes)
    (Hqueue : queue d = PrizeManager.buildPrizeQueue prizes) :
  let d' := LotteryApp.selectPrize prizes (id p) d in
  (hasRemaining d p = true ->
   PrizeManager.getCurrentPrize (prizeManager d')
   = Some (mkEntry p (Z.of_nat (LotteryApp.awardedCount (id p) d) + 1))
   /\ ledger d' = ledger d /\ pool d' = pool d /\ queue d' = queue d)
  /\ (hasRemaining d p = false -> d' = d).
Proof.
  cbv zeta. split.
  - intros Hrem.
    destruct (selectPrize_next_instance prizes Hids p d Hin Hqueue Hrem)
      as (index & -> & Hnth).
    destruct (OrchestratorFacts.updateUI_views
                (withPrizeManager
                   (PrizeManager.setCurrentIndex index (prizeManager d)) d))
      as (Hl & Hpm & Hp & _).
    unfold queue. rewrite Hl, Hpm, Hp. repeat split.
    unfold PrizeManager.getCurrentPrize.
    cbn [prizeManager withPrizeManager PrizeManager.setCurrentIndex
         PrizeManager.prizeQueue PrizeManager.currentIndex].
    fold (queue d).
    assert (index < length (queue d)) as Hlt by (apply nth_error_Some; congruence).
    destruct (_ <=? _) eqn:E; [apply Nat.leb_le in E; lia|exact Hnth].
  - intros Hrem. unfold hasRemaining in Hrem. apply Z.ltb_ge in Hrem.
    unfold LotteryApp.selectPrize. rewrite (find_by_id p prizes Hids Hin).
    destruct (_ <=? _)%Z eqn:E; [reflexivity|apply Z.leb_gt in E; lia].
Qed.

Lemma selectPrize_moves_to_next_instance_witness :
  let prizes := [Examples.grand; Examples.first] in
  let d := DrawManager.mk (SlotMachine.new [Examples.A; Examples.C; Examples.D])
             (PrizeManager.mk prizes (PrizeManager.buildPrizeQueue prizes) 2)
             (WinnerManager.mk
                [mkWinner "B" "Y" (mkEntry Examples.first 1) 7])
             READY None true in
  hasRemaining d Examples.first = true
  /\ PrizeManager.getCurrentPrize
       (prizeManager (LotteryApp.selectPrize prizes (id Examples.first) d))
     = Some (mkEntry Examples.first 2).
Proof.
  cbv zeta. split; [vm_compute; reflexivity|].
  refine (proj1 (proj1
    (selectPrize_moves_to_next_instance [Examples.grand; Examples.first]
       Examples.first
       (DrawManager.mk (SlotMachine.new [Examples.A; Examples.C; Examples.D])
          (PrizeManager.mk [Examples.grand; Examples.first]
             (PrizeManager.buildPrizeQueue [Examples.grand; Examples.first]) 2)
          (WinnerManager.mk [mkWinner "B" "Y" (mkEntry Examples.first 1) 7])
          READY None true)
       _ _ _) _)).
  - vm_compute. repeat constructor; cbn; intuition discriminate.
  - right. left. reflexivity.
  - reflexivity.
  - vm_compute; reflexivity.
Defined.

(** X20.  While the tiers have unique ids and the queue is the expansion
    of the tiers, autoSelectNextAvailablePrize leaves the cursor on a slot
    whose tier has fewer winners than prizes whenever some tier has, and
    changes nothing when no tier has. *)
Theorem autoSelect_finds_a_tier_with_prizes_left
    (prizes : list Prize) (d : DrawManager.t)
    (Hids : NoDup (map id prizes))
    (Hqueue : queue d = PrizeManager.buildPrizeQueue prizes) :
  let d' := LotteryApp.autoSelectNextAvailablePrize prizes d in
  (existsb (hasRemaining d) prizes = true ->
   LotteryApp.currentPrizeHasRemaining prizes d' = true)
  /\ (existsb (hasRemaining d) prizes = false -> d' = d).
Proof.
  cbv zeta. split.
  - intros Hex. now apply autoSelect_lands_open.
  - intros Hex. now apply autoSelect_unchanged.
Qed.

Lemma autoSelect_finds_a_tier_with_prizes_left_witness :
  let prizes := [Examples.grand; Examples.first] in
  let d := DrawManager.mk (SlotMachine.new [Examples.C; Examples.D])
             (PrizeManager.mk prizes (PrizeManager.buildPrizeQueue prizes) 0)
             (WinnerManager.mk
                [mkWinner "B" "Y" (mkEntry Examples.first 1) 7;
                 mkWinner "A" "X" (mkEntry Examples.first 2) 8])
             READY None true in
  LotteryApp.currentPrizeHasRemaining prizes d = false
  /\ LotteryApp.currentPrizeHasRemaining prizes
       (LotteryApp.autoSelectNextAvailablePrize prizes d) = true.
Proof.
  cbv zeta. split; [vm_compute; reflexivity|].
  refine (proj1
    (autoSelect_finds_a_tier_with_prizes_left [Examples.grand; Examples.first]
       (DrawManager.mk (SlotMachine.new [Examples.C; Examples.D])
          (PrizeManager.mk [Examples.grand; Examples.first]
             (PrizeManager.buildPrizeQueue [Examples.grand; Examples.first]) 0)
          (WinnerManager.mk
             [mkWinner "B" "Y" (mkEntry Examples.first 1) 7;
              mkWinner "A" "X" (mkEntry Examples.first 2) 8])
          READY None true)
       _ _) _).
  - vm_compute. repeat constructor; cbn; intuition discriminate.
  - reflexivity.
  - vm_compute; reflexivity.
Defined.

End SelectProps.

(** ** A reveal timer that outlives its spin *)

Module StaleTimerProps.

Import DrawManager Session SessionSpec.

(** X21.  A reveal timer that fires while the phase is SPINNING and the
    slot machine has picked nobody (the timer of a spin that reset cancelled,
    firing during the next spin before STOP) switches the slot machine's
    isSpinning off without telling the orchestrator: the phase stays
    SPINNING, and from then on stopSpin, startSpin, confirmWinner and respin
    all leave the orchestrator as it is. *)
Theorem silent_reveal_leaves_spin_unstoppable
    (d : DrawManager.t)
    (Hphase : state d = SPINNING)
    (Hnobody : SlotMachine.pendingWinner (slotMachine d) = None)
    (Htimer : 0 < SlotMachine.revealTimers (slotMachine d)) :
  let d' := revealTimer d in
  state d' = SPINNING
  /\ SlotMachine.isSpinning (slotMachine d') = false
  /\ pool d' = pool d /\ ledger d' = ledger d /\ cursor d' = cursor d
  /\ (forall winnerIndex, stopSpin winnerIndex d' = d')
  /\ startSpin d' = d'
  /\ respin d' = d'
  /\ (forall h now, confirmWinner h now d' = Returns d').
Proof.
  cbv zeta. unfold revealTimer.
  destruct (SlotMachine.revealTimers (slotMachine d) =? 0) eqn:E;
    [apply Nat.eqb_eq in E; lia|].
  unfold onSpinComplete. cbn [SlotMachine.reveal SlotMachine.pendingWinner].
  rewrite Hnobody.
  unfold stopSpin, startSpin, respin, confirmWinner, pool, ledger, cursor.
  cbn [state slotMachine prizeManager winnerManager withSlotMachine
       SlotMachine.participants SlotMachine.isSpinning].
  rewrite Hphase. cbn [STATE_eqb negb].
  unfold SlotMachine.stop. cbn [SlotMachine.isSpinning negb orb].
  repeat split; reflexivity.
Qed.

Lemma silent_reveal_leaves_spin_unstoppable_witness :
  let d := run [Examples.grand; Examples.first] None
             [StartSpin; StopSpin 0; AnimationFrame;
              Reset [Examples.A; Examples.B; Examples.C; Examples.D]; StartSpin]
             Examples.fresh in
  state d = SPINNING
  /\ state (revealTimer d) = SPINNING
  /\ forall winnerIndex, stopSpin winnerIndex (revealTimer d) = revealTimer d.
Proof.
  cbv zeta.
  assert (state (run [Examples.grand; Examples.first] None
               [StartSpin; StopSpin 0; AnimationFrame;
                Reset [Examples.A; Examples.B; Examples.C; Examples.D]; StartSpin]
               Examples.fresh) = SPINNING) as Hphase by (vm_compute; reflexivity).
  assert (SlotMachine.pendingWinner (slotMachine (run [Examples.grand; Examples.first] None
               [StartSpin; StopSpin 0; AnimationFrame;
                Reset [Examples.A; Examples.B; Examples.C; Examples.D]; StartSpin]
               Examples.fresh)) = None) as Hnobody
    by (vm_compute; reflexivity).
  assert (0 < SlotMachine.revealTimers (slotMachine (run [Examples.grand; Examples.first] None
               [StartSpin; StopSpin 0; AnimationFrame;
                Reset [Examples.A; Examples.B; Examples.C; Examples.D]; StartSpin]
               Examples.fresh))) as Htimer
    by (vm_compute; lia).
  pose proof (silent_reveal_leaves_spin_unstoppable _ Hphase Hnobody Htimer) as H.
  cbv zeta in H. destruct H as (H1 & _ & _ & _ & _ & H6 & _).
  split; [exact Hphase|]. split; [exact H1|exact H6].
Defined.

End StaleTimerProps.

(** ** The first prize of a fresh start *)

Module InitProps.

Import DrawManager Session SessionSpec.

(** X22.  On a fresh start (nothing in storage) with unique tier ids the
    auto-selection of init changes nothing: the application starts as
    updateUI leaves the new orchestrator, with the cursor on the first slot
    of the queue, an empty ledger and everybody in the pool. *)
Theorem init_starts_at_first_slot
    (prizes : list Prize) (participants : list Participant) (actionButtons : bool)
    (Hids : NoDup (map id prizes)) :
  LotteryApp.init prizes participants actionButtons
  = updateUI (fresh participants prizes actionButtons)
  /\ cursor (LotteryApp.init prizes participants actionButtons) = 0
  /\ ledger (LotteryApp.init prizes participants actionButtons) = []
  /\ pool (LotteryApp.init prizes participants actionButtons) = participants.
Proof.
  assert (LotteryApp.init prizes participants actionButtons
          = updateUI (fresh participants prizes actionButtons)) as Hinit.
  { unfold LotteryApp.init.
    change (new (SlotMachine.new participants) (PrizeManager.new prizes)
              WinnerManager.new actionButtons)
      with (fresh participants prizes actionButtons).
    set (d := updateUI (fresh participants prizes actionButtons)).
    assert (ledger d = [] /\ queue d = PrizeManager.buildPrizeQueue prizes
            /\ cursor d = 0) as (Hl & Hq & Hc).
    { unfold ledger, queue, cursor. subst d.
      destruct (OrchestratorFacts.updateUI_views
                  (fresh participants prizes actionButtons)) as (Hl & -> & _).
      unfold ledger in Hl. rewrite Hl. repeat split. }
    assert (forall t, hasRemaining d t = (0 <? quantity t)%Z) as Hrem.
    { intros t. unfold hasRemaining, LotteryApp.awardedCount,
        WinnerManager.getWinnersByPrize.
      unfold ledger in Hl. rewrite Hl. reflexivity. }
    destruct (existsb (hasRemaining d) prizes) eqn:Ex.
    - unfold LotteryApp.autoSelectNextAvailablePrize.
      assert (LotteryApp.currentPrizeHasRemaining prizes d = true) as ->;
        [|reflexivity].
      unfold LotteryApp.currentPrizeHasRemaining, PrizeManager.getCurrentPrize.
      fold (queue d) (cursor d). rewrite Hc, Hq.
      destruct (PrizeManager.buildPrizeQueue prizes) as [|e slots] eqn:Eq.
      + exfalso. apply existsb_exists in Ex. destruct Ex as (t & Ht & Htrem).
        rewrite Hrem in Htrem. apply Z.ltb_lt in Htrem.
        pose proof (SelectProps.queue_slots_of_tier prizes Hids t Ht) as Hs.
        rewrite Eq in Hs. cbn in Hs.
        apply (f_equal (@List.length _)) in Hs.
        rewrite PrizeQueueFacts.length_instances in Hs. cbn in Hs. lia.
      + cbn [List.length Nat.leb nth_error].
        assert (In e (PrizeManager.buildPrizeQueue prizes)) as He
          by (rewrite Eq; now left).
        rewrite PrizeQueueFacts.buildPrizeQueue_flat_map in He.
        apply in_flat_map in He. destruct He as (t & Ht & He).
        apply (Permutation_in _ (PrizeQueueFacts.sortByIdDesc_perm prizes)) in Ht.
        pose proof (PrizeQueueFacts.instances_tier _ _ He) as Et. rewrite Et.
        rewrite (SelectProps.find_by_id t prizes Hids Ht).
        change (hasRemaining d t = true). rewrite Hrem.
        unfold PrizeManager.instances in He. apply in_map_iff in He.
        destruct He as (k & _ & Hk). apply in_seq in Hk.
        apply Z.ltb_lt. lia.
    - apply (SelectProps.autoSelect_unchanged prizes d Ex). }
  rewrite Hinit. unfold cursor, ledger, pool.
  destruct (DrawFacts.updateButtons_frame (fresh participants prizes actionButtons))
    as (Hsm & Hpm & Hwm & _).
  unfold updateUI. rewrite Hsm, Hpm, Hwm. repeat split.
Qed.

Lemma init_starts_at_first_slot_witness :
  cursor (LotteryApp.init [Examples.grand; Examples.first]
            [Examples.A; Examples.B] true) = 0
  /\ PrizeManager.getCurrentPrize
       (prizeManager (LotteryApp.init [Examples.grand; Examples.first]
                        [Examples.A; Examples.B] true))
     = Some (mkEntry Examples.first 1).
Proof.
  split; [|vm_compute; reflexivity].
  apply (init_starts_at_first_slot [Examples.grand; Examples.first]
           [Examples.A; Examples.B] true).
  vm_compute. repeat constructor; cbn; intuition discriminate.
Defined.

End InitProps.

(** * The application as wired *)

(** ** Counting winners by tier *)

Module CountFacts.

Import DrawManager Session SessionSpec.

Lemma filter_split_length {A : Type} (f : A -> bool) (l : list A) :
  length (filter f l) + length (filter (fun x => negb (f x)) l) = length l.
Proof.
  induction l as [|x l IH]; [reflexivity|].
  cbn [filter]. destruct (f x); cbn [negb List.length]; lia.
Qed.

Lemma filter_filter_implied {A : Type} (f g : A -> bool) (l : list A) :
  (forall x, f x = true -> g x = true) -> filter f (filter g l) = filter f l.
Proof.
  intros H. induction l as [|x l IH]; [reflexivity|].
  cbn [filter]. destruct (g x) eqn:Eg.
  - cbn [filter]. destruct (f x); [f_equal|]; exact IH.
  - destruct (f x) eqn:Ef; [|exact IH].
    rewrite (H x Ef) in Eg. discriminate Eg.
Qed.

Lemma filter_map_prize (pid : Z) (ws : list Winner) :
  filter (fun q => (id (tier q) =? pid)%Z) (map prize ws)
  = map prize (filter (fun w => (id (tier (prize w)) =? pid)%Z) ws).
Proof.
  induction ws as [|w ws IH]; [reflexivity|].
  cbn [map filter]. destruct (id (tier (prize w)) =? pid)%Z; cbn [map]; now rewrite IH.
Qed.

(** The winners of a tier, counted in the prize snapshots of the ledger. *)
Lemma awardedCount_slots pid d :
  LotteryApp.awardedCount pid d
  = length (filter (fun q => (id (tier q) =? pid)%Z) (map prize (ledger d))).
Proof.
  unfold LotteryApp.awardedCount, WinnerManager.getWinnersByPrize, ledger.
  now rewrite filter_map_prize, length_map.
Qed.

(** With unique tier ids a winner counts for one tier at most: when every
    tier has as many winners as prizes, the ledger is as long as the queue. *)
Lemma exhausted_tiers_fill_ledger (tiers : list Prize) (ws : list Winner) :
  NoDup (map id tiers) ->
  (forall t, In t tiers ->
     Z.to_nat (quantity t)
     <= length (filter (fun w => (id (tier (prize w)) =? id t)%Z) ws)) ->
  PrizeManager.totalQuantity tiers <= length ws.
Proof.
  revert ws. induction tiers as [|t tiers IH]; intros ws Hnd H.
  - cbn. lia.
  - cbn [PrizeManager.totalQuantity fold_right].
    fold (PrizeManager.totalQuantity tiers).
    cbn [map] in Hnd. inversion Hnd as [|? ? Hnotin Hnd']; subst.
    pose proof (filter_split_length
                  (fun w => (id (tier (prize w)) =? id t)%Z) ws) as Hsplit.
    pose proof (H t (or_introl eq_refl)) as Ht.
    assert (PrizeManager.totalQuantity tiers
            <= length (filter (fun w => negb (id (tier (prize w)) =? id t)%Z) ws))
      as Hrest; [|lia].
    apply IH; [exact Hnd'|].
    intros t' Ht'. rewrite filter_filter_implied; [apply H; now right|].
    intros w Hw. apply Z.eqb_eq in Hw. apply Bool.negb_true_iff, Z.eqb_neq.
    intros E. apply Hnotin. rewrite <- E, Hw. now apply in_map.
Qed.

Lemma not_hasRemaining d t :
  hasRemaining d t = false ->
  Z.to_nat (quantity t)
  <= length (filter (fun w => (id (tier (prize w)) =? id t)%Z) (ledger d)).
Proof.
  unfold hasRemaining, LotteryApp.awardedCount, WinnerManager.getWinnersByPrize, ledger.
  intros H. apply Z.ltb_ge in H. lia.
Qed.

(** While the ledger is shorter than the queue, some tier has prizes left. *)
Lemma short_ledger_has_open_tier prizes d :
  NoDup (map id prizes) ->
  queue d = PrizeManager.buildPrizeQueue prizes ->
  length (ledger d) < length (queue d) ->
  existsb (hasRemaining d) prizes = true.
Proof.
  intros Hids Hq Hlt.
  destruct (existsb (hasRemaining d) prizes) eqn:E; [reflexivity|exfalso].
  assert (PrizeManager.totalQuantity prizes <= length (ledger d)) as Hle.
  { apply exhausted_tiers_fill_ledger; [exact Hids|].
    intros t Ht. apply not_hasRemaining.
    destruct (hasRemaining d t) eqn:Et; [|reflexivity].
    assert (existsb (hasRemaining d) prizes = true) as X
      by (apply existsb_exists; eauto).
    rewrite X in E. discriminate E. }
  rewrite Hq, PrizeQueueFacts.length_buildPrizeQueue in Hlt. lia.
Qed.

(** In queue order the cursor is on an open tier, or no tier is open. *)
Lemma queueOrder_onOpenTier prizes d :
  NoDup (map id prizes) -> queueOrder prizes d -> onOpenTier prizes d.
Proof.
  intros Hids (Hq & Hc & Hl) Hex.
  assert (cursor d <= length (queue d)) as Hle.
  { apply (f_equal (@List.length _)) in Hl.
    rewrite length_map, length_firstn, <- Hc in Hl. lia. }
  destruct (Nat.eq_dec (cursor d) (length (queue d))) as [Hend|Hmid].
  - exfalso. apply existsb_exists in Hex. destruct Hex as (t & Ht & Hrem).
    unfold hasRemaining in Hrem. apply Z.ltb_lt in Hrem.
    rewrite awardedCount_slots, Hl, Hend, firstn_all, Hq in Hrem.
    rewrite (SelectProps.queue_slots_of_tier prizes Hids t Ht) in Hrem.
    rewrite PrizeQueueFacts.length_instances in Hrem. lia.
  - assert (cursor d < length (queue d)) as Hlt by lia.
    destruct (nth_error (queue d) (cursor d)) as [e|] eqn:He;
      [|apply nth_error_None in He; lia].
    assert (In e (PrizeManager.buildPrizeQueue prizes)) as Hin
      by (rewrite <- Hq; eapply nth_error_In; exact He).
    rewrite PrizeQueueFacts.buildPrizeQueue_flat_map in Hin.
    apply in_flat_map in Hin. destruct Hin as (t & Ht & Hin).
    apply (Permutation_in _ (PrizeQueueFacts.sortByIdDesc_perm prizes)) in Ht.
    pose proof (PrizeQueueFacts.instances_tier _ _ Hin) as Et.
    unfold LotteryApp.currentPrizeHasRemaining, PrizeManager.getCurrentPrize.
    fold (queue d) (cursor d).
    destruct (_ <=? _) eqn:E; [apply Nat.leb_le in E; lia|].
    rewrite He, Et, (SelectProps.find_by_id t prizes Hids Ht).
    apply Z.ltb_lt.
    assert ((id (tier e) =? id t)%Z = true) as Hf
      by (rewrite Et; apply Z.eqb_refl).
    pose proof (SelectProps.nth_error_filter
                  (fun q => (id (tier q) =? id t)%Z) _ _ _ He Hf) as Hnth.
    assert (length (filter (fun q => (id (tier q) =? id t)%Z)
                      (firstn (cursor d) (queue d)))
            < length (filter (fun q => (id (tier q) =? id t)%Z) (queue d))) as Hk
      by (apply nth_error_Some; congruence).
    rewrite <- Hl, <- awardedCount_slots in Hk.
    rewrite Hq, (SelectProps.queue_slots_of_tier prizes Hids t Ht),
      PrizeQueueFacts.length_instances in Hk.
    lia.
Qed.

(** So the listener of app.js has nothing to do in queue order. *)
Lemma queueOrder_listener_idle prizes d :
  NoDup (map id prizes) -> queueOrder prizes d ->
  LotteryApp.onStateChange prizes d = d.
Proof.
  intros Hids Hqo. pose proof (queueOrder_onOpenTier prizes d Hids Hqo) as Hopen.
  unfold LotteryApp.onStateChange.
  destruct (existsb (hasRemaining d) prizes) eqn:E.
  - unfold LotteryApp.autoSelectNextAvailablePrize. now rewrite (Hopen E).
  - now apply SelectProps.autoSelect_unchanged.
Qed.

End CountFacts.

(** ** The ledger never outgrows the queue *)

Module BoundFacts.

Import DrawManager Session SessionSpec.

Lemma bounded_ext d d' :
  ledger d' = ledger d -> queue d' = queue d -> (drawing d' -> drawing d) ->
  bounded d -> bounded d'.
Proof.
  unfold bounded. intros -> -> Hd [Hle Hlt]. split; [exact Hle|]. auto.
Qed.

Lemma short_bounded d : length (ledger d) < length (queue d) -> bounded d.
Proof. unfold bounded. intros H. split; [lia|auto]. Qed.

Lemma quiet_bounded d :
  length (ledger d) <= length (queue d) -> ~ drawing d -> bounded d.
Proof. unfold bounded. intros H Hq. split; [exact H|]. intros Hd. now elim Hq. Qed.

Lemma updateButtons_views d :
  ledger (updateButtons d) = ledger d /\ queue (updateButtons d) = queue d.
Proof.
  unfold ledger, queue.
  destruct (DrawFacts.updateButtons_frame d) as (_ & -> & -> & _). auto.
Qed.

Lemma updateButtons_bounded d : bounded d -> bounded (updateButtons d).
Proof.
  apply bounded_ext; [apply updateButtons_views|apply updateButtons_views|].
  apply PlainProps.updateButtons_drawing.
Qed.

(** After [READY] was stored and the slot machine's pick cleared, no draw
    is under way, whatever the button refresh does. *)
Lemma settled_not_drawing d :
  state d = READY \/ state d = COMPLETE ->
  SlotMachine.pendingWinner (slotMachine d) = None ->
  ~ drawing d.
Proof.
  intros [Hs|Hs] Hp [H|[H|H]]; try (rewrite Hs in H; discriminate H);
    now elim H.
Qed.

Section Bounded.

Variable prizes : list Prize.
Variable h : option (DrawManager.t -> DrawManager.t).
Hypothesis listener_keeps_books : keepsBooks h.
Hypothesis listener_keeps_phase : keepsPhase h.
Hypothesis listener_keeps_queue : keepsQueue h.

Lemma notify_keeps d :
  ledger (notify h d) = ledger d
  /\ queue (notify h d) = queue d
  /\ slotMachine (notify h d) = slotMachine d
  /\ (state (notify h d) = state d \/ state (notify h d) = COMPLETE).
Proof.
  unfold notify, ledger. destruct h as [f|] eqn:E; [|auto].
  destruct (listener_keeps_books f eq_refl d) as (Hsm & Hwm & _).
  destruct (listener_keeps_queue f eq_refl d) as (_ & Hq & _).
  rewrite Hsm, Hwm, Hq. repeat split.
  apply (listener_keeps_phase f eq_refl d).
Qed.

Lemma notify_bounded d : bounded d -> bounded (notify h d).
Proof.
  destruct (notify_keeps d) as (Hl & Hq & Hsm & Hst).
  apply bounded_ext; [exact Hl|exact Hq|].
  unfold drawing. rewrite Hsm.
  destruct Hst as [->| ->]; [auto|].
  intros [H|[H|H]]; [discriminate H|discriminate H|auto].
Qed.

Lemma startSpin_bounded d : bounded d -> bounded (startSpin d).
Proof.
  intros H. unfold startSpin.
  destruct (negb (STATE_eqb (state d) READY)); [exact H|].
  destruct (isComplete d) eqn:Ec; [exact H|].
  destruct (negb (SlotMachine.hasParticipants (slotMachine d))); [exact H|].
  unfold SlotMachine.startSpin.
  destruct (SlotMachine.isSpinning (slotMachine d) || _).
  - revert H. apply bounded_ext; auto.
  - apply updateButtons_bounded, short_bounded.
    unfold isComplete, PrizeManager.getTotalPrizes, WinnerManager.getWinners in Ec.
    apply Nat.leb_gt in Ec. exact Ec.
Qed.

Lemma stopSpin_bounded r d : bounded d -> bounded (stopSpin r d).
Proof.
  intros H. unfold stopSpin.
  destruct (negb (STATE_eqb (state d) SPINNING)) eqn:Es; [exact H|].
  apply Bool.negb_false_iff, DrawFacts.STATE_eqb_eq in Es.
  apply short_bounded. apply H. now left.
Qed.

Lemma animationFrame_bounded d : bounded d -> bounded (animationFrame d).
Proof.
  apply bounded_ext; [reflexivity|reflexivity|].
  unfold drawing, animationFrame. cbn [state slotMachine withSlotMachine].
  destruct (PoolFacts.animationFrame_pool (slotMachine d)) as [_ ->]. auto.
Qed.

Lemma revealTimer_bounded d : bounded d -> bounded (revealTimer d).
Proof.
  intros H. unfold revealTimer. destruct (_ =? 0); [exact H|].
  unfold onSpinComplete. cbn [SlotMachine.reveal SlotMachine.pendingWinner].
  destruct (SlotMachine.pendingWinner (slotMachine d)) as [w|] eqn:Ew.
  - apply updateButtons_bounded, short_bounded.
    apply H. right. right. rewrite Ew. discriminate.
  - revert H. apply bounded_ext; [reflexivity|reflexivity|].
    unfold drawing. cbn [state slotMachine withSlotMachine SlotMachine.reveal
                          SlotMachine.pendingWinner].
    auto.
Qed.

Lemma confirmWinner_bounded now d :
  bounded d -> bounded (after (confirmWinner h now d)).
Proof.
  intros H. unfold confirmWinner.
  destruct (STATE_eqb (state d) STOPPED) eqn:Es; [|exact H].
  destruct (pendingWinner d) as [w|]; [|exact H].
  apply DrawFacts.STATE_eqb_eq in Es.
  destruct (PrizeManager.getCurrentPrize (prizeManager d)) as [e|]; [|exact H].
  cbn [WinnerManager.addWinner after].
  apply notify_bounded, updateButtons_bounded.
  assert (length (ledger d) < length (queue d)) as Hlt by (apply H; right; now left).
  apply quiet_bounded.
  - unfold ledger, queue in *.
    cbn [confirmEffect withState withSlotMachine withPendingWinner withPrizeManager
         withWinnerManager winnerManager prizeManager WinnerManager.winners].
    unfold PrizeManager.advanceToNextPrize.
    destruct (_ <? _); cbn [PrizeManager.prizeQueue];
      rewrite length_app; cbn [List.length]; lia.
  - apply settled_not_drawing; [now left|reflexivity].
Qed.

Lemma respin_bounded d : bounded d -> bounded (respin d).
Proof.
  intros H. unfold respin. destruct (negb _); [exact H|]. cbv zeta.
  apply updateButtons_bounded, quiet_bounded; [apply H|].
  apply settled_not_drawing; [now left|].
  reflexivity.
Qed.

Lemma undoLastDraw_bounded d :
  bounded d -> bounded (snd (undoLastDraw h d)).
Proof.
  intros H. unfold undoLastDraw, WinnerManager.removeLastWinner.
  destruct (pop (WinnerManager.winners (winnerManager d))) as [[front w]|] eqn:E;
    [|exact H].
  cbn [snd]. apply pop_Some in E.
  apply short_bounded.
  destruct (updateButtons_views
              (withState READY (notify h (undoEffect w (WinnerManager.mk front) d))))
    as [Hl Hq].
  unfold updateUI. rewrite Hl, Hq.
  change (ledger (withState READY ?x)) with (ledger x).
  change (queue (withState READY ?x)) with (queue x).
  destruct (notify_keeps (undoEffect w (WinnerManager.mk front) d))
    as (-> & -> & _).
  destruct H as [Hle _]. unfold ledger, queue in *. rewrite E in Hle.
  rewrite length_app in Hle. cbn [List.length] in Hle.
  cbn [undoEffect withSlotMachine withPrizeManager withWinnerManager
       winnerManager prizeManager WinnerManager.winners].
  destruct (ReversalFacts.undoLastPrize_cursor (prizeManager d)) as (_ & -> & _).
  lia.
Qed.

Lemma readdWinner_bounded pid d :
  bounded d -> bounded (snd (readdWinner h pid d)).
Proof.
  intros H. unfold readdWinner, WinnerManager.removeWinnerById.
  destruct (findIndex _ (WinnerManager.winners (winnerManager d))) as [i|] eqn:E;
    [|exact H].
  apply findIndex_splice in E.
  destruct E as (front & w & back & El & _ & _ & -> & ->).
  cbn [snd]. apply short_bounded.
  destruct (notify_keeps (readdEffect w (WinnerManager.mk (front ++ back)) d))
    as (-> & -> & _).
  destruct H as [Hle _]. unfold ledger, queue in *. rewrite El in Hle.
  rewrite length_app in Hle. cbn [List.length] in Hle.
  cbn [readdEffect withSlotMachine withWinnerManager winnerManager prizeManager
       WinnerManager.winners].
  rewrite length_app. lia.
Qed.

Lemma reset_bounded ps d : bounded (reset h ps d).
Proof.
  unfold reset. cbv zeta. apply notify_bounded, updateButtons_bounded.
  apply quiet_bounded.
  - unfold ledger. cbn. lia.
  - apply settled_not_drawing; [now left|].
    reflexivity.
Qed.

Lemma selectPrize_bounded prizeId d :
  bounded d -> bounded (LotteryApp.selectPrize prizes prizeId d).
Proof.
  intros H.
  destruct (OrchestratorFacts.selectPrize_cases prizes prizeId d)
    as [->|[index ->]]; [exact H|].
  apply updateButtons_bounded. revert H. apply bounded_ext; auto.
Qed.

Lemma exec_bounded op d : bounded d -> bounded (after (exec prizes h op d)).
Proof.
  intros H. destruct op; cbn [exec after].
  - now apply updateButtons_bounded.
  - now apply startSpin_bounded.
  - now apply stopSpin_bounded.
  - now apply animationFrame_bounded.
  - now apply revealTimer_bounded.
  - now apply confirmWinner_bounded.
  - now apply respin_bounded.
  - now apply undoLastDraw_bounded.
  - now apply readdWinner_bounded.
  - apply reset_bounded.
  - now apply selectPrize_bounded.
Qed.

Lemma reachable_bounded participants actionButtons d :
  reachable prizes h participants actionButtons d -> bounded d.
Proof.
  induction 1 as [|d op Hd IH Hadm].
  - apply quiet_bounded; [unfold ledger; cbn; lia|].
    apply settled_not_drawing; [now left|reflexivity].
  - now apply exec_bounded.
Qed.

End Bounded.

End BoundFacts.

(** ** The listener of app.js keeps the cursor on an open tier *)

Module OpenTierFacts.

Import DrawManager Session SessionSpec.

Lemma hasRemaining_ext d d' t :
  ledger d' = ledger d -> hasRemaining d' t = hasRemaining d t.
Proof.
  unfold hasRemaining. intros H. now rewrite !CountFacts.awardedCount_slots, H.
Qed.

Lemma existsb_hasRemaining_ext prizes d d' :
  ledger d' = ledger d ->
  existsb (hasRemaining d') prizes = existsb (hasRemaining d) prizes.
Proof.
  intros H. induction prizes as [|t ts IH]; [reflexivity|].
  cbn [existsb]. now rewrite IH, (hasRemaining_ext d d' t H).
Qed.

Lemma currentPrizeHasRemaining_ext prizes d d' :
  prizeManager d' = prizeManager d -> ledger d' = ledger d ->
  LotteryApp.currentPrizeHasRemaining prizes d'
  = LotteryApp.currentPrizeHasRemaining prizes d.
Proof.
  intros Hpm Hl. unfold LotteryApp.currentPrizeHasRemaining. rewrite Hpm.
  destruct (PrizeManager.getCurrentPrize (prizeManager d)) as [e|]; [|reflexivity].
  now rewrite !CountFacts.awardedCount_slots, Hl.
Qed.

Lemma onOpenTier_ext prizes d d' :
  prizeManager d' = prizeManager d -> ledger d' = ledger d ->
  onOpenTier prizes d -> onOpenTier prizes d'.
Proof.
  unfold onOpenTier. intros Hpm Hl H.
  now rewrite (existsb_hasRemaining_ext prizes d d' Hl),
    (currentPrizeHasRemaining_ext prizes d d' Hpm Hl).
Qed.

(** [selectPrize] moves the cursor only to a tier it has found open. *)
Lemma selectPrize_onOpenTier prizes prizeId d :
  onOpenTier prizes d -> onOpenTier prizes (LotteryApp.selectPrize prizes prizeId d).
Proof.
  intros H. unfold LotteryApp.selectPrize.
  destruct (find (fun p => (id p =? prizeId)%Z) prizes) as [p|] eqn:Ef; [|exact H].
  destruct (_ <=? _)%Z eqn:Eq; [exact H|].
  destruct (LotteryApp.findSlot _ _ _ _) as [index|] eqn:Ei; [|exact H].
  intros _. apply OrchestratorFacts.findSlot_spec in Ei.
  destruct Ei as (e & He & Hid & _).
  assert (index < length (PrizeManager.prizeQueue (prizeManager d))) as Hlt
    by (apply nth_error_Some; congruence).
  rewrite (currentPrizeHasRemaining_ext prizes
             (withPrizeManager (PrizeManager.setCurrentIndex index (prizeManager d)) d));
    [|apply CursorProps.updateUI_prizeManager|apply OrchestratorFacts.updateUI_views].
  unfold LotteryApp.currentPrizeHasRemaining, PrizeManager.getCurrentPrize.
  cbn [prizeManager withPrizeManager PrizeManager.setCurrentIndex
       PrizeManager.prizeQueue PrizeManager.currentIndex].
  destruct (_ <=? _) eqn:E; [apply Nat.leb_le in E; lia|].
  rewrite He, Hid, Ef.
  apply Z.leb_gt in Eq. apply Z.ltb_lt.
  unfold LotteryApp.awardedCount in *.
  cbn [winnerManager withPrizeManager]. exact Eq.
Qed.

Section Wired.

Variable prizes : list Prize.
Hypothesis ids_unique : NoDup (map id prizes).

Lemma listener_onOpenTier d :
  queue d = PrizeManager.buildPrizeQueue prizes ->
  onOpenTier prizes (LotteryApp.onStateChange prizes d).
Proof.
  intros Hq Hex.
  destruct (ListenerProps.app_listener_frame prizes d) as (_ & Hwm & _).
  rewrite (existsb_hasRemaining_ext prizes d) in Hex
    by (unfold ledger; now rewrite Hwm).
  now apply SelectProps.autoSelect_lands_open.
Qed.

Lemma notify_onOpenTier d :
  queue d = PrizeManager.buildPrizeQueue prizes ->
  onOpenTier prizes (notify (Some (LotteryApp.onStateChange prizes)) d).
Proof. apply listener_onOpenTier. Qed.

Lemma exec_onOpenTier op d :
  queue d = PrizeManager.buildPrizeQueue prizes ->
  onOpenTier prizes d ->
  onOpenTier prizes
    (after (exec prizes (Some (LotteryApp.onStateChange prizes)) op d)).
Proof.
  intros Hq H. destruct op; cbn [exec after].
  - revert H. apply onOpenTier_ext;
      [apply CursorProps.updateUI_prizeManager|apply OrchestratorFacts.updateUI_views].
  - revert H. apply onOpenTier_ext;
      [apply CursorProps.startSpin_prizeManager|apply BooksProps.startSpin_books].
  - revert H. apply onOpenTier_ext;
      [apply CursorProps.stopSpin_prizeManager|apply BooksProps.stopSpin_books].
  - exact H.
  - revert H. apply onOpenTier_ext;
      [apply CursorProps.revealTimer_prizeManager|apply BooksProps.revealTimer_books].
  - unfold confirmWinner.
    destruct (STATE_eqb (state d) STOPPED); [|exact H].
    destruct (pendingWinner d) as [w|]; [|exact H].
    destruct (WinnerManager.addWinner _ _ _ _) as [wm|]; [|exact H].
    cbn [after]. apply notify_onOpenTier.
    unfold queue. rewrite CursorProps.updateUI_prizeManager.
    cbn [prizeManager withState confirmEffect withSlotMachine withPendingWinner
         withPrizeManager withWinnerManager].
    unfold PrizeManager.advanceToNextPrize. now destruct (_ <? _).
  - revert H. apply onOpenTier_ext;
      [apply CursorProps.respin_prizeManager|apply BooksProps.respin_books].
  - unfold undoLastDraw.
    destruct (WinnerManager.removeLastWinner (winnerManager d)) as [[w|] wm];
      [|exact H].
    cbn [snd].
    apply (onOpenTier_ext prizes
             (withState READY
                (notify (Some (LotteryApp.onStateChange prizes)) (undoEffect w wm d))));
      [apply CursorProps.updateUI_prizeManager
      |apply (OrchestratorFacts.updateUI_views
                (withState READY
                   (notify (Some (LotteryApp.onStateChange prizes))
                      (undoEffect w wm d))))|].
    apply (onOpenTier_ext prizes
             (notify (Some (LotteryApp.onStateChange prizes)) (undoEffect w wm d)));
      [reflexivity|reflexivity|].
    apply notify_onOpenTier.
    unfold queue.
    cbn [prizeManager undoEffect withSlotMachine withPrizeManager withWinnerManager].
    now destruct (ReversalFacts.undoLastPrize_cursor (prizeManager d)) as (_ & -> & _).
  - unfold readdWinner.
    destruct (WinnerManager.removeWinnerById participantId (winnerManager d))
      as [[w|] wm]; [|exact H].
    cbn [snd]. apply notify_onOpenTier. exact Hq.
  - unfold reset. cbv zeta. apply notify_onOpenTier.
    unfold queue. rewrite CursorProps.updateUI_prizeManager. exact Hq.
  - now apply selectPrize_onOpenTier.
Qed.

Lemma reachable_onOpenTier participants actionButtons d :
  reachable prizes (Some (LotteryApp.onStateChange prizes)) participants
    actionButtons d ->
  queue d = PrizeManager.buildPrizeQueue prizes /\ onOpenTier prizes d.
Proof.
  intros Hreach.
  assert (queue d = PrizeManager.buildPrizeQueue prizes) as Hq.
  { destruct (CursorProps.reachable_inQueue prizes
                (Some (LotteryApp.onStateChange prizes))
                (CursorProps.app_listener_keepsQueue prizes)
                participants actionButtons d Hreach) as [[Hq _] Ho].
    unfold queue. now rewrite Hq, Ho. }
  split; [exact Hq|]. clear Hq.
  induction Hreach as [|d op Hd IH Hadm].
  - apply CountFacts.queueOrder_onOpenTier; [exact ids_unique|].
    unfold queueOrder. repeat split.
  - apply exec_onOpenTier; [|exact IH].
    destruct (CursorProps.reachable_inQueue prizes
                (Some (LotteryApp.onStateChange prizes))
                (CursorProps.app_listener_keepsQueue prizes)
                participants actionButtons d Hd) as [[Hq _] Ho].
    unfold queue. now rewrite Hq, Ho.
Qed.

End Wired.

End OpenTierFacts.

(** ** Confirms undone, for a listener that keeps the books *)

Module BooksRoundTripFacts.

Import DrawManager Session SessionSpec.

Lemma sameBooks_refl d : sameBooks d d.
Proof. unfold sameBooks. auto. Qed.

Lemma sameBooks_trans a b c : sameBooks a b -> sameBooks b c -> sameBooks a c.
Proof.
  unfold sameBooks. intros (H1 & H2) (H3 & H4).
  split; [congruence|]. now rewrite H2.
Qed.

Section KeepsBooks.

Variable h : option (DrawManager.t -> DrawManager.t).
Hypothesis listener_keeps_books : keepsBooks h.

Lemma undoLastDraw_leaves_books d front w :
  ledger d = front ++ [w] ->
  ledger (snd (undoLastDraw h d)) = front
  /\ pool (snd (undoLastDraw h d))
     = SlotMachine.participants
         (snd (SlotMachine.addParticipant
                 (mkParticipant (w_id w) (w_name w)) (slotMachine d))).
Proof.
  intros Hledger.
  rewrite (ReversalFacts.undoLastDraw_last h d front w Hledger). cbn [snd].
  destruct (OrchestratorFacts.updateUI_views
              (withState READY (notify h (undoEffect w (WinnerManager.mk front) d))))
    as (-> & _ & -> & _).
  change (ledger (withState READY ?x)) with (ledger x).
  change (pool (withState READY ?x)) with (pool x).
  destruct (BooksProps.notify_books h listener_keeps_books
              (undoEffect w (WinnerManager.mk front) d)) as (-> & ->).
  auto.
Qed.

Lemma undoLastDraw_sameBooks a b :
  sameBooks a b -> sameBooks (snd (undoLastDraw h a)) (snd (undoLastDraw h b)).
Proof.
  intros (Hl & Hpool).
  destruct (ledger a) as [|x l] eqn:Ea.
  - rewrite (ReversalFacts.undoLastDraw_empty h a Ea).
    rewrite (ReversalFacts.undoLastDraw_empty h b) by congruence.
    unfold sameBooks. cbn [snd]. split; [congruence|exact Hpool].
  - destruct (pop_last_exists (ledger a)) as (front & w & Hlast);
      [rewrite Ea; discriminate|].
    assert (ledger b = front ++ [w]) as Hlast' by congruence.
    destruct (undoLastDraw_leaves_books a front w Hlast) as (Ha1 & Ha2).
    destruct (undoLastDraw_leaves_books b front w Hlast') as (Hb1 & Hb2).
    unfold sameBooks. rewrite Ha1, Ha2, Hb1, Hb2.
    split; [reflexivity|].
    unfold SlotMachine.addParticipant. unfold pool in Hpool.
    rewrite (RoundTripFacts.existsb_id_perm _ _ _ Hpool).
    destruct (existsb _ (SlotMachine.participants (slotMachine b))); cbn [snd].
    + exact Hpool.
    + cbn [SlotMachine.setParticipants SlotMachine.participants].
      now apply Permutation_app_tail.
Qed.

Lemma undos_sameBooks n a b : sameBooks a b -> sameBooks (undos h n a) (undos h n b).
Proof.
  revert a b. induction n as [|n IH]; intros a b H; cbn [undos].
  - exact H.
  - apply IH, undoLastDraw_sameBooks, H.
Qed.

(** What a returning [confirmWinner] leaves in the books. *)
Lemma confirmWinner_leaves_books now d d' w :
  state d = STOPPED -> pendingWinner d = Some w ->
  confirmWinner h now d = Returns d' ->
  exists e,
    PrizeManager.getCurrentPrize (prizeManager d) = Some e
    /\ d' = notify h (updateUI (withState READY
              (confirmEffect w
                 (WinnerManager.mk
                    (WinnerManager.winners (winnerManager d)
                     ++ [mkWinner (p_id w) (p_name w) e now])) d)))
    /\ ledger d' = ledger d ++ [mkWinner (p_id w) (p_name w) e now]
    /\ pool d'
       = SlotMachine.participants
           (snd (SlotMachine.removeParticipant (p_id w) (slotMachine d))).
Proof.
  intros Hs Hw. unfold confirmWinner. rewrite Hs, Hw. cbn [STATE_eqb].
  destruct (PrizeManager.getCurrentPrize (prizeManager d)) as [e|] eqn:E;
    cbn [WinnerManager.addWinner]; [|discriminate].
  intros H. inversion H; subst d'. clear H. exists e.
  split; [reflexivity|]. split; [reflexivity|].
  destruct (BooksProps.notify_books h listener_keeps_books
              (updateUI (withState READY
                 (confirmEffect w
                    (WinnerManager.mk
                       (WinnerManager.winners (winnerManager d)
                        ++ [mkWinner (p_id w) (p_name w) e now])) d))))
    as (-> & ->).
  destruct (OrchestratorFacts.updateUI_views
              (withState READY
                 (confirmEffect w
                    (WinnerManager.mk
                       (WinnerManager.winners (winnerManager d)
                        ++ [mkWinner (p_id w) (p_name w) e now])) d)))
    as (-> & _ & -> & _).
  split; reflexivity.
Qed.

Lemma confirm_then_undo_books now d d' w :
  NoDup (map p_id (pool d)) ->
  state d = STOPPED -> pendingWinner d = Some w -> In w (pool d) ->
  confirmWinner h now d = Returns d' ->
  sameBooks (snd (undoLastDraw h d')) d
  /\ NoDup (map p_id (pool d')).
Proof.
  intros Hnd Hs Hw Hin Hconfirm.
  destruct (confirmWinner_leaves_books now d d' w Hs Hw Hconfirm)
    as (e & _ & _ & Hl & Hpool).
  split.
  - destruct (undoLastDraw_leaves_books d' _ _ Hl) as (H1 & H2).
    unfold sameBooks. rewrite H1, H2. split; [reflexivity|].
    destruct (PoolFacts.removeParticipant_member w (slotMachine d) Hnd Hin)
      as [Hperm Hout].
    unfold pool in Hpool. rewrite <- Hpool in Hperm, Hout.
    rewrite PoolFacts.addParticipant_absent by exact Hout.
    cbn [snd SlotMachine.setParticipants SlotMachine.participants
         w_id w_name].
    rewrite <- Hperm. destruct w. cbn [p_id p_name].
    symmetry. apply Permutation_cons_append.
  - rewrite Hpool. now apply PoolFacts.removeParticipant_NoDup.
Qed.

Lemma draws_NoDup_books n d d' :
  NoDup (map p_id (pool d)) -> draws h n d d' -> NoDup (map p_id (pool d')).
Proof.
  intros Hnd. induction 1 as [|n d d1 d2 d3 w now Hd IH Hl Hp Hpool Hs Hw Hin Hc].
  - exact Hnd.
  - assert (NoDup (map p_id (pool d2))) as Hnd2 by (rewrite Hpool; exact (IH Hnd)).
    exact (proj2 (confirm_then_undo_books now d2 d3 w Hnd2 Hs Hw Hin Hc)).
Qed.

Lemma draws_then_undos_books n d d' :
  NoDup (map p_id (pool d)) -> draws h n d d' -> sameBooks (undos h n d') d.
Proof.
  intros Hnd. induction 1 as [|n d d1 d2 d3 w now Hd IH Hl Hp Hpool Hs Hw Hin Hc].
  - apply sameBooks_refl.
  - cbn [undos]. specialize (IH Hnd).
    assert (NoDup (map p_id (pool d2))) as Hnd2.
    { rewrite Hpool. eapply draws_NoDup_books; eassumption. }
    destruct (confirm_then_undo_books now d2 d3 w Hnd2 Hs Hw Hin Hc) as [Hback _].
    eapply sameBooks_trans; [|exact IH].
    apply undos_sameBooks.
    eapply sameBooks_trans; [exact Hback|].
    unfold sameBooks. rewrite Hl, Hpool. auto.
Qed.

End KeepsBooks.

(** *** The queue, for a listener that keeps it *)

Section KeepsQueue.

Variable h : option (DrawManager.t -> DrawManager.t).
Hypothesis listener_keeps_queue : keepsQueue h.

Lemma notify_queue d : queue (notify h d) = queue d.
Proof.
  unfold notify. destruct h as [f|] eqn:E; [|reflexivity].
  apply (listener_keeps_queue f eq_refl d).
Qed.

Lemma confirmWinner_queue now d : queue (after (confirmWinner h now d)) = queue d.
Proof.
  unfold confirmWinner.
  destruct (STATE_eqb (state d) STOPPED); [|reflexivity].
  destruct (pendingWinner d) as [w|]; [|reflexivity].
  destruct (WinnerManager.addWinner _ _ _ _) as [wm|]; [|reflexivity].
  cbn [after]. rewrite notify_queue. unfold queue.
  rewrite CursorProps.updateUI_prizeManager.
  cbn [prizeManager withState confirmEffect withSlotMachine withPendingWinner
       withPrizeManager withWinnerManager].
  unfold PrizeManager.advanceToNextPrize. now destruct (_ <? _).
Qed.

Lemma undoLastDraw_queue d : queue (snd (undoLastDraw h d)) = queue d.
Proof.
  unfold undoLastDraw.
  destruct (WinnerManager.removeLastWinner (winnerManager d)) as [[w|] wm];
    [|reflexivity].
  cbn [snd]. unfold queue at 1. rewrite CursorProps.updateUI_prizeManager.
  change (prizeManager (withState READY ?x)) with (prizeManager x).
  fold (queue (notify h (undoEffect w wm d))). rewrite notify_queue.
  unfold queue.
  cbn [prizeManager undoEffect withSlotMachine withPrizeManager withWinnerManager].
  now destruct (ReversalFacts.undoLastPrize_cursor (prizeManager d)) as (_ & -> & _).
Qed.

Lemma undos_queue n d : queue (undos h n d) = queue d.
Proof.
  revert d. induction n as [|n IH]; intros d; cbn [undos]; [reflexivity|].
  now rewrite IH, undoLastDraw_queue.
Qed.

Lemma draws_queue n d d' : draws h n d d' -> queue d' = queue d.
Proof.
  induction 1 as [|n d d1 d2 d3 w now Hd IH Hl Hp Hpool Hs Hw Hin Hc].
  - reflexivity.
  - pose proof (confirmWinner_queue now d2) as Hq. rewrite Hc in Hq.
    cbn [after] in Hq. rewrite Hq. unfold queue. rewrite Hp. exact IH.
Qed.

End KeepsQueue.

(** *** The listener of app.js, from a state in queue order *)

Section QueueOrder.

Variable prizes : list Prize.
Hypothesis ids_unique : NoDup (map id prizes).

Lemma queueOrder_ext d d' :
  prizeManager d' = prizeManager d -> ledger d' = ledger d ->
  queueOrder prizes d -> queueOrder prizes d'.
Proof. unfold queueOrder, queue, cursor. now intros -> ->. Qed.

Lemma notify_idle d :
  queueOrder prizes d -> notify (Some (LotteryApp.onStateChange prizes)) d = d.
Proof. intros H. now apply CountFacts.queueOrder_listener_idle. Qed.

Lemma confirmEffect_queueOrder d w e now :
  queueOrder prizes d ->
  PrizeManager.getCurrentPrize (prizeManager d) = Some e ->
  queueOrder prizes
    (updateUI (withState READY
       (confirmEffect w
          (WinnerManager.mk
             (WinnerManager.winners (winnerManager d)
              ++ [mkWinner (p_id w) (p_name w) e now])) d))).
Proof.
  intros (Hq & Hc & Hl) He.
  pose proof (RoundTripFacts.getCurrentPrize_Some _ _ He) as Hlt.
  assert (nth_error (queue d) (cursor d) = Some e) as Hnth.
  { unfold PrizeManager.getCurrentPrize in He.
    destruct (_ <=? _); [discriminate He|exact He]. }
  unfold queueOrder, queue, cursor, ledger in *.
  rewrite CursorProps.updateUI_prizeManager.
  destruct (OrchestratorFacts.updateUI_views
              (withState READY
                 (confirmEffect w
                    (WinnerManager.mk
                       (WinnerManager.winners (winnerManager d)
                        ++ [mkWinner (p_id w) (p_name w) e now])) d)))
    as (Hl' & _). unfold ledger in Hl'. rewrite Hl'.
  cbn [confirmEffect withState withSlotMachine withPendingWinner withPrizeManager
       withWinnerManager winnerManager prizeManager WinnerManager.winners].
  unfold PrizeManager.advanceToNextPrize.
  apply Nat.ltb_lt in Hlt. rewrite Hlt.
  cbn [PrizeManager.prizeQueue PrizeManager.currentIndex].
  rewrite length_app, map_app, Hl, (PlainProps.firstn_snoc _ _ e Hnth).
  cbn [List.length map prize]. repeat split; [exact Hq|lia].
Qed.

Lemma confirmWinner_idle now d d' :
  queueOrder prizes d ->
  confirmWinner (Some (LotteryApp.onStateChange prizes)) now d = Returns d' ->
  confirmWinner None now d = Returns d' /\ queueOrder prizes d'.
Proof.
  intros Hqo. unfold confirmWinner.
  destruct (STATE_eqb (state d) STOPPED).
  - destruct (pendingWinner d) as [w|].
    + destruct (PrizeManager.getCurrentPrize (prizeManager d)) as [e|] eqn:He;
        cbn [WinnerManager.addWinner]; [|discriminate].
      pose proof (confirmEffect_queueOrder d w e now Hqo He) as HX.
      rewrite (notify_idle _ HX). intros H. inversion H; subst d'.
      split; [reflexivity|exact HX].
    + intros H. inversion H; subst d'. split; [reflexivity|exact Hqo].
  - intros H. inversion H; subst d'. split; [reflexivity|exact Hqo].
Qed.

Lemma undoEffect_queueOrder d front w :
  queueOrder prizes d -> ledger d = front ++ [w] ->
  queueOrder prizes (undoEffect w (WinnerManager.mk front) d).
Proof.
  intros (Hq & Hc & Hl) E.
  unfold queueOrder, queue, cursor, ledger in *.
  cbn [undoEffect withSlotMachine withPrizeManager withWinnerManager
       winnerManager prizeManager WinnerManager.winners].
  rewrite E in Hc, Hl.
  destruct (ReversalFacts.undoLastPrize_cursor (prizeManager d)) as (-> & -> & _).
  rewrite map_app in Hl. cbn [map] in Hl.
  assert (PrizeManager.currentIndex (prizeManager d)
          = length (map prize front ++ [prize w])) as Hn.
  { rewrite Hc, !length_app, length_map. reflexivity. }
  pose proof (PlainProps.firstn_pred _ _ _ _ Hn Hl) as Hfront.
  rewrite length_app in Hc. cbn [List.length] in Hc.
  repeat split; [exact Hq|lia|exact Hfront].
Qed.

Lemma undoLastDraw_idle d :
  queueOrder prizes d ->
  undoLastDraw (Some (LotteryApp.onStateChange prizes)) d = undoLastDraw None d
  /\ queueOrder prizes (snd (undoLastDraw None d)).
Proof.
  intros Hqo. unfold undoLastDraw, WinnerManager.removeLastWinner.
  destruct (pop (WinnerManager.winners (winnerManager d))) as [[front w]|] eqn:E;
    [|split; [reflexivity|exact Hqo]].
  apply pop_Some in E.
  pose proof (undoEffect_queueOrder d front w Hqo E) as HE.
  rewrite (notify_idle _ HE). split; [reflexivity|].
  cbn [snd notify]. revert HE. apply queueOrder_ext.
  - rewrite CursorProps.updateUI_prizeManager. reflexivity.
  - apply (OrchestratorFacts.updateUI_views
             (withState READY (undoEffect w (WinnerManager.mk front) d))).
Qed.

Lemma undos_idle n d :
  queueOrder prizes d ->
  undos (Some (LotteryApp.onStateChange prizes)) n d = undos None n d.
Proof.
  revert d. induction n as [|n IH]; intros d Hqo; cbn [undos]; [reflexivity|].
  destruct (undoLastDraw_idle d Hqo) as [-> Hqo']. now apply IH.
Qed.

Lemma draws_idle n d d' :
  queueOrder prizes d ->
  draws (Some (LotteryApp.onStateChange prizes)) n d d' ->
  draws None n d d' /\ queueOrder prizes d'.
Proof.
  intros Hqo. induction 1 as [|n d d1 d2 d3 w now Hd IH Hl Hp Hpool Hs Hw Hin Hc].
  - split; [apply draws_O|exact Hqo].
  - destruct (IH Hqo) as [Hdraws Hqo1].
    assert (queueOrder prizes d2) as Hqo2
      by (revert Hqo1; now apply queueOrder_ext).
    destruct (confirmWinner_idle now d2 d3 Hqo2 Hc) as [Hc' Hqo3].
    split; [|exact Hqo3].
    eapply draws_S; eassumption.
Qed.

(** In queue order the application's listener does not get in the way of
    the round trip. *)
Lemma draws_then_undos_idle n d d' :
  NoDup (map p_id (pool d)) -> queueOrder prizes d ->
  draws (Some (LotteryApp.onStateChange prizes)) n d d' ->
  sameDraw (undos (Some (LotteryApp.onStateChange prizes)) n d') d.
Proof.
  intros Hnd Hqo Hdraws.
  destruct (draws_idle n d d' Hqo Hdraws) as [Hdraws' Hqo'].
  rewrite (undos_idle n d' Hqo').
  apply (RoundTripFacts.draws_then_undos None); [|exact Hnd|exact Hdraws'].
  intros f Hf. discriminate Hf.
Qed.

End QueueOrder.

End BooksRoundTripFacts.

(** ** The claims that depend on the listener *)

Module WiredClaims.

Import DrawManager Session SessionSpec.

Lemma app_listener_keepsBooks prizes :
  keepsBooks (Some (LotteryApp.onStateChange prizes)).
Proof.
  intros f Hf d. inversion Hf; subst f.
  destruct (ListenerProps.app_listener_frame prizes d) as (H1 & H2 & H3 & _). auto.
Qed.





Lemma filter_without_le {A : Type} (f : A -> bool) (front back : list A) (x : A) :
  length (filter f (front ++ back)) <= length (filter f (front ++ x :: back)).
Proof.
  rewrite !filter_app, !length_app. cbn [filter].
  destruct (f x); cbn [List.length]; lia.
Qed.

(** Taking a winner out does not close a tier that was open. *)
Lemma readdEffect_keeps_tier_open prizes d front w back :
  ledger d = front ++ w :: back ->
  LotteryApp.currentPrizeHasRemaining prizes d = true ->
  LotteryApp.currentPrizeHasRemaining prizes
    (readdEffect w (WinnerManager.mk (front ++ back)) d) = true.
Proof.
  intros Hledger. unfold LotteryApp.currentPrizeHasRemaining.
  change (prizeManager (readdEffect w (WinnerManager.mk (front ++ back)) d))
    with (prizeManager d).
  destruct (PrizeManager.getCurrentPrize (prizeManager d)) as [e|]; [|auto].
  destruct (find _ prizes) as [p|]; [|auto].
  intros H. apply Z.ltb_lt in H. apply Z.ltb_lt.
  rewrite CountFacts.awardedCount_slots in *. rewrite Hledger in H.
  change (ledger (readdEffect w (WinnerManager.mk (front ++ back)) d))
    with (front ++ back).
  rewrite map_app in *. cbn [map] in H.
  pose proof (filter_without_le (fun q => (id (tier q) =? id (tier e))%Z)
                (map prize front) (map prize back) (prize w)).
  lia.
Qed.




End WiredClaims.
